(** * QuickBooks export scripts: query building, response flattening, pagination

    A shallow embedding of the five scripts of the repository
    ([qb_inv.py], [qb_so.py], [qbpo.py], [qb_shipto.py], [qbinv_all.py]) and the
    properties of their query/flatten/paginate pipeline.

    Conventions of the embedding.
    - A Python [str] is a [string]; each character stands for the code point of
      the same number (the code points below 256).
    - [xml.etree.ElementTree] is modelled by the element tree it builds
      ([Element]) and by the four lookups the scripts use ([find], [findall],
      [findtext], [get]).  [ET.fromstring] is the boundary of the model: the
      functions below start from the tree it returns.
    - A Python [dict] literal is the list of its key/value pairs in the order
      they are written; [list.append] and [list.extend] add on the right.
    - A [for] loop over a list that appends to an accumulator is a [fold_left]
      over that list. *)

From Stdlib Require Import Bool Arith Lia Ascii String List.
Import ListNotations.

Open Scope string_scope.
Open Scope list_scope.

(** ** Python strings *)

(** The double quote and the line feed, which the templates are full of. *)
Definition dq : string := String (ascii_of_nat 34) EmptyString.
Definition nl : string := String (ascii_of_nat 10) EmptyString.

(** [q s] is [s] between double quotes, as in [version="16.0"]. *)
Definition q (s : string) : string := (dq ++ s ++ dq)%string.

(** Truth value of a [str]: every string but the empty one. *)
Definition truthy (s : string) : bool :=
  match s with
  | EmptyString => false
  | String _ _ => true
  end.

(** [str.isspace] on one character, for the code points below 256:
    U+0009..U+000D, U+001C..U+001F, U+0020, U+0085 and U+00A0. *)
Definition isspace (c : ascii) : bool :=
  let n := nat_of_ascii c in
  (((9 <=? n) && (n <=? 13)) || ((28 <=? n) && (n <=? 32))
   || (n =? 133) || (n =? 160))%nat.

Fixpoint lstrip (s : string) : string :=
  match s with
  | EmptyString => EmptyString
  | String c s' => if isspace c then lstrip s' else s
  end.

Fixpoint rstrip (s : string) : string :=
  match s with
  | EmptyString => EmptyString
  | String c s' =>
      match rstrip s' with
      | EmptyString => if isspace c then EmptyString else String c EmptyString
      | r => String c r
      end
  end.

(** [str.strip()]: the left index moves past leading white space, then the
    right index moves back over trailing white space. *)
Definition strip (s : string) : string := rstrip (lstrip s).

(** [sep.join(parts)]. *)
Fixpoint join (sep : string) (parts : list string) : string :=
  match parts with
  | [] => EmptyString
  | [x] => x
  | x :: rest => (x ++ sep ++ join sep rest)%string
  end.

(** [s.startswith(sub)]. *)
Fixpoint startswith (sub s : string) : bool :=
  match sub, s with
  | EmptyString, _ => true
  | String _ _, EmptyString => false
  | String a sub', String b s' => Ascii.eqb a b && startswith sub' s'
  end.

(** [s.find(sub)]: the lowest index at which [sub] occurs in [s], if any. *)
Fixpoint str_find (sub s : string) : option nat :=
  if startswith sub s then Some 0
  else match s with
       | EmptyString => None
       | String _ s' => option_map S (str_find sub s')
       end.

(** ** Element trees *)

#[local] Set Warnings "-register-all".

(** An [xml.etree.ElementTree.Element]: tag, attribute dictionary, the text
    before the first child ([None] when there is none) and the children in
    document order.  The parser the scripts use keeps neither comments nor
    processing instructions in the tree. *)
Inductive Element : Type :=
  mkElement {
      tag : string;
      attrib : list (string * string);
      text : option string;
      children : list Element
    }.

(** [Element.get(key)]: the attribute's value or [None]. *)
Fixpoint assoc_get (key : string) (d : list (string * string))
  : option string :=
  match d with
  | [] => None
  | (k, v) :: d' => if (k =? key)%string then Some v else assoc_get key d'
  end.

Definition get (e : Element) (key : string) : option string :=
  assoc_get key (attrib e).

Definition has_tag (t : string) (e : Element) : bool := (tag e =? t)%string.

(** [e.findall('Tag')]: the direct children with that tag, in document order. *)
Definition findall (e : Element) (t : string) : list Element :=
  filter (has_tag t) (children e).

(** [e.find('Tag')]: the first direct child with that tag. *)
Definition find (e : Element) (t : string) : option Element :=
  List.find (has_tag t) (children e).

(** [e.findtext('Tag', default)]: the text of the first direct child with that
    tag, the empty string when that child has no text, [default] when there is
    no such child. *)
Definition findtext (e : Element) (t : string) (default : string) : string :=
  match find e t with
  | Some c => match text c with
              | Some s => s
              | None => EmptyString
              end
  | None => default
  end.

(** [e.iter()]: the element and all its descendants, in document order. *)
Fixpoint iter (e : Element) : list Element :=
  match e with
  | mkElement _ _ _ cs => e :: flat_map iter cs
  end.

(** [root.findall('.//Tag')]: every descendant of [root] with that tag, in
    document order; [root] itself is not a candidate. *)
Definition findall_descendants (root : Element) (t : string) : list Element :=
  filter (has_tag t) (flat_map iter (children root)).

(** [root.find('.//Tag')]: the first of them. *)
Definition find_descendant (root : Element) (t : string) : option Element :=
  hd_error (findall_descendants root t).

(** ** Flat records *)

(** A flat record is a dictionary from column names to strings. *)
Definition record : Type := list (string * string).

(** [r[col]]. *)
Definition column (r : record) (col : string) : option string :=
  assoc_get col r.

(** [not items] for a Python list. *)
Definition is_empty {A : Type} (l : list A) : bool :=
  match l with
  | [] => true
  | _ :: _ => false
  end.

(** ** Address formatter ([parse_address], the same in [qb_inv.py], [qb_so.py]
    and [qbpo.py]) *)

Definition address_tags : list string :=
  ["Addr1"; "Addr2"; "Addr3"; "Addr4"; "Addr5";
   "City"; "State"; "PostalCode"; "Country"].

Definition parse_address (address_element : option Element) : string :=
  match address_element with
  | None => EmptyString
  | Some e =>
      let parts :=
        fold_left
          (fun parts t =>
             let text := strip (findtext e t EmptyString) in
             if truthy text then parts ++ [text] else parts)
          address_tags [] in
      join ", " parts
  end.

(** ** Calendar dates

    [datetime.date]: the scripts read [date.today()] and format it with
    [isoformat()].  The day the process runs is an input of the model. *)

Record date : Type := mkDate { year : nat; month : nat; day : nat }.

Definition digit (n : nat) : ascii := ascii_of_nat (48 + n mod 10).

(** The [width] low decimal digits of [n], high digit first: the format
    [%0<width>d] for every [n] below [10 ^ width]. *)
Fixpoint zero_padded (width n : nat) : string :=
  match width with
  | 0 => EmptyString
  | S w => (zero_padded w (n / 10) ++ String (digit n) EmptyString)%string
  end.

(** [date.isoformat()]: [%04d-%02d-%02d]. *)
Definition isoformat (d : date) : string :=
  (zero_padded 4 (year d) ++ "-" ++ zero_padded 2 (month d) ++ "-"
   ++ zero_padded 2 (day d))%string.

(** ** Invoices ([qb_inv.py]) *)

Module QbInv.

(** [build_qbxml_invoice_request]: the query for one invoice number. *)
Definition build_qbxml_invoice_request (invoice_number : string) : string :=
  ("<?xml version=" ++ q "1.0" ++ " encoding=" ++ q "utf-8" ++ "?>" ++ nl
   ++ "<?qbxml version=" ++ q "16.0" ++ "?>" ++ nl
   ++ "<QBXML>" ++ nl
   ++ "  <QBXMLMsgsRq onError=" ++ q "continueOnError" ++ ">" ++ nl
   ++ "    <InvoiceQueryRq requestID=" ++ q "1" ++ ">" ++ nl
   ++ "      <RefNumber>" ++ invoice_number ++ "</RefNumber>" ++ nl
   ++ "      <IncludeLineItems>1</IncludeLineItems>" ++ nl
   ++ "    </InvoiceQueryRq>" ++ nl
   ++ "  </QBXMLMsgsRq>" ++ nl
   ++ "</QBXML>")%string.

(** [build_qbxml_year_invoices_request]: every invoice from Jan 1 of [year]
    through [today].  The diagnostic [print] of the document does not change
    the value returned and is left out. *)
Definition build_qbxml_year_invoices_request (today : date) (year : string)
  : string :=
  let from_date := (year ++ "-01-01")%string in
  let to_date := isoformat today in
  ("<?xml version=" ++ q "1.0" ++ " encoding=" ++ q "utf-8" ++ "?>" ++ nl
   ++ "<?qbxml version=" ++ q "16.0" ++ "?>" ++ nl
   ++ "<QBXML>" ++ nl
   ++ "  <QBXMLMsgsRq onError=" ++ q "continueOnError" ++ ">" ++ nl
   ++ "    <InvoiceQueryRq requestID=" ++ q "1" ++ ">" ++ nl
   ++ "      <TxnDateRangeFilter>" ++ nl
   ++ "        <FromTxnDate>" ++ from_date ++ "</FromTxnDate>" ++ nl
   ++ "        <ToTxnDate>" ++ to_date ++ "</ToTxnDate>" ++ nl
   ++ "      </TxnDateRangeFilter>" ++ nl
   ++ "      <IncludeLineItems>1</IncludeLineItems>" ++ nl
   ++ "    </InvoiceQueryRq>" ++ nl
   ++ "  </QBXMLMsgsRq>" ++ nl
   ++ "</QBXML>")%string.

(** [process_invoice_response], from the parsed response. *)
Definition process_invoice_response (root : Element) : list record :=
  fold_left
    (fun data inv =>
       let invoice_number := findtext inv "RefNumber" EmptyString in
       let invoice_date := findtext inv "TxnDate" EmptyString in
       let po_number := findtext inv "PONumber" EmptyString in
       let customer_elem := find inv "CustomerRef" in
       let customer_name :=
         match customer_elem with
         | Some c => findtext c "FullName" EmptyString
         | None => EmptyString
         end in
       let ship_address := parse_address (find inv "ShipAddress") in
       let line_items := findall inv "InvoiceLineRet" in
       if is_empty line_items then
         data ++ [[("Invoice Number", invoice_number);
                   ("Customer Name", customer_name);
                   ("Invoice Date", invoice_date);
                   ("PO Number", po_number);
                   ("Ship To", ship_address);
                   ("Line Description", EmptyString);
                   ("Quantity", EmptyString);
                   ("Rate", EmptyString);
                   ("Amount", EmptyString);
                   ("Item Ref Full Name", EmptyString)]]
       else
         fold_left
           (fun data li =>
              let line_desc := findtext li "Desc" EmptyString in
              let quantity := findtext li "Quantity" EmptyString in
              let rate := findtext li "Rate" EmptyString in
              let amount := findtext li "Amount" EmptyString in
              let item_ref_elem := find li "ItemRef" in
              let item_full_name :=
                match item_ref_elem with
                | Some r => findtext r "FullName" EmptyString
                | None => EmptyString
                end in
              data ++ [[("Invoice Number", invoice_number);
                        ("Customer Name", customer_name);
                        ("Invoice Date", invoice_date);
                        ("PO Number", po_number);
                        ("Ship To", ship_address);
                        ("Line Description", line_desc);
                        ("Quantity", quantity);
                        ("Rate", rate);
                        ("Amount", amount);
                        ("Item Ref Full Name", item_full_name)]])
           line_items data)
    (findall_descendants root "InvoiceRet") [].

(** The column schema of [export_to_csv]. *)
Definition fieldnames : list string :=
  ["Invoice Number"; "Customer Name"; "Invoice Date"; "PO Number"; "Ship To";
   "Line Description"; "Quantity"; "Rate"; "Amount"; "Item Ref Full Name"].

End QbInv.

(** ** Sales orders ([qb_so.py]) *)

Module QbSo.

(** [build_qbxml_so_request]: the query for one reference number. *)
Definition build_qbxml_so_request (so_number : string) : string :=
  ("<?xml version=" ++ q "1.0" ++ " encoding=" ++ q "utf-8" ++ "?>" ++ nl
   ++ "<?qbxml version=" ++ q "16.0" ++ "?>" ++ nl
   ++ "<QBXML>" ++ nl
   ++ "  <QBXMLMsgsRq onError=" ++ q "continueOnError" ++ ">" ++ nl
   ++ "    <SalesOrderQueryRq requestID=" ++ q "1" ++ ">" ++ nl
   ++ "      <RefNumber>" ++ so_number ++ "</RefNumber>" ++ nl
   ++ "      <IncludeLineItems>1</IncludeLineItems>" ++ nl
   ++ "    </SalesOrderQueryRq>" ++ nl
   ++ "  </QBXMLMsgsRq>" ++ nl
   ++ "</QBXML>")%string.

(** [build_qbxml_year_so_request]: every transaction from Jan 1 of [year]
    through [today].  The diagnostic [print] of the document does not change
    the value returned and is left out. *)
Definition build_qbxml_year_so_request (today : date) (year : string)
  : string :=
  let from_date := (year ++ "-01-01")%string in
  let to_date := isoformat today in
  ("<?xml version=" ++ q "1.0" ++ " encoding=" ++ q "utf-8" ++ "?>" ++ nl
   ++ "<?qbxml version=" ++ q "16.0" ++ "?>" ++ nl
   ++ "<QBXML>" ++ nl
   ++ "  <QBXMLMsgsRq onError=" ++ q "continueOnError" ++ ">" ++ nl
   ++ "    <SalesOrderQueryRq requestID=" ++ q "1" ++ ">" ++ nl
   ++ "      <TxnDateRangeFilter>" ++ nl
   ++ "        <FromTxnDate>" ++ from_date ++ "</FromTxnDate>" ++ nl
   ++ "        <ToTxnDate>" ++ to_date ++ "</ToTxnDate>" ++ nl
   ++ "      </TxnDateRangeFilter>" ++ nl
   ++ "      <IncludeLineItems>1</IncludeLineItems>" ++ nl
   ++ "    </SalesOrderQueryRq>" ++ nl
   ++ "  </QBXMLMsgsRq>" ++ nl
   ++ "</QBXML>")%string.

(** [process_so_response], from the parsed response. *)
Definition process_so_response (root : Element) : list record :=
  fold_left
    (fun data so =>
       let so_number := findtext so "RefNumber" EmptyString in
       let txn_date := findtext so "TxnDate" EmptyString in
       let due_date := findtext so "DueDate" EmptyString in
       let customer_elem := find so "CustomerRef" in
       let customer_name :=
         match customer_elem with
         | Some c => findtext c "FullName" EmptyString
         | None => EmptyString
         end in
       let bill_address := parse_address (find so "BillAddress") in
       let ship_address := parse_address (find so "ShipAddress") in
       let total_amount := findtext so "TotalAmount" EmptyString in
       let sales_tax_total := findtext so "SalesTaxTotal" EmptyString in
       let subtotal := findtext so "Subtotal" EmptyString in
       let line_items := findall so "SalesOrderLineRet" in
       let group_items := findall so "SalesOrderLineGroupRet" in
       if is_empty line_items && is_empty group_items then
         data ++ [[("SO Number", so_number);
                   ("Customer Name", customer_name);
                   ("Transaction Date", txn_date);
                   ("Due Date", due_date);
                   ("Bill To", bill_address);
                   ("Ship To", ship_address);
                   ("Subtotal", subtotal);
                   ("Sales Tax Total", sales_tax_total);
                   ("Total Amount", total_amount);
                   ("Line Description", EmptyString);
                   ("Quantity", EmptyString);
                   ("Rate", EmptyString);
                   ("Amount", EmptyString);
                   ("Item Ref Full Name", EmptyString)]]
       else
         let data :=
           fold_left
             (fun data li =>
                let line_desc := findtext li "Desc" EmptyString in
                let quantity := findtext li "Quantity" EmptyString in
                let rate := findtext li "Rate" EmptyString in
                let amount := findtext li "Amount" EmptyString in
                let item_ref_elem := find li "ItemRef" in
                let item_full_name :=
                  match item_ref_elem with
                  | Some r => findtext r "FullName" EmptyString
                  | None => EmptyString
                  end in
                data ++ [[("SO Number", so_number);
                          ("Customer Name", customer_name);
                          ("Transaction Date", txn_date);
                          ("Due Date", due_date);
                          ("Bill To", bill_address);
                          ("Ship To", ship_address);
                          ("Subtotal", subtotal);
                          ("Sales Tax Total", sales_tax_total);
                          ("Total Amount", total_amount);
                          ("Line Description", line_desc);
                          ("Quantity", quantity);
                          ("Rate", rate);
                          ("Amount", amount);
                          ("Item Ref Full Name", item_full_name)]])
             line_items data in
         fold_left
           (fun data group =>
              let line_desc := findtext group "Desc" EmptyString in
              let quantity := findtext group "Quantity" EmptyString in
              let amount := findtext group "TotalAmount" EmptyString in
              let item_group_elem := find group "ItemGroupRef" in
              let item_full_name :=
                match item_group_elem with
                | Some r => findtext r "FullName" EmptyString
                | None => EmptyString
                end in
              data ++ [[("SO Number", so_number);
                        ("Customer Name", customer_name);
                        ("Transaction Date", txn_date);
                        ("Due Date", due_date);
                        ("Bill To", bill_address);
                        ("Ship To", ship_address);
                        ("Subtotal", subtotal);
                        ("Sales Tax Total", sales_tax_total);
                        ("Total Amount", total_amount);
                        ("Line Description", line_desc);
                        ("Quantity", quantity);
                        ("Rate", EmptyString);
                        ("Amount", amount);
                        ("Item Ref Full Name", item_full_name)]])
           group_items data)
    (findall_descendants root "SalesOrderRet") [].

(** The column schema of [export_to_csv]. *)
Definition fieldnames : list string :=
  ["SO Number"; "Customer Name"; "Transaction Date"; "Due Date"; "Bill To";
   "Ship To"; "Subtotal"; "Sales Tax Total"; "Total Amount";
   "Line Description"; "Quantity"; "Rate"; "Amount"; "Item Ref Full Name"].

End QbSo.

(** ** Purchase orders ([qbpo.py]) *)

Module QbPo.

(** [build_qbxml_po_request]: the query for one reference number. *)
Definition build_qbxml_po_request (po_number : string) : string :=
  ("<?xml version=" ++ q "1.0" ++ " encoding=" ++ q "utf-8" ++ "?>" ++ nl
   ++ "<?qbxml version=" ++ q "16.0" ++ "?>" ++ nl
   ++ "<QBXML>" ++ nl
   ++ "  <QBXMLMsgsRq onError=" ++ q "continueOnError" ++ ">" ++ nl
   ++ "    <PurchaseOrderQueryRq requestID=" ++ q "1" ++ ">" ++ nl
   ++ "      <RefNumber>" ++ po_number ++ "</RefNumber>" ++ nl
   ++ "      <IncludeLineItems>1</IncludeLineItems>" ++ nl
   ++ "    </PurchaseOrderQueryRq>" ++ nl
   ++ "  </QBXMLMsgsRq>" ++ nl
   ++ "</QBXML>")%string.

(** [build_qbxml_year_po_request]: every transaction from Jan 1 of [year]
    through [today].  The diagnostic [print] of the document does not change
    the value returned and is left out. *)
Definition build_qbxml_year_po_request (today : date) (year : string)
  : string :=
  let from_date := (year ++ "-01-01")%string in
  let to_date := isoformat today in
  ("<?xml version=" ++ q "1.0" ++ " encoding=" ++ q "utf-8" ++ "?>" ++ nl
   ++ "<?qbxml version=" ++ q "16.0" ++ "?>" ++ nl
   ++ "<QBXML>" ++ nl
   ++ "  <QBXMLMsgsRq onError=" ++ q "continueOnError" ++ ">" ++ nl
   ++ "    <PurchaseOrderQueryRq requestID=" ++ q "1" ++ ">" ++ nl
   ++ "      <TxnDateRangeFilter>" ++ nl
   ++ "        <FromTxnDate>" ++ from_date ++ "</FromTxnDate>" ++ nl
   ++ "        <ToTxnDate>" ++ to_date ++ "</ToTxnDate>" ++ nl
   ++ "      </TxnDateRangeFilter>" ++ nl
   ++ "      <IncludeLineItems>1</IncludeLineItems>" ++ nl
   ++ "    </PurchaseOrderQueryRq>" ++ nl
   ++ "  </QBXMLMsgsRq>" ++ nl
   ++ "</QBXML>")%string.

(** [process_po_response], from the parsed response. *)
Definition process_po_response (root : Element) : list record :=
  fold_left
    (fun data po =>
       let po_number := findtext po "RefNumber" EmptyString in
       let txn_date := findtext po "TxnDate" EmptyString in
       let due_date := findtext po "DueDate" EmptyString in
       let vendor_elem := find po "VendorRef" in
       let vendor_name :=
         match vendor_elem with
         | Some v => findtext v "FullName" EmptyString
         | None => EmptyString
         end in
       let vendor_address := parse_address (find po "VendorAddress") in
       let ship_address := parse_address (find po "ShipAddress") in
       let total_amount := findtext po "TotalAmount" EmptyString in
       let line_items := findall po "PurchaseOrderLineRet" in
       let group_items := findall po "PurchaseOrderLineGroupRet" in
       if is_empty line_items && is_empty group_items then
         data ++ [[("PO Number", po_number);
                   ("Vendor Name", vendor_name);
                   ("Transaction Date", txn_date);
                   ("Due Date", due_date);
                   ("Vendor Address", vendor_address);
                   ("Ship To", ship_address);
                   ("Total Amount", total_amount);
                   ("Line Description", EmptyString);
                   ("Quantity", EmptyString);
                   ("Rate", EmptyString);
                   ("Amount", EmptyString);
                   ("Item Ref Full Name", EmptyString)]]
       else
         let data :=
           fold_left
             (fun data li =>
                let line_desc := findtext li "Desc" EmptyString in
                let quantity := findtext li "Quantity" EmptyString in
                let rate := findtext li "Rate" EmptyString in
                let amount := findtext li "Amount" EmptyString in
                let item_ref_elem := find li "ItemRef" in
                let item_full_name :=
                  match item_ref_elem with
                  | Some r => findtext r "FullName" EmptyString
                  | None => EmptyString
                  end in
                data ++ [[("PO Number", po_number);
                          ("Vendor Name", vendor_name);
                          ("Transaction Date", txn_date);
                          ("Due Date", due_date);
                          ("Vendor Address", vendor_address);
                          ("Ship To", ship_address);
                          ("Total Amount", total_amount);
                          ("Line Description", line_desc);
                          ("Quantity", quantity);
                          ("Rate", rate);
                          ("Amount", amount);
                          ("Item Ref Full Name", item_full_name)]])
             line_items data in
         fold_left
           (fun data group =>
              let line_desc := findtext group "Desc" EmptyString in
              let quantity := findtext group "Quantity" EmptyString in
              let amount := findtext group "TotalAmount" EmptyString in
              let item_group_elem := find group "ItemGroupRef" in
              let item_full_name :=
                match item_group_elem with
                | Some r => findtext r "FullName" EmptyString
                | None => EmptyString
                end in
              data ++ [[("PO Number", po_number);
                        ("Vendor Name", vendor_name);
                        ("Transaction Date", txn_date);
                        ("Due Date", due_date);
                        ("Vendor Address", vendor_address);
                        ("Ship To", ship_address);
                        ("Total Amount", total_amount);
                        ("Line Description", line_desc);
                        ("Quantity", quantity);
                        ("Rate", EmptyString);
                        ("Amount", amount);
                        ("Item Ref Full Name", item_full_name)]])
           group_items data)
    (findall_descendants root "PurchaseOrderRet") [].

(** The column schema of [export_to_csv]. *)
Definition fieldnames : list string :=
  ["PO Number"; "Vendor Name"; "Transaction Date"; "Due Date";
   "Vendor Address"; "Ship To"; "Total Amount";
   "Line Description"; "Quantity"; "Rate"; "Amount"; "Item Ref Full Name"].

End QbPo.

(** ** The batch loop of the two customer exporters

    [main] of [qb_shipto.py] and of [qbinv_all.py] run the same [while True]
    loop around their own request builder and their own [parse_shipto].  The
    request processor behind [rp.ProcessRequest] is a state machine of the
    environment: from its state and a request document it gives the next state
    and either the parsed response or nothing, when the call or
    [ET.fromstring] raises.  The loop is driven by fuel, one unit per pass. *)

Section BatchLoop.

Variable Session : Type.
Variable ProcessRequest : Session -> string -> option Element * Session.

Variable Row : Type.
Variable build_request : string -> option string -> string.
Variable parse : Element -> list Row.

(** What the loop leaves behind: the accumulated records, the request
    documents issued so far, oldest first, and the processor's state. *)
Record batches : Type :=
  mkBatches {
      all_records : list Row;
      requests : list string;
      session : Session
    }.

Inductive outcome : Type :=
| Finished (b : batches)   (* left through [break] *)
| Raised (b : batches)     (* left through an exception *)
| OutOfFuel.

Fixpoint batch_loop (fuel : nat) (s : Session) (iterator_id : option string)
  (all_records : list Row) (sent : list string) : outcome :=
  match fuel with
  | 0 => OutOfFuel
  | S fuel' =>
      let mode :=
        match iterator_id with
        | None => "Start"
        | Some _ => "Continue"
        end in
      let qbxml := build_request mode iterator_id in
      let sent := sent ++ [qbxml] in
      match ProcessRequest s qbxml with
      | (None, s') => Raised (mkBatches all_records sent s')
      | (Some root, s') =>
          let records := parse root in
          let all_records := all_records ++ records in
          match find_descendant root "CustomerQueryRs" with
          | None => Finished (mkBatches all_records sent s')
          | Some rs =>
              match get rs "iteratorRemainingCount" with
              | None => Finished (mkBatches all_records sent s')
              | Some remaining =>
                  if (remaining =? "0")%string
                  then Finished (mkBatches all_records sent s')
                  else batch_loop fuel' s' (get rs "iteratorID")
                         all_records sent
              end
          end
      end
  end.

End BatchLoop.

Arguments mkBatches {Session Row}.
Arguments all_records {Session Row}.
Arguments requests {Session Row}.
Arguments session {Session Row}.
Arguments Finished {Session Row}.
Arguments Raised {Session Row}.
Arguments OutOfFuel {Session Row}.
Arguments batch_loop {Session} ProcessRequest {Row}.

(** ** Customer ship-to addresses, one column per field ([qb_shipto.py]) *)

Module QbShipto.

Definition build_qbxml_customers_request (iterator_mode : string)
  (iterator_id : option string) : string :=
  let iterator_attr := (" iterator=" ++ q iterator_mode)%string in
  let iterator_attr :=
    match iterator_id with
    | Some id =>
        if truthy id
        then (iterator_attr ++ " iteratorID=" ++ q id)%string
        else iterator_attr
    | None => iterator_attr
    end in
  ("<?xml version=" ++ q "1.0" ++ " encoding=" ++ q "utf-8" ++ "?>" ++ nl
   ++ "<?qbxml version=" ++ q "16.0" ++ "?>" ++ nl
   ++ "<QBXML>" ++ nl
   ++ "  <QBXMLMsgsRq onError=" ++ q "continueOnError" ++ ">" ++ nl
   ++ "    <CustomerQueryRq requestID=" ++ q "1" ++ iterator_attr ++ ">" ++ nl
   ++ "      <MaxReturned>100</MaxReturned>" ++ nl
   ++ "    </CustomerQueryRq>" ++ nl
   ++ "  </QBXMLMsgsRq>" ++ nl
   ++ "</QBXML>")%string.

(** [record[key]] for a key of the literal the record was built from. *)
Definition item (r : record) (key : string) : string :=
  match column r key with
  | Some v => v
  | None => EmptyString
  end.

Definition parse_shipto (root : Element) : list record :=
  fold_left
    (fun records cust =>
       let name := strip (findtext cust "FullName" EmptyString) in
       let ship_addresses := findall cust "ShipToAddress" in
       fold_left
         (fun records st =>
            let record :=
              [("Customer", name);
               ("ShipToName", strip (findtext st "Name" EmptyString));
               ("Addr1", strip (findtext st "Addr1" EmptyString));
               ("Addr2", strip (findtext st "Addr2" EmptyString));
               ("Addr3", strip (findtext st "Addr3" EmptyString));
               ("Addr4", strip (findtext st "Addr4" EmptyString));
               ("Addr5", strip (findtext st "Addr5" EmptyString));
               ("City", strip (findtext st "City" EmptyString));
               ("State", strip (findtext st "State" EmptyString));
               ("PostalCode", strip (findtext st "PostalCode" EmptyString));
               ("Country", strip (findtext st "Country" EmptyString));
               ("Note", strip (findtext st "Note" EmptyString));
               ("DefaultShipTo",
                 strip (findtext st "DefaultShipTo" EmptyString))] in
            if existsb truthy
                 [item record "ShipToName"; item record "Addr1";
                  item record "City"]
            then records ++ [record]
            else records)
         ship_addresses records)
    (findall_descendants root "CustomerRet") [].

(** The [while True] loop of [main].  The batch and customer counters and the
    copy of the first response written to disk only feed diagnostics and are
    left out. *)
Definition main_loop {Session : Type}
  (ProcessRequest : Session -> string -> option Element * Session)
  (fuel : nat) (s : Session) : outcome Session record :=
  batch_loop ProcessRequest build_qbxml_customers_request parse_shipto
    fuel s None [] [].

(** [main], as far as the records it ends with: it catches the exception, so
    the records gathered before it are still the ones reported and, when there
    are any, exported. *)
Definition main {Session : Type}
  (ProcessRequest : Session -> string -> option Element * Session)
  (fuel : nat) (s : Session) : option (list record) :=
  match main_loop ProcessRequest fuel s with
  | Finished b => Some (all_records b)
  | Raised b => Some (all_records b)
  | OutOfFuel => None
  end.

End QbShipto.

(** ** Customer ship-to addresses, one string per address ([qbinv_all.py]) *)

Module QbInvAll.

Definition build_qbxml_customers_request (iterator_mode : string)
  (iterator_id : option string) : string :=
  let iterator_attr := (" iterator=" ++ q iterator_mode)%string in
  let iterator_attr :=
    match iterator_id with
    | Some id =>
        if truthy id
        then (iterator_attr ++ " iteratorID=" ++ q id)%string
        else iterator_attr
    | None => iterator_attr
    end in
  ("<?xml version=" ++ q "1.0" ++ " encoding=" ++ q "utf-8" ++ "?>" ++ nl
   ++ "<?qbxml version=" ++ q "16.0" ++ "?>" ++ nl
   ++ "<QBXML>" ++ nl
   ++ "  <QBXMLMsgsRq onError=" ++ q "continueOnError" ++ ">" ++ nl
   ++ "    <CustomerQueryRq requestID=" ++ q "1" ++ iterator_attr ++ ">" ++ nl
   ++ "      <IncludeRetElement>FullName</IncludeRetElement>" ++ nl
   ++ "      <IncludeRetElement>ShipToAddressList</IncludeRetElement>" ++ nl
   ++ "      <MaxReturned>100</MaxReturned>" ++ nl
   ++ "    </CustomerQueryRq>" ++ nl
   ++ "  </QBXMLMsgsRq>" ++ nl
   ++ "</QBXML>")%string.

Definition shipto_tags : list string :=
  ["Addr1"; "Addr2"; "City"; "State"; "PostalCode"; "Country"].

(** The records are [(customer, address)] tuples. *)
Definition parse_shipto (root : Element) : list (string * string) :=
  fold_left
    (fun records cust =>
       let name := strip (findtext cust "FullName" EmptyString) in
       let st_list := find cust "ShipToAddressList" in
       match st_list with
       | None => records
       | Some st_list =>
           fold_left
             (fun records st =>
                let label := strip (findtext st "Name" EmptyString) in
                let parts :=
                  map (fun t => strip (findtext st t EmptyString))
                    shipto_tags in
                let address := join ", " (filter truthy parts) in
                let entry :=
                  if truthy label
                  then (label ++ ": " ++ address)%string
                  else address in
                records ++ [(name, entry)])
             (findall st_list "ShipToAddress") records
       end)
    (findall_descendants root "CustomerRet") [].

(** The [while True] loop of [main]. *)
Definition main_loop {Session : Type}
  (ProcessRequest : Session -> string -> option Element * Session)
  (fuel : nat) (s : Session) : outcome Session (string * string) :=
  batch_loop ProcessRequest build_qbxml_customers_request parse_shipto
    fuel s None [] [].

(** [main], as far as the records it exports: it has no handler, so an
    exception leaves through [finally] and nothing is exported. *)
Definition main {Session : Type}
  (ProcessRequest : Session -> string -> option Element * Session)
  (fuel : nat) (s : Session) : option (list (string * string)) :=
  match main_loop ProcessRequest fuel s with
  | Finished b => Some (all_records b)
  | Raised _ => None
  | OutOfFuel => None
  end.

End QbInvAll.

(** ** Vocabulary of the properties *)

(** *** Records of one transaction

    What the specification promises for one transaction element, given the
    header pairs [hdr] of that transaction: one record per line item, made of
    the header pairs followed by the five line-item columns. *)

Definition line_columns : list string :=
  ["Line Description"; "Quantity"; "Rate"; "Amount"; "Item Ref Full Name"].

Definition ref_full_name (e : Element) (ref : string) : string :=
  match find e ref with
  | Some r => findtext r "FullName" EmptyString
  | None => EmptyString
  end.

Definition blank_line : record :=
  [("Line Description", EmptyString); ("Quantity", EmptyString);
   ("Rate", EmptyString); ("Amount", EmptyString);
   ("Item Ref Full Name", EmptyString)].

Definition simple_line (li : Element) : record :=
  [("Line Description", findtext li "Desc" EmptyString);
   ("Quantity", findtext li "Quantity" EmptyString);
   ("Rate", findtext li "Rate" EmptyString);
   ("Amount", findtext li "Amount" EmptyString);
   ("Item Ref Full Name", ref_full_name li "ItemRef")].

Definition group_line (group : Element) : record :=
  [("Line Description", findtext group "Desc" EmptyString);
   ("Quantity", findtext group "Quantity" EmptyString);
   ("Rate", EmptyString);
   ("Amount", findtext group "TotalAmount" EmptyString);
   ("Item Ref Full Name", ref_full_name group "ItemGroupRef")].

(** The header pairs of an invoice, a sales order and a purchase order. *)
Definition invoice_header (inv : Element) : record :=
  [("Invoice Number", findtext inv "RefNumber" EmptyString);
   ("Customer Name", ref_full_name inv "CustomerRef");
   ("Invoice Date", findtext inv "TxnDate" EmptyString);
   ("PO Number", findtext inv "PONumber" EmptyString);
   ("Ship To", parse_address (find inv "ShipAddress"))].

Definition so_header (so : Element) : record :=
  [("SO Number", findtext so "RefNumber" EmptyString);
   ("Customer Name", ref_full_name so "CustomerRef");
   ("Transaction Date", findtext so "TxnDate" EmptyString);
   ("Due Date", findtext so "DueDate" EmptyString);
   ("Bill To", parse_address (find so "BillAddress"));
   ("Ship To", parse_address (find so "ShipAddress"));
   ("Subtotal", findtext so "Subtotal" EmptyString);
   ("Sales Tax Total", findtext so "SalesTaxTotal" EmptyString);
   ("Total Amount", findtext so "TotalAmount" EmptyString)].

Definition po_header (po : Element) : record :=
  [("PO Number", findtext po "RefNumber" EmptyString);
   ("Vendor Name", ref_full_name po "VendorRef");
   ("Transaction Date", findtext po "TxnDate" EmptyString);
   ("Due Date", findtext po "DueDate" EmptyString);
   ("Vendor Address", parse_address (find po "VendorAddress"));
   ("Ship To", parse_address (find po "ShipAddress"));
   ("Total Amount", findtext po "TotalAmount" EmptyString)].

(** The names of the header columns of each schema. *)
Definition invoice_header_columns : list string :=
  ["Invoice Number"; "Customer Name"; "Invoice Date"; "PO Number"; "Ship To"].

Definition so_header_columns : list string :=
  ["SO Number"; "Customer Name"; "Transaction Date"; "Due Date"; "Bill To";
   "Ship To"; "Subtotal"; "Sales Tax Total"; "Total Amount"].

Definition po_header_columns : list string :=
  ["PO Number"; "Vendor Name"; "Transaction Date"; "Due Date";
   "Vendor Address"; "Ship To"; "Total Amount"].

(** [segmented out txs P]: the output [out] is cut into one run of records per
    transaction of [txs], the runs follow each other in the order of [txs], and
    each transaction's run satisfies [P]. *)
Definition segmented {A B : Type} (out : list B) (txs : list A)
  (P : A -> list B -> Prop) : Prop :=
  exists segs : list (list B), out = concat segs /\ Forall2 P txs segs.

(** Two records agree on a column, and have it. *)
Definition same_column (r r' : record) (col : string) : Prop :=
  exists v, column r col = Some v /\ column r' col = Some v.

(** *** Header/line-item cardinality, as the specification words it.

    [simple tx] and [grouped tx] are the simple and grouped line-item elements
    of the transaction [tx], [hdr tx] its header fields.  The run of a
    transaction has max(L+G, 1) records; they agree on every header column,
    where each holds the value of the transaction's header; and without line
    items the line-item columns of the one record are empty strings. *)
Definition cardinality (process : Element -> list record) (tx_tag : string)
  (simple grouped : Element -> list Element)
  (hdr : Element -> record) (header_columns : list string) : Prop :=
  forall root,
    segmented (process root) (findall_descendants root tx_tag)
      (fun tx seg =>
         length seg = Nat.max (length (simple tx) + length (grouped tx)) 1
         /\ (forall r r' col,
               In r seg -> In r' seg -> In col header_columns ->
               same_column r r' col)
         /\ (forall r col,
               In r seg -> In col header_columns ->
               same_column r (hdr tx) col)
         /\ (length (simple tx) + length (grouped tx) = 0 ->
             forall r col,
               In r seg -> In col line_columns ->
               column r col = Some EmptyString)).

(** *** Ordering, as the specification words it.

    The line-item elements of a transaction in document order, whichever their
    kind, and the record each one stands for. *)
Definition line_item_elements (line_tag group_tag : string) (tx : Element)
  : list Element :=
  filter (fun c => has_tag line_tag c || has_tag group_tag c) (children tx).

Definition line_item_record (hdr : Element -> record)
  (line_tag : string) (tx e : Element) : record :=
  if has_tag line_tag e then hdr tx ++ simple_line e
  else hdr tx ++ group_line e.

Definition document_order (process : Element -> list record) (tx_tag : string)
  (hdr : Element -> record) (line_tag group_tag : string) : Prop :=
  forall root,
    segmented (process root) (findall_descendants root tx_tag)
      (fun tx seg =>
         line_item_elements line_tag group_tag tx <> [] ->
         seg = map (line_item_record hdr line_tag tx)
                 (line_item_elements line_tag group_tag tx)).

(** What the flatteners do instead: the records of the simple line items in
    document order, then those of the grouped ones in document order. *)
Definition simple_then_grouped (process : Element -> list record)
  (tx_tag : string) (hdr : Element -> record)
  (simple grouped : Element -> list Element) : Prop :=
  forall root,
    segmented (process root) (findall_descendants root tx_tag)
      (fun tx seg =>
         simple tx ++ grouped tx <> [] ->
         seg = map (fun li => hdr tx ++ simple_line li) (simple tx)
               ++ map (fun g => hdr tx ++ group_line g) (grouped tx)).

(** The records the flatteners give for one transaction: the header-only
    record when there is no line item, else the simple lines followed by the
    grouped ones. *)
Definition tx_rows (hdr : Element -> record)
  (simple grouped : Element -> list Element) (tx : Element) : list record :=
  if is_empty (simple tx) && is_empty (grouped tx)
  then [hdr tx ++ blank_line]
  else map (fun li => hdr tx ++ simple_line li) (simple tx)
       ++ map (fun g => hdr tx ++ group_line g) (grouped tx).

(** *** Grouped line items: what a record made from [group] must show. *)
Definition grouped_record_of (group : Element) (r : record) : Prop :=
  column r "Rate" = Some EmptyString
  /\ column r "Amount" = Some (findtext group "TotalAmount" EmptyString)
  /\ column r "Item Ref Full Name" = Some (ref_full_name group "ItemGroupRef").

(** *** Address fields *)

(** The field [t] of the block [e], trimmed, and whether it is non-blank. *)
Definition trimmed_field (e : Element) (t : string) : string :=
  strip (findtext e t EmptyString).

Definition non_blank (e : Element) (t : string) : bool :=
  truthy (trimmed_field e t).

Definition sum_lengths (parts : list string) : nat :=
  list_sum (map String.length parts).

(** *** Ship-to blocks *)

(** Every ship-to block of a customer response with the customer it belongs
    to, in document order ([qb_shipto.py] reads them directly under the
    customer). *)
Definition shipto_blocks (root : Element) : list (Element * Element) :=
  flat_map (fun cust => map (pair cust) (findall cust "ShipToAddress"))
    (findall_descendants root "CustomerRet").

(** At least one of label, [Addr1] and [City] is non-blank after trimming. *)
Definition labelled_or_located (st : Element) : bool :=
  non_blank st "Name" || non_blank st "Addr1" || non_blank st "City".

Definition shipto_fields : list string :=
  ["Addr1"; "Addr2"; "Addr3"; "Addr4"; "Addr5"; "City"; "State";
   "PostalCode"; "Country"; "Note"; "DefaultShipTo"].

(** The record of [qb_shipto.py] for the block [st] of the customer [cust]. *)
Definition shipto_record_of (cust st : Element) (r : record) : Prop :=
  column r "Customer" = Some (trimmed_field cust "FullName")
  /\ column r "ShipToName" = Some (trimmed_field st "Name")
  /\ forall t, In t shipto_fields -> column r t = Some (trimmed_field st t).

(** The address string and the entry of [qbinv_all.py] for the block [st]. *)
Definition six_field_address (st : Element) : string :=
  join ", "
    (map (trimmed_field st)
       (filter (non_blank st)
          ["Addr1"; "Addr2"; "City"; "State"; "PostalCode"; "Country"])).

Definition labelled_entry (st : Element) : string :=
  if non_blank st "Name"
  then (trimmed_field st "Name" ++ ": " ++ six_field_address st)%string
  else six_field_address st.

(** *** Channels and cursors *)

(** A mock channel: it answers the requests with the responses of a script,
    one after the other, whatever it is asked, and fails once the script is
    used up. *)
Definition scripted (script : list Element) (qbxml : string)
  : option Element * list Element :=
  match script with
  | [] => (None, [])
  | response :: rest => (Some response, rest)
  end.

Section Channel.

Variable Session : Type.
Variable ProcessRequest : Session -> string -> option Element * Session.

(** From the state [s] the channel answers its next requests with
    [responses], in that order, whatever the requests are. *)
Fixpoint answers (s : Session) (responses : list Element) : Prop :=
  match responses with
  | [] => True
  | r :: rest =>
      forall qbxml,
        fst (ProcessRequest s qbxml) = Some r
        /\ answers (snd (ProcessRequest s qbxml)) rest
  end.

End Channel.

Arguments answers {Session}.

(** The attribute [name] of the list-result wrapper of a response. *)
Definition wrapper_attribute (response : Element) (name : string)
  : option string :=
  match find_descendant response "CustomerQueryRs" with
  | Some rs => get rs name
  | None => None
  end.

Definition remaining_count (response : Element) : option string :=
  wrapper_attribute response "iteratorRemainingCount".

Definition cursor_token (response : Element) : option string :=
  wrapper_attribute response "iteratorID".

(** The number a string of decimal digits stands for. *)
Definition digit_value (c : ascii) : option nat :=
  let n := nat_of_ascii c in
  if ((48 <=? n) && (n <=? 57))%nat then Some (n - 48) else None.

Fixpoint decimal_value_from (acc : nat) (s : string) : option nat :=
  match s with
  | EmptyString => Some acc
  | String c s' =>
      match digit_value c with
      | Some d => decimal_value_from (10 * acc + d) s'
      | None => None
      end
  end.

Definition decimal_value (s : string) : option nat :=
  match s with
  | EmptyString => None
  | String _ _ => decimal_value_from 0 s
  end.

(** The response reports a positive remaining count. *)
Definition reports_more (response : Element) : bool :=
  match remaining_count response with
  | Some c =>
      match decimal_value c with
      | Some n => (0 <? n)%nat
      | None => false
      end
  | None => false
  end.

(** The response reports no remaining count, or the count [0]. *)
Definition reports_done (response : Element) : bool :=
  match remaining_count response with
  | Some c => (c =? "0")%string
  | None => true
  end.

(** The cursor mode the loop picks for a token. *)
Definition mode_for (iterator_id : option string) : string :=
  match iterator_id with
  | None => "Start"
  | Some _ => "Continue"
  end.

(** The responses carry a cursor token that is not empty. *)
Definition has_token (response : Element) : bool :=
  match cursor_token response with
  | Some token => truthy token
  | None => false
  end.

Definition token_of (response : Element) : string :=
  match cursor_token response with
  | Some token => token
  | None => EmptyString
  end.

(** The customer query of [qb_shipto.py] with the attributes [attrs] after
    [requestID], and the two attribute strings of the cursor protocol. *)
Definition customer_query (attrs : string) : string :=
  ("<?xml version=" ++ q "1.0" ++ " encoding=" ++ q "utf-8" ++ "?>" ++ nl
   ++ "<?qbxml version=" ++ q "16.0" ++ "?>" ++ nl
   ++ "<QBXML>" ++ nl
   ++ "  <QBXMLMsgsRq onError=" ++ q "continueOnError" ++ ">" ++ nl
   ++ "    <CustomerQueryRq requestID=" ++ q "1" ++ attrs ++ ">" ++ nl
   ++ "      <MaxReturned>100</MaxReturned>" ++ nl
   ++ "    </CustomerQueryRq>" ++ nl
   ++ "  </QBXMLMsgsRq>" ++ nl
   ++ "</QBXML>")%string.

Definition start_attrs : string := (" iterator=" ++ q "Start")%string.

Definition continue_attrs (token : string) : string :=
  (" iterator=" ++ q "Continue" ++ " iteratorID=" ++ q token)%string.

(** The loop is drained: it left through [break] after one request per
    response of [more ++ [last]], the first a start request and each later one
    built from the cursor token of the response before it, and it holds the
    records of all the responses, batch after batch. *)
Definition drained {Session Row : Type} (o : outcome Session Row)
  (build_request : string -> option string -> string)
  (parse : Element -> list Row) (more : list Element) (last : Element)
  : Prop :=
  exists b,
    o = Finished b
    /\ length (requests b) = length more + 1
    /\ all_records b = flat_map parse (more ++ [last])
    /\ length (all_records b)
       = list_sum (map (fun r => length (parse r)) (more ++ [last]))
    /\ requests b
       = build_request "Start" None
         :: map (fun r =>
                   build_request (mode_for (cursor_token r)) (cursor_token r))
              more.

(** *** Searching a text with an unknown tail *)

(** [agree a b]: one of [a], [b] is a prefix of the other. *)
Fixpoint agree (a b : string) : bool :=
  match a, b with
  | String x a', String y b' => Ascii.eqb x y && agree a' b'
  | _, _ => true
  end.

(** [clear_of sub pre]: no occurrence of [sub] can begin inside [pre],
    whatever text follows [pre]. *)
Fixpoint clear_of (sub pre : string) : bool :=
  match pre with
  | EmptyString => true
  | String _ pre' => negb (agree sub pre) && clear_of sub pre'
  end.

(** *** Well-formed documents

    A scanner for the well-formedness of an XML 1.0 document without a
    document type declaration: processing instructions, comments, CDATA
    sections, start, end and empty-element tags with quoted attribute values,
    references, properly nested tags and one root element.  Where markup
    begins and ends it follows the XML grammar; which characters may stand in
    a name is not checked beyond the delimiters. *)

Definition is_xml_space (c : ascii) : bool :=
  let n := nat_of_ascii c in
  ((n =? 32) || (n =? 9) || (n =? 10) || (n =? 13))%nat.

Definition is_quote (c : ascii) : bool :=
  let n := nat_of_ascii c in
  ((n =? 34) || (n =? 39))%nat.

Definition is_name_char (c : ascii) : bool :=
  negb (is_xml_space c || is_quote c
        || Ascii.eqb c "<" || Ascii.eqb c ">" || Ascii.eqb c "/"
        || Ascii.eqb c "=" || Ascii.eqb c "&" || Ascii.eqb c ";").

Inductive scanning : Type :=
| Content                                   (* between pieces of markup *)
| Lt                                        (* after [<] *)
| ProcInstr (question : bool)               (* in [<? ... ?>] *)
| Bang (seen : string)                      (* after [<!] *)
| Comment (dashes : nat)                    (* in a comment *)
| CData (brackets : nat)                    (* in a CDATA section *)
| StartName (name : string)                 (* in the name of a start tag *)
| InTag (name : string)                     (* in a start tag, after its name *)
| AttrName (name : string)                  (* in an attribute name *)
| AttrEq (name : string)                    (* before [=] *)
| AttrQuote (name : string)                 (* before the opening quote *)
| AttrValue (name : string) (quote : ascii) (* in an attribute value *)
| AttrRef (name : string) (quote : ascii) (n : nat)
| EmptyEnd (name : string)                  (* after [/] in a start tag *)
| EndName (name : string)                   (* in the name of an end tag *)
| EndSpace (name : string)                  (* after the name of an end tag *)
| Reference (n : nat)                       (* after [&] in content *)
| Malformed.

Record scanner : Type :=
  mkScanner { mode : scanning; open_tags : list string; root_closed : bool }.

Definition goto (m : scanning) (st : scanner) : scanner :=
  mkScanner m (open_tags st) (root_closed st).

Definition push_tag (name : string) (st : scanner) : scanner :=
  mkScanner Content (name :: open_tags st) false.

Definition pop_tag (name : string) (st : scanner) : scanner :=
  match open_tags st with
  | top :: rest =>
      if (top =? name)%string
      then mkScanner Content rest (is_empty rest)
      else goto Malformed st
  | [] => goto Malformed st
  end.

Definition empty_tag (st : scanner) : scanner :=
  mkScanner Content (open_tags st) (is_empty (open_tags st)).

Definition snoc (s : string) (c : ascii) : string :=
  (s ++ String c EmptyString)%string.

Definition scan (st : scanner) (c : ascii) : scanner :=
  match mode st with
  | Content =>
      if Ascii.eqb c "<" then goto Lt st
      else if is_empty (open_tags st) then
        if is_xml_space c then st else goto Malformed st
      else if Ascii.eqb c "&" then goto (Reference 0) st
      else st
  | Lt =>
      if Ascii.eqb c "?" then goto (ProcInstr false) st
      else if Ascii.eqb c "!" then goto (Bang EmptyString) st
      else if Ascii.eqb c "/" then goto (EndName EmptyString) st
      else if is_name_char c && negb (root_closed st)
      then goto (StartName (String c EmptyString)) st
      else goto Malformed st
  | ProcInstr question =>
      if question && Ascii.eqb c ">" then goto Content st
      else goto (ProcInstr (Ascii.eqb c "?")) st
  | Bang seen =>
      let seen := snoc seen c in
      if (seen =? "--")%string then goto (Comment 0) st
      else if (seen =? "[CDATA[")%string then
        if is_empty (open_tags st) then goto Malformed st
        else goto (CData 0) st
      else if startswith seen "--" || startswith seen "[CDATA["
      then goto (Bang seen) st
      else goto Malformed st
  | Comment dashes =>
      match dashes with
      | 0 => goto (Comment (if Ascii.eqb c "-" then 1 else 0)) st
      | 1 => goto (Comment (if Ascii.eqb c "-" then 2 else 0)) st
      | _ => if Ascii.eqb c ">" then goto Content st else goto Malformed st
      end
  | CData brackets =>
      if Ascii.eqb c "]" then goto (CData (Nat.min 2 (S brackets))) st
      else if Ascii.eqb c ">" && (2 <=? brackets)%nat then goto Content st
      else goto (CData 0) st
  | StartName name =>
      if is_name_char c then goto (StartName (snoc name c)) st
      else if is_xml_space c then goto (InTag name) st
      else if Ascii.eqb c ">" then push_tag name st
      else if Ascii.eqb c "/" then goto (EmptyEnd name) st
      else goto Malformed st
  | InTag name =>
      if is_xml_space c then st
      else if Ascii.eqb c ">" then push_tag name st
      else if Ascii.eqb c "/" then goto (EmptyEnd name) st
      else if is_name_char c then goto (AttrName name) st
      else goto Malformed st
  | AttrName name =>
      if is_name_char c then st
      else if Ascii.eqb c "=" then goto (AttrQuote name) st
      else if is_xml_space c then goto (AttrEq name) st
      else goto Malformed st
  | AttrEq name =>
      if is_xml_space c then st
      else if Ascii.eqb c "=" then goto (AttrQuote name) st
      else goto Malformed st
  | AttrQuote name =>
      if is_xml_space c then st
      else if is_quote c then goto (AttrValue name c) st
      else goto Malformed st
  | AttrValue name quote =>
      if Ascii.eqb c quote then goto (InTag name) st
      else if Ascii.eqb c "<" then goto Malformed st
      else if Ascii.eqb c "&" then goto (AttrRef name quote 0) st
      else st
  | AttrRef name quote n =>
      if Ascii.eqb c ";" then
        match n with
        | 0 => goto Malformed st
        | S _ => goto (AttrValue name quote) st
        end
      else if is_name_char c then goto (AttrRef name quote (S n)) st
      else goto Malformed st
  | EmptyEnd name =>
      if Ascii.eqb c ">" then empty_tag st else goto Malformed st
  | EndName name =>
      if is_name_char c then goto (EndName (snoc name c)) st
      else if is_xml_space c then goto (EndSpace name) st
      else if Ascii.eqb c ">" then pop_tag name st
      else goto Malformed st
  | EndSpace name =>
      if is_xml_space c then st
      else if Ascii.eqb c ">" then pop_tag name st
      else goto Malformed st
  | Reference n =>
      if Ascii.eqb c ";" then
        match n with
        | 0 => goto Malformed st
        | S _ => goto Content st
        end
      else if is_name_char c then goto (Reference (S n)) st
      else goto Malformed st
  | Malformed => st
  end.

Fixpoint scan_all (st : scanner) (s : string) : scanner :=
  match s with
  | EmptyString => st
  | String c s' => scan_all (scan st c) s'
  end.

Definition well_formed (document : string) : bool :=
  let st := scan_all (mkScanner Content [] false) document in
  match mode st with
  | Content => is_empty (open_tags st) && root_closed st
  | _ => false
  end.

(** *** Request documents *)

(** The single-identifier template: a fixed text around the identifier, which
    stands between the reference-number tags as it was given. *)
Definition verbatim_identifier (build : string -> string) : Prop :=
  exists head tail : string,
    forall s,
      build s = (head ++ "<RefNumber>" ++ s ++ "</RefNumber>" ++ tail)%string.

(** The date-range document for the year [year] on the day [today]: the range
    filter holds [year-01-01] and the ISO form of [today], the line-item
    directive follows it, and the first [<TxnDateRangeFilter>] of the text
    comes before its first [<IncludeLineItems>]. *)
Definition date_range_document (build : date -> string -> string) : Prop :=
  exists head between tail : string,
    forall today year,
      build today year
      = (head
         ++ "<TxnDateRangeFilter>" ++ nl
         ++ "        <FromTxnDate>" ++ (year ++ "-01-01") ++ "</FromTxnDate>"
         ++ nl
         ++ "        <ToTxnDate>" ++ isoformat today ++ "</ToTxnDate>" ++ nl
         ++ "      </TxnDateRangeFilter>"
         ++ between
         ++ "<IncludeLineItems>1</IncludeLineItems>"
         ++ tail)%string
      /\ exists i j,
          str_find "<TxnDateRangeFilter>" (build today year) = Some i
          /\ str_find "<IncludeLineItems>" (build today year) = Some j
          /\ i < j.

(** The three single-identifier builders and the three date-range builders. *)
Definition identifier_builders : list (string -> string) :=
  [QbInv.build_qbxml_invoice_request; QbSo.build_qbxml_so_request;
   QbPo.build_qbxml_po_request].

(** ** Sample documents *)

Definition leaf (t value : string) : Element :=
  mkElement t [] (Some value) [].

Definition node (t : string) (cs : list Element) : Element :=
  mkElement t [] None cs.

(** A response around the transactions [txs] of a query [rs]. *)
Definition response_of (rs : string) (txs : list Element) : Element :=
  node "QBXML" [node "QBXMLMsgsRs" [node rs txs]].

(** An invoice with one simple and one grouped line item. *)
Definition invoice_with_group : Element :=
  node "InvoiceRet"
    [leaf "RefNumber" "1001";
     node "InvoiceLineRet" [leaf "Desc" "Widget"; leaf "Amount" "10.00"];
     node "InvoiceLineGroupRet"
       [leaf "Desc" "Bundle"; leaf "TotalAmount" "30.00"]].

(** A sales order whose grouped line item comes before its simple one. *)
Definition so_group_first : Element :=
  node "SalesOrderRet"
    [leaf "RefNumber" "7";
     node "SalesOrderLineGroupRet"
       [node "ItemGroupRef" [leaf "FullName" "Kit"];
        leaf "Desc" "Bundle"; leaf "TotalAmount" "30.00"];
     node "SalesOrderLineRet"
       [node "ItemRef" [leaf "FullName" "Part"];
        leaf "Desc" "Widget"; leaf "Rate" "5.00"; leaf "Amount" "10.00"]].

(** A purchase order with a simple and a grouped line item. *)
Definition po_line_and_group : Element :=
  node "PurchaseOrderRet"
    [leaf "RefNumber" "PO-3";
     node "VendorRef" [leaf "FullName" "Acme"];
     node "PurchaseOrderLineRet"
       [leaf "Desc" "Bolt"; leaf "Rate" "1.00"; leaf "Amount" "4.00"];
     node "PurchaseOrderLineGroupRet"
       [node "ItemGroupRef" [leaf "FullName" "Crate"];
        leaf "Desc" "Crate of bolts"; leaf "TotalAmount" "40.00"]].

(** A customer with the ship-to blocks [blocks] directly under it. *)
Definition customer (name : string) (blocks : list Element) : Element :=
  node "CustomerRet" (leaf "FullName" name :: blocks).

Definition shipto_block (fields : list (string * string)) : Element :=
  node "ShipToAddress" (map (fun f => leaf (fst f) (snd f)) fields).

(** One batch of a customer query: the remaining count and the cursor token
    the wrapper reports, and the customers of the batch. *)
Definition customer_batch (remaining token : string) (custs : list Element)
  : Element :=
  node "QBXML"
    [node "QBXMLMsgsRs"
       [mkElement "CustomerQueryRs"
          [("requestID", "1"); ("statusCode", "0");
           ("iteratorRemainingCount", remaining); ("iteratorID", token)]
          None custs]].

(** Two batches after which 2, then 1 customers remain, and the batch after
    which none does. *)
Definition two_more : list Element :=
  [customer_batch "2" "{c7a1}"
     [customer "Ann"
        [shipto_block
           [("Name", "Depot"); ("Addr1", "1 Quay"); ("City", "Hull")]]];
   customer_batch "1" "{c7a1}"
     [customer "Bob"
        [shipto_block [("Note", "ring twice"); ("DefaultShipTo", "true")];
         shipto_block [("Addr1", "9 Mill Lane")]]]].

Definition final_batch : Element :=
  customer_batch "0" "{c7a1}"
    [customer "Cy" [shipto_block [("Name", "Shop"); ("City", "York")]]].

(** A batch that reports one more customer but carries no cursor token. *)
Definition batch_without_token : Element :=
  node "QBXML"
    [node "QBXMLMsgsRs"
       [mkElement "CustomerQueryRs"
          [("requestID", "1"); ("iteratorRemainingCount", "1")] None []]].

(** A customer of the list-based extractor: a [ShipToAddressList] with a
    labelled block, a block with [Addr3] only and a block without any field. *)
Definition listed_customer : Element :=
  node "CustomerRet"
    [leaf "FullName" " Dee ";
     node "ShipToAddressList"
       [shipto_block
          [("Name", "Yard"); ("Addr1", "2 Dock Rd"); ("Addr3", "Bay 4");
           ("City", "Hull"); ("Country", "UK")];
        shipto_block [("Addr3", "Bay 9")];
        shipto_block []]].

(** An address block with a padded line, a blank line and an empty element. *)
Definition sample_address : Element :=
  node "ShipAddress"
    [leaf "Addr1" "  12 High St "; leaf "Addr3" "   "; leaf "City" "Leeds";
     node "State" []; leaf "Country" "UK"].

(** ** Writing CSV files ([csv.writer] and [csv.DictWriter])

    The exporters use the default dialect: fields separated by a comma, rows
    ended by carriage return and line feed, and a field put between double
    quotes, with its own double quotes doubled, exactly when it holds a comma,
    a double quote, a carriage return or a line feed. *)

Definition comma : ascii := ","%char.
Definition dquote : ascii := ascii_of_nat 34.
Definition cr : ascii := ascii_of_nat 13.
Definition lf : ascii := ascii_of_nat 10.

Definition crlf : string := String cr (String lf EmptyString).

(** The characters that force the writer to quote a field. *)
Definition is_special (c : ascii) : bool :=
  Ascii.eqb c comma || Ascii.eqb c dquote || Ascii.eqb c cr || Ascii.eqb c lf.

Fixpoint has_special (s : string) : bool :=
  match s with
  | EmptyString => false
  | String c s' => is_special c || has_special s'
  end.

(** The field with each double quote written twice. *)
Fixpoint double_quotes (s : string) : string :=
  match s with
  | EmptyString => EmptyString
  | String c s' =>
      if Ascii.eqb c dquote
      then String dquote (String dquote (double_quotes s'))
      else String c (double_quotes s')
  end.

Definition csv_field (s : string) : string :=
  if has_special s
  then String dquote (double_quotes s ++ String dquote EmptyString)
  else s.

(** [writer.writerow(fields)]: a row that would come out empty although it has
    a field, the row of one empty field, is written as two double quotes. *)
Definition writerow (fields : list string) : string :=
  let line := join "," (map csv_field fields) in
  match fields, line with
  | _ :: _, EmptyString => (String dquote (String dquote crlf))
  | _, _ => (line ++ crlf)%string
  end.

(** [writer.writerows(rows)]. *)
Definition csv_rows (rows : list (list string)) : string :=
  String.concat EmptyString (map writerow rows).

(** [DictWriter._dict_to_list]: the cells of a record in the order of the
    field names, [restval] for a missing key; with [extrasaction='raise'] a
    key outside the field names raises [ValueError] ([None]). *)
Definition dict_to_list (fieldnames : list string) (raise_on_extra : bool)
  (rowdict : record) : option (list string) :=
  if raise_on_extra
     && existsb
          (fun k => negb (existsb (String.eqb k) fieldnames))
          (map fst rowdict)
  then None
  else Some
         (map (fun key =>
                 match assoc_get key rowdict with
                 | Some v => v
                 | None => EmptyString
                 end)
            fieldnames).

(** What a [with open(...)] block leaves: the text written to the file and
    whether the block ran to its end. *)
Record written : Type := mkWritten { content : string; completed : bool }.

(** [DictWriter.writerows(data)]: the rows reach the file one by one, so the
    rows before a record that raises are written. *)
Fixpoint dict_writerows (fieldnames : list string) (raise_on_extra : bool)
  (data : list record) : written :=
  match data with
  | [] => mkWritten EmptyString true
  | rowdict :: rest =>
      match dict_to_list fieldnames raise_on_extra rowdict with
      | None => mkWritten EmptyString false
      | Some cells =>
          let w := dict_writerows fieldnames raise_on_extra rest in
          mkWritten (writerow cells ++ content w)%string (completed w)
      end
  end.

(** [writeheader()] followed by [writerows(data)], as in the three
    [export_to_csv] of [qb_inv.py], [qb_so.py] and [qbpo.py]. *)
Definition dict_export (fieldnames : list string) (raise_on_extra : bool)
  (data : list record) : written :=
  let w := dict_writerows fieldnames raise_on_extra data in
  mkWritten (writerow fieldnames ++ content w)%string (completed w).

(** ** Answers typed at the prompts *)

(** [str.lower()] on one character, for the code points below 256: the
    letters [A]..[Z] and U+00C0..U+00DE but the multiplication sign. *)
Definition lower_char (c : ascii) : ascii :=
  let n := nat_of_ascii c in
  if (((65 <=? n) && (n <=? 90))
      || ((192 <=? n) && (n <=? 222) && negb (n =? 215)))%nat
  then ascii_of_nat (n + 32)
  else c.

Fixpoint lower (s : string) : string :=
  match s with
  | EmptyString => EmptyString
  | String c s' => String (lower_char c) (lower s')
  end.

(** [s.split(sep)] for a separator of one character. *)
Fixpoint split (sep : ascii) (s : string) : list string :=
  match s with
  | EmptyString => [EmptyString]
  | String c s' =>
      if Ascii.eqb c sep then EmptyString :: split sep s'
      else match split sep s' with
           | part :: parts => String c part :: parts
           | [] => [String c EmptyString]
           end
  end.

(** [[x.strip() for x in line.split(",") if x.strip()]]: the identifiers
    typed on one line. *)
Definition identifiers (line : string) : list string :=
  map strip (filter (fun x => truthy (strip x)) (split comma line)).

(** ** The transaction scripts end to end

    [main] of [qb_inv.py], [qb_so.py] and [qbpo.py], between the opening and
    the closing of the session: the answers typed at the two prompts, the
    requests sent and the files written.  The three differ in their builders,
    their flattener, their schema and their file names only. *)

Section TransactionMain.

Variable Session : Type.
Variable ProcessRequest : Session -> string -> option Element * Session.

Variable build_request : string -> string.
Variable build_year_request : string -> string.
Variable process_response : Element -> list record.
Variable export_to_csv : list record -> written.
Variable single_filename : string -> string.
Variable year_filename : string -> string.

(** What a run leaves: the request documents sent, oldest first, the files
    written with their text, oldest first, the state of the request
    processor, and whether the run was cut short by an exception. *)
Record transcript : Type :=
  mkTranscript {
      queries : list string;
      files : list (string * string);
      channel : Session;
      failed : bool
    }.

(** The loop over the identifiers. *)
Fixpoint fetch_each (numbers : list string) (s : Session)
  (sent : list string) (saved : list (string * string)) : transcript :=
  match numbers with
  | [] => mkTranscript sent saved s false
  | number :: rest =>
      let qbxml_request := build_request number in
      let sent := sent ++ [qbxml_request] in
      match ProcessRequest s qbxml_request with
      | (None, s') => mkTranscript sent saved s' true
      | (Some response, s') =>
          let data := process_response response in
          let w := export_to_csv data in
          let saved := saved ++ [(single_filename number, content w)] in
          if completed w then fetch_each rest s' sent saved
          else mkTranscript sent saved s' true
      end
  end.

Definition transaction_main (choice_line answer_line : string) (s : Session)
  : transcript :=
  let choice := lower (strip choice_line) in
  if (choice =? "y")%string then
    let year := strip answer_line in
    let qbxml_request := build_year_request year in
    match ProcessRequest s qbxml_request with
    | (None, s') => mkTranscript [qbxml_request] [] s' true
    | (Some response, s') =>
        let data := process_response response in
        let w := export_to_csv data in
        mkTranscript [qbxml_request] [(year_filename year, content w)] s'
          (negb (completed w))
    end
  else if (choice =? "n")%string then
    let numbers := identifiers (strip answer_line) in
    if is_empty numbers then mkTranscript [] [] s false
    else fetch_each numbers s [] []
  else mkTranscript [] [] s false.

End TransactionMain.

Arguments mkTranscript {Session}.
Arguments queries {Session}.
Arguments files {Session}.
Arguments channel {Session}.
Arguments failed {Session}.
Arguments fetch_each {Session}.
Arguments transaction_main {Session}.

Module QbInvIO.

Definition export_to_csv (data : list record) : written :=
  dict_export QbInv.fieldnames true data.

Definition main {Session : Type}
  (ProcessRequest : Session -> string -> option Element * Session)
  (today : date) (choice_line answer_line : string) (s : Session)
  : transcript Session :=
  transaction_main ProcessRequest
    QbInv.build_qbxml_invoice_request
    (QbInv.build_qbxml_year_invoices_request today)
    QbInv.process_invoice_response export_to_csv
    (fun inv => "invoice_" ++ inv ++ ".csv")%string
    (fun year => "invoices_from_" ++ year ++ ".csv")%string
    choice_line answer_line s.

End QbInvIO.

Module QbSoIO.

Definition export_to_csv (data : list record) : written :=
  dict_export QbSo.fieldnames true data.

Definition main {Session : Type}
  (ProcessRequest : Session -> string -> option Element * Session)
  (today : date) (choice_line answer_line : string) (s : Session)
  : transcript Session :=
  transaction_main ProcessRequest
    QbSo.build_qbxml_so_request
    (QbSo.build_qbxml_year_so_request today)
    QbSo.process_so_response export_to_csv
    (fun so => "sales_order_" ++ so ++ ".csv")%string
    (fun year => "sales_orders_from_" ++ year ++ ".csv")%string
    choice_line answer_line s.

End QbSoIO.

Module QbPoIO.

Definition export_to_csv (data : list record) : written :=
  dict_export QbPo.fieldnames true data.

Definition main {Session : Type}
  (ProcessRequest : Session -> string -> option Element * Session)
  (today : date) (choice_line answer_line : string) (s : Session)
  : transcript Session :=
  transaction_main ProcessRequest
    QbPo.build_qbxml_po_request
    (QbPo.build_qbxml_year_po_request today)
    QbPo.process_po_response export_to_csv
    (fun po => "purchase_order_" ++ po ++ ".csv")%string
    (fun year => "purchase_orders_from_" ++ year ++ ".csv")%string
    choice_line answer_line s.

End QbPoIO.

(** ** The customer exporters' files *)

Module QbShiptoIO.

Definition all_columns : list string :=
  ["Customer"; "ShipToName"; "Addr1"; "Addr2"; "Addr3"; "Addr4"; "Addr5";
   "City"; "State"; "PostalCode"; "Country"; "Note"; "DefaultShipTo"].

(** [record.get(col, '')]. *)
Definition get_or_empty (r : record) (col : string) : string :=
  match assoc_get col r with
  | Some v => v
  | None => EmptyString
  end.

(** The columns that hold a non-empty value in at least one record. *)
Definition columns_with_data (records : list record) : list string :=
  filter (fun col => existsb (fun r => truthy (get_or_empty r col)) records)
    all_columns.

(** [export_to_csv(records, exclude_empty_columns=...)]: nothing is written
    for an empty list; otherwise the file, named after the time of the call
    (the [filename] argument is not read), holds the chosen columns, the
    other keys of the records being ignored. *)
Definition export_to_csv (records : list record)
  (exclude_empty_columns : bool) (timestamp : string)
  : option (string * written) :=
  if is_empty records then None
  else
    let columns :=
      if exclude_empty_columns then columns_with_data records
      else all_columns in
    Some (("shipto_addresses_" ++ timestamp ++ ".csv")%string,
          dict_export columns false records).

(** [main]: the batch loop, then the export of what it gathered, if any. *)
Definition main {Session : Type}
  (ProcessRequest : Session -> string -> option Element * Session)
  (fuel : nat) (s : Session) (timestamp : string)
  : option (option (string * written)) :=
  match QbShipto.main ProcessRequest fuel s with
  | Some all_records => Some (export_to_csv all_records true timestamp)
  | None => None
  end.

End QbShiptoIO.

Module QbInvAllIO.

(** [export_to_csv(records)] with its default file name: a plain
    [csv.writer], the header row and one row per tuple. *)
Definition export_to_csv (records : list (string * string))
  : string * written :=
  ("shipto_addresses.csv",
   mkWritten
     (writerow ["Customer"; "ShipToAddress"]
      ++ csv_rows (map (fun r => [fst r; snd r]) records))%string
     true).

Definition main {Session : Type}
  (ProcessRequest : Session -> string -> option Element * Session)
  (fuel : nat) (s : Session) : option (string * written) :=
  match QbInvAll.main ProcessRequest fuel s with
  | Some all_records => Some (export_to_csv all_records)
  | None => None
  end.

End QbInvAllIO.

(** A record that is not a sales-order record: it has a key of its own. *)
Definition stray_record : record :=
  [("SO Number", "9"); ("Customer", "Ann")].

(** ** Vocabulary of the runs *)

Section FailingChannel.

Variable Session : Type.
Variable ProcessRequest : Session -> string -> option Element * Session.

(** From the state [s] the channel answers its next requests with
    [responses], whatever they are, and raises at the request after them. *)
Fixpoint serves_then_fails (s : Session) (responses : list Element) : Prop :=
  match responses with
  | [] => forall qbxml, fst (ProcessRequest s qbxml) = None
  | r :: rest =>
      forall qbxml,
        fst (ProcessRequest s qbxml) = Some r
        /\ serves_then_fails (snd (ProcessRequest s qbxml)) rest
  end.

(** Every response of the channel, from the states that [always] holds of,
    reports more records. *)
Definition always_more (always : Session -> Prop) : Prop :=
  forall s qbxml,
    always s ->
    exists r,
      fst (ProcessRequest s qbxml) = Some r
      /\ reports_more r = true
      /\ always (snd (ProcessRequest s qbxml)).

End FailingChannel.

Arguments serves_then_fails {Session}.
Arguments always_more {Session}.

(** A channel that answers every request with the same response. *)
Definition repeating (response : Element) (s : unit) (qbxml : string)
  : option Element * unit :=
  (Some response, tt).

(** The run fetched the identifiers [numbers] one by one and got
    [responses]: a request per identifier up to the last one answered, and
    one more if the run was cut short; a file per response, named after its
    identifier and holding the export of the flattened response. *)
Definition fetched {Session : Type} (t : transcript Session)
  (build_request : string -> string)
  (process_response : Element -> list record)
  (export_to_csv : list record -> written)
  (single_filename : string -> string)
  (numbers : list string) (responses : list Element) (cut_short : bool)
  : Prop :=
  queries t
  = map build_request
      (firstn (length responses + (if cut_short then 1 else 0)) numbers)
  /\ files t
     = map (fun p =>
              (single_filename (fst p),
               content (export_to_csv (process_response (snd p)))))
         (combine numbers responses)
  /\ failed t = cut_short.

(** Two sales-order responses. *)
Definition two_orders : list Element :=
  [response_of "SalesOrderQueryRs" [so_group_first];
   response_of "SalesOrderQueryRs" [node "SalesOrderRet" [leaf "RefNumber" "8"]]].

(** The record [qb_shipto.py] builds for the block [st] of the customer
    [cust], and the records it keeps of a block. *)
Definition shipto_row (cust st : Element) : record :=
  [("Customer", trimmed_field cust "FullName");
   ("ShipToName", trimmed_field st "Name");
   ("Addr1", trimmed_field st "Addr1");
   ("Addr2", trimmed_field st "Addr2");
   ("Addr3", trimmed_field st "Addr3");
   ("Addr4", trimmed_field st "Addr4");
   ("Addr5", trimmed_field st "Addr5");
   ("City", trimmed_field st "City");
   ("State", trimmed_field st "State");
   ("PostalCode", trimmed_field st "PostalCode");
   ("Country", trimmed_field st "Country");
   ("Note", trimmed_field st "Note");
   ("DefaultShipTo", trimmed_field st "DefaultShipTo")].

Definition shipto_rows (block : Element * Element) : list record :=
  if labelled_or_located (snd block)
  then [shipto_row (fst block) (snd block)]
  else [].

(** ** Reading back what the writer wrote

    A reader of the rows [writerow] writes, one character at a time: it is the
    yardstick for what a written file still tells, not a part of the
    scripts. *)

Inductive reading : Type :=
| RowStart      (* before the first field of a row *)
| FieldStart    (* after a comma *)
| InField       (* in a field written as it is *)
| InQuotes      (* in a field written between double quotes *)
| QuoteSeen     (* after a double quote met in such a field *)
| AfterCR.      (* between the carriage return and the line feed *)

Record reader : Type :=
  mkReader {
      rows_read : list (list string);
      fields_read : list string;
      field : string;
      place : reading
    }.

Definition move (p : reading) (rd : reader) : reader :=
  mkReader (rows_read rd) (fields_read rd) (field rd) p.

Definition add_char (c : ascii) (p : reading) (rd : reader) : reader :=
  mkReader (rows_read rd) (fields_read rd) (snoc (field rd) c) p.

Definition end_field (p : reading) (rd : reader) : reader :=
  mkReader (rows_read rd) (fields_read rd ++ [field rd]) EmptyString p.

Definition end_row (rd : reader) : reader :=
  mkReader (rows_read rd ++ [fields_read rd]) [] EmptyString RowStart.

Definition read_char (rd : reader) (c : ascii) : reader :=
  match place rd with
  | RowStart =>
      if Ascii.eqb c dquote then move InQuotes rd
      else if Ascii.eqb c comma then end_field FieldStart rd
      else if Ascii.eqb c cr then move AfterCR rd
      else add_char c InField rd
  | FieldStart =>
      if Ascii.eqb c dquote then move InQuotes rd
      else if Ascii.eqb c comma then end_field FieldStart rd
      else if Ascii.eqb c cr then end_field AfterCR rd
      else add_char c InField rd
  | InField =>
      if Ascii.eqb c comma then end_field FieldStart rd
      else if Ascii.eqb c cr then end_field AfterCR rd
      else add_char c InField rd
  | InQuotes =>
      if Ascii.eqb c dquote then move QuoteSeen rd
      else add_char c InQuotes rd
  | QuoteSeen =>
      if Ascii.eqb c dquote then add_char c InQuotes rd
      else if Ascii.eqb c comma then end_field FieldStart rd
      else if Ascii.eqb c cr then end_field AfterCR rd
      else rd
  | AfterCR =>
      if Ascii.eqb c lf then end_row rd else rd
  end.

Fixpoint read_all (rd : reader) (s : string) : reader :=
  match s with
  | EmptyString => rd
  | String c s' => read_all (read_char rd c) s'
  end.

Definition read_csv (s : string) : list (list string) :=
  rows_read (read_all (mkReader [] [] EmptyString RowStart) s).

(** [free_of bad s]: none of the characters [bad] stands in [s]. *)
Fixpoint free_of (bad : list ascii) (s : string) : bool :=
  match s with
  | EmptyString => true
  | String c s' => negb (existsb (Ascii.eqb c) bad) && free_of bad s'
  end.

(** The characters that open markup in the content of an element, and the
    ones that do or that close the value in a quoted attribute. *)
Definition markup_chars : list ascii := ["<"%char; "&"%char].
Definition attribute_chars : list ascii := ["<"%char; "&"%char; dquote].

(** The text a cursor token adds to a request, if any. *)
Definition token_text (iterator_id : option string) : string :=
  match iterator_id with
  | Some token => token
  | None => EmptyString
  end.

(** * Properties *)

(** ** Loops that append *)

Section Accumulate.

Context {A B : Type}.

(** A loop whose body appends [rows x] to the accumulator computes the
    accumulator followed by the rows of every element, in order. *)
Lemma fold_left_append (body : list B -> A -> list B) (rows : A -> list B) :
  (forall acc x, body acc x = acc ++ rows x) ->
  forall l acc, fold_left body l acc = acc ++ flat_map rows l.
Proof.
  intros Hbody l.
  induction l as [| x l IH]; intros acc; simpl.
  - now rewrite app_nil_r.
  - now rewrite IH, Hbody, <- app_assoc.
Qed.

Lemma flat_map_singleton (f : A -> B) (l : list A) :
  flat_map (fun x => [f x]) l = map f l.
Proof.
  induction l as [| x l IH]; simpl; [reflexivity | now rewrite IH].
Qed.

(** An output that is the rows of each transaction, one after the other, is
    segmented by any property the rows of a transaction have. *)
Lemma flat_map_segmented (rows : A -> list B) (P : A -> list B -> Prop)
  (out : list B) (txs : list A) :
  out = flat_map rows txs ->
  (forall tx, P tx (rows tx)) ->
  segmented out txs P.
Proof.
  intros -> HP.
  exists (map rows txs); split.
  - apply flat_map_concat_map.
  - induction txs as [| tx txs IH]; simpl; constructor; auto.
Qed.

Lemma Forall2_map_right (Q : A -> B -> Prop) (f : A -> B) (l : list A) :
  (forall x, Q x (f x)) -> Forall2 Q l (map f l).
Proof.
  intros HQ; induction l as [| x l IH]; simpl; constructor; auto.
Qed.

(** With a single transaction there is a single run: the whole output. *)
Lemma segmented_single (P : A -> list B -> Prop) (out : list B) (tx : A) :
  segmented out [tx] P -> P tx out.
Proof.
  intros (segs & -> & HF).
  inversion HF as [| ? seg ? segs' Hseg Hrest]; subst.
  inversion Hrest; subst; simpl.
  now rewrite app_nil_r.
Qed.

End Accumulate.

(** ** The flatteners, transaction by transaction *)

Ltac split_loops :=
  repeat
    (erewrite fold_left_append by (intros; cbv zeta; reflexivity));
  rewrite ?flat_map_singleton, <- ?app_assoc.

Lemma process_so_response_rows (root : Element) :
  QbSo.process_so_response root
  = flat_map
      (tx_rows so_header
         (fun so => findall so "SalesOrderLineRet")
         (fun so => findall so "SalesOrderLineGroupRet"))
      (findall_descendants root "SalesOrderRet").
Proof.
  unfold QbSo.process_so_response.
  rewrite (fold_left_append _
             (tx_rows so_header
                (fun so => findall so "SalesOrderLineRet")
                (fun so => findall so "SalesOrderLineGroupRet"))).
  - reflexivity.
  - intros data so; cbv zeta; unfold tx_rows.
    destruct (is_empty _ && is_empty _); [reflexivity |].
    split_loops; reflexivity.
Qed.

Lemma process_po_response_rows (root : Element) :
  QbPo.process_po_response root
  = flat_map
      (tx_rows po_header
         (fun po => findall po "PurchaseOrderLineRet")
         (fun po => findall po "PurchaseOrderLineGroupRet"))
      (findall_descendants root "PurchaseOrderRet").
Proof.
  unfold QbPo.process_po_response.
  rewrite (fold_left_append _
             (tx_rows po_header
                (fun po => findall po "PurchaseOrderLineRet")
                (fun po => findall po "PurchaseOrderLineGroupRet"))).
  - reflexivity.
  - intros data po; cbv zeta; unfold tx_rows.
    destruct (is_empty _ && is_empty _); [reflexivity |].
    split_loops; reflexivity.
Qed.

(** The invoice flattener reads the simple line items only. *)
Lemma process_invoice_response_rows (root : Element) :
  QbInv.process_invoice_response root
  = flat_map
      (tx_rows invoice_header
         (fun inv => findall inv "InvoiceLineRet") (fun _ => []))
      (findall_descendants root "InvoiceRet").
Proof.
  unfold QbInv.process_invoice_response.
  rewrite (fold_left_append _
             (tx_rows invoice_header
                (fun inv => findall inv "InvoiceLineRet") (fun _ => []))).
  - reflexivity.
  - intros data inv; cbv zeta; unfold tx_rows.
    change (is_empty (@nil Element)) with true; rewrite andb_true_r.
    destruct (is_empty _); [reflexivity |].
    split_loops; cbn [map]; rewrite app_nil_r; reflexivity.
Qed.

(** ** Columns of a record *)

Lemma assoc_get_app_some (key v : string) (a b : record) :
  assoc_get key a = Some v -> assoc_get key (a ++ b) = Some v.
Proof.
  induction a as [| [k w] a IH]; simpl; [discriminate |].
  destruct (k =? key)%string; auto.
Qed.

Lemma assoc_get_app_none (key : string) (a b : record) :
  assoc_get key a = None -> assoc_get key (a ++ b) = assoc_get key b.
Proof.
  induction a as [| [k w] a IH]; simpl; [reflexivity |].
  destruct (k =? key)%string; [discriminate | auto].
Qed.

Ltac each_column H :=
  simpl in H;
  repeat (destruct H as [<- | H]; [| try contradiction]);
  try contradiction.

Lemma so_header_has (so : Element) (col : string) :
  In col so_header_columns -> exists v, column (so_header so) col = Some v.
Proof. intros H; each_column H; eexists; reflexivity. Qed.

Lemma po_header_has (po : Element) (col : string) :
  In col po_header_columns -> exists v, column (po_header po) col = Some v.
Proof. intros H; each_column H; eexists; reflexivity. Qed.

Lemma invoice_header_has (inv : Element) (col : string) :
  In col invoice_header_columns ->
  exists v, column (invoice_header inv) col = Some v.
Proof. intros H; each_column H; eexists; reflexivity. Qed.

Lemma so_header_lacks (so : Element) (col : string) :
  In col line_columns -> column (so_header so) col = None.
Proof. intros H; each_column H; reflexivity. Qed.

Lemma po_header_lacks (po : Element) (col : string) :
  In col line_columns -> column (po_header po) col = None.
Proof. intros H; each_column H; reflexivity. Qed.

Lemma invoice_header_lacks (inv : Element) (col : string) :
  In col line_columns -> column (invoice_header inv) col = None.
Proof. intros H; each_column H; reflexivity. Qed.

Lemma blank_line_blank (col : string) :
  In col line_columns -> column blank_line col = Some EmptyString.
Proof. intros H; each_column H; reflexivity. Qed.

(** ** Records of one transaction *)

Section TxRows.

Variable hdr : Element -> record.
Variables simple grouped : Element -> list Element.
Variable header_columns : list string.

Hypothesis hdr_has :
  forall tx col,
    In col header_columns -> exists v, column (hdr tx) col = Some v.
Hypothesis hdr_lacks :
  forall tx col, In col line_columns -> column (hdr tx) col = None.

Lemma tx_rows_length (tx : Element) :
  length (tx_rows hdr simple grouped tx)
  = Nat.max (length (simple tx) + length (grouped tx)) 1.
Proof.
  unfold tx_rows.
  destruct (simple tx) as [| li ls]; destruct (grouped tx) as [| g gs];
    cbn [is_empty andb]; rewrite ?length_app, ?length_map;
    cbn [length]; lia.
Qed.

(** Every record of a transaction starts with that transaction's header. *)
Lemma tx_rows_header (tx : Element) (r : record) :
  In r (tx_rows hdr simple grouped tx) -> exists line, r = hdr tx ++ line.
Proof.
  unfold tx_rows.
  destruct (is_empty (simple tx) && is_empty (grouped tx)).
  - intros [<- | []]; eauto.
  - rewrite in_app_iff, !in_map_iff.
    intros [(li & <- & _) | (g & <- & _)]; eauto.
Qed.

Lemma tx_rows_same_header (tx : Element) (r r' : record) (col : string) :
  In r (tx_rows hdr simple grouped tx) ->
  In r' (tx_rows hdr simple grouped tx) ->
  In col header_columns ->
  same_column r r' col.
Proof.
  intros Hr Hr' Hcol.
  destruct (tx_rows_header _ _ Hr) as [line ->].
  destruct (tx_rows_header _ _ Hr') as [line' ->].
  destruct (hdr_has tx col Hcol) as [v Hv].
  exists v; split; apply assoc_get_app_some; exact Hv.
Qed.

Lemma tx_rows_no_line (tx : Element) :
  length (simple tx) + length (grouped tx) = 0 ->
  tx_rows hdr simple grouped tx = [hdr tx ++ blank_line].
Proof.
  unfold tx_rows.
  destruct (simple tx); destruct (grouped tx); simpl; try lia; reflexivity.
Qed.

Lemma tx_rows_lines (tx : Element) :
  simple tx ++ grouped tx <> [] ->
  tx_rows hdr simple grouped tx
  = map (fun li => hdr tx ++ simple_line li) (simple tx)
    ++ map (fun g => hdr tx ++ group_line g) (grouped tx).
Proof.
  unfold tx_rows.
  destruct (simple tx); destruct (grouped tx); simpl; try reflexivity.
  intros H; now contradiction H.
Qed.

Variable process : Element -> list record.
Variable tx_tag : string.

Hypothesis process_rows :
  forall root,
    process root
    = flat_map (tx_rows hdr simple grouped) (findall_descendants root tx_tag).

Lemma rows_cardinality :
  cardinality process tx_tag simple grouped hdr header_columns.
Proof.
  intros root.
  apply (flat_map_segmented (tx_rows hdr simple grouped));
    [apply process_rows |].
  intros tx; split; [apply tx_rows_length | split; [| split]].
  - intros r r' col; apply tx_rows_same_header.
  - intros r col Hr Hcol.
    destruct (tx_rows_header _ _ Hr) as [line ->].
    destruct (hdr_has tx col Hcol) as [v Hv].
    exists v; split; [now apply assoc_get_app_some | exact Hv].
  - intros Hnone r col Hr Hcol.
    rewrite (tx_rows_no_line tx Hnone) in Hr.
    destruct Hr as [<- | []].
    unfold column; rewrite assoc_get_app_none by now apply hdr_lacks.
    now apply blank_line_blank.
Qed.

Lemma rows_simple_then_grouped :
  simple_then_grouped process tx_tag hdr simple grouped.
Proof.
  intros root.
  apply (flat_map_segmented (tx_rows hdr simple grouped));
    [apply process_rows |].
  intros tx; apply tx_rows_lines.
Qed.

(** The records made from the grouped line items close the run of their
    transaction, one per group, in the order of the groups. *)
Lemma rows_grouped :
  forall root,
    segmented (process root) (findall_descendants root tx_tag)
      (fun tx seg =>
         exists before after,
           seg = before ++ after
           /\ Forall2 grouped_record_of (grouped tx) after).
Proof.
  intros root.
  apply (flat_map_segmented (tx_rows hdr simple grouped));
    [apply process_rows |].
  intros tx; unfold tx_rows.
  destruct (is_empty (simple tx) && is_empty (grouped tx)) eqn:E.
  - exists [hdr tx ++ blank_line], []; split; [reflexivity |].
    apply andb_prop in E; destruct E as [_ E].
    destruct (grouped tx); [constructor | discriminate].
  - eexists; eexists; split; [reflexivity |].
    apply Forall2_map_right; intros g.
    unfold grouped_record_of, column.
    rewrite !assoc_get_app_none by (apply hdr_lacks; simpl; tauto).
    repeat split.
Qed.

End TxRows.

(** ** Header/line-item cardinality *)



(** ** Ordering *)

(** C2, as the code has it: the flattened sequence lists the records of the
    transactions one transaction after the other, in the document order of the
    transaction elements, and within each transaction the records of the
    simple line items come first, in their document order, followed by the
    records of the grouped line items, in their document order (the invoice
    flattener reads simple line items only). *)
Theorem flattener_order :
  simple_then_grouped QbSo.process_so_response "SalesOrderRet" so_header
    (fun so => findall so "SalesOrderLineRet")
    (fun so => findall so "SalesOrderLineGroupRet")
  /\ simple_then_grouped QbPo.process_po_response "PurchaseOrderRet" po_header
       (fun po => findall po "PurchaseOrderLineRet")
       (fun po => findall po "PurchaseOrderLineGroupRet")
  /\ simple_then_grouped QbInv.process_invoice_response "InvoiceRet"
       invoice_header
       (fun inv => findall inv "InvoiceLineRet") (fun _ => []).
Proof.
  split; [| split].
  - apply rows_simple_then_grouped, process_so_response_rows.
  - apply rows_simple_then_grouped, process_po_response_rows.
  - apply rows_simple_then_grouped, process_invoice_response_rows.
Qed.

(** C2 as stated fails: in a sales order whose grouped line item stands before
    its simple line item, the record of the simple item still comes first. *)
Lemma group_first_not_kept :
  map tag (line_item_elements "SalesOrderLineRet" "SalesOrderLineGroupRet"
             so_group_first)
  = ["SalesOrderLineGroupRet"; "SalesOrderLineRet"]
  /\ map (fun r => column r "Line Description")
       (QbSo.process_so_response
          (response_of "SalesOrderQueryRs" [so_group_first]))
     = [Some "Widget"; Some "Bundle"]
  /\ ~ document_order QbSo.process_so_response "SalesOrderRet" so_header
         "SalesOrderLineRet" "SalesOrderLineGroupRet".
Proof.
  repeat split; try reflexivity.
  intros H.
  specialize (H (response_of "SalesOrderQueryRs" [so_group_first])).
  change (findall_descendants _ "SalesOrderRet") with [so_group_first] in H.
  apply segmented_single in H.
  assert (Hne : line_item_elements "SalesOrderLineRet"
                  "SalesOrderLineGroupRet" so_group_first <> [])
    by (vm_compute; discriminate).
  specialize (H Hne).
  vm_compute in H; discriminate.
Qed.

(** ** Grouped line items *)

(** C7: in the output of the sales-order and purchase-order flatteners, the
    records made from the grouped line items of a transaction (one per
    [SalesOrderLineGroupRet] or [PurchaseOrderLineGroupRet], closing the run of
    the transaction) have an empty Rate, the group's [TotalAmount] as Amount
    and the [FullName] under the group's [ItemGroupRef] as item name. *)
Theorem grouped_line_records :
  (forall root,
      segmented (QbSo.process_so_response root)
        (findall_descendants root "SalesOrderRet")
        (fun so seg =>
           exists before after,
             seg = before ++ after
             /\ Forall2 grouped_record_of
                  (findall so "SalesOrderLineGroupRet") after))
  /\ (forall root,
         segmented (QbPo.process_po_response root)
           (findall_descendants root "PurchaseOrderRet")
           (fun po seg =>
              exists before after,
                seg = before ++ after
                /\ Forall2 grouped_record_of
                     (findall po "PurchaseOrderLineGroupRet") after)).
Proof.
  split.
  - apply (rows_grouped so_header
             (fun so => findall so "SalesOrderLineRet")
             (fun so => findall so "SalesOrderLineGroupRet"));
      auto using so_header_lacks, process_so_response_rows.
  - apply (rows_grouped po_header
             (fun po => findall po "PurchaseOrderLineRet")
             (fun po => findall po "PurchaseOrderLineGroupRet"));
      auto using po_header_lacks, process_po_response_rows.
Qed.

(** ** Strings *)

Lemma append_length (a b : string) :
  String.length (a ++ b) = String.length a + String.length b.
Proof. induction a as [| c a IH]; simpl; [reflexivity | now rewrite IH]. Qed.

Lemma append_assoc (a b c : string) :
  ((a ++ b) ++ c = a ++ (b ++ c))%string.
Proof. induction a as [| x a IH]; simpl; [reflexivity | now rewrite IH]. Qed.

Lemma truthy_nonempty (s : string) : truthy s = true <-> s <> EmptyString.
Proof. destruct s; simpl; split; congruence. Qed.

Lemma join_length (sep : string) (parts : list string) :
  String.length (join sep parts)
  = sum_lengths parts + String.length sep * (length parts - 1).
Proof.
  unfold sum_lengths.
  induction parts as [| x [| y parts] IH].
  - simpl; lia.
  - simpl; lia.
  - change (join sep (x :: y :: parts))
      with (x ++ sep ++ join sep (y :: parts))%string.
    rewrite !append_length, IH; simpl; lia.
Qed.

Lemma filter_map_swap {A B : Type} (p : B -> bool) (f : A -> B) (l : list A) :
  filter p (map f l) = map f (filter (fun x => p (f x)) l).
Proof.
  induction l as [| x l IH]; simpl; [reflexivity |].
  destruct (p (f x)); simpl; now rewrite IH.
Qed.

(** ** The address formatter *)

(** The loop of [parse_address] keeps the values that are not empty, in the
    order of the tags. *)
Lemma kept_parts (f : string -> string) (tags : list string)
  (acc : list string) :
  fold_left
    (fun parts t =>
       let text := f t in if truthy text then parts ++ [text] else parts)
    tags acc
  = acc ++ map f (filter (fun t => truthy (f t)) tags).
Proof.
  rewrite (fold_left_append _ (fun t => if truthy (f t) then [f t] else [])).
  - f_equal.
    induction tags as [| t tags IH]; simpl; [reflexivity |].
    destruct (truthy (f t)); simpl; now rewrite IH.
  - intros parts t; cbv zeta.
    destruct (truthy (f t)); [reflexivity | now rewrite app_nil_r].
Qed.

(** C5: an absent block gives the empty string, and for a block [e] whose
    non-blank canonical fields are [kept] (k of the nine tags, in canonical
    order) [parse_address] returns their k trimmed values joined by [", "]:
    every joined value is non-empty, so the separator stands k-1 times, only
    between two values.  In the model [parse_address] is a total function: it
    has no error outcome on any block. *)
Theorem parse_address_joins :
  parse_address None = EmptyString
  /\ forall e,
      let kept := filter (non_blank e) address_tags in
      let values := map (trimmed_field e) kept in
      parse_address (Some e) = join ", " values
      /\ length values = length kept
      /\ length kept <= 9
      /\ Forall (fun v => v <> EmptyString) values
      /\ String.length (parse_address (Some e))
         = sum_lengths values + 2 * (length values - 1).
Proof.
  split; [reflexivity |].
  intros e kept values.
  assert (Hjoin : parse_address (Some e) = join ", " values).
  { unfold parse_address.
    now rewrite (kept_parts (fun t => strip (findtext e t EmptyString))). }
  split; [exact Hjoin | split; [apply length_map | split; [| split]]].
  - apply (filter_length_le (non_blank e) address_tags).
  - apply Forall_forall; intros v Hv.
    apply in_map_iff in Hv; destruct Hv as (t & <- & Ht).
    apply filter_In in Ht; destruct Ht as [_ Ht].
    now apply truthy_nonempty.
  - now rewrite Hjoin, join_length.
Qed.

(** ** Ship-to extraction *)

Lemma flat_map_pairs {A B C : Type} (inner : A -> list B)
  (rows : A * B -> list C) (l : list A) :
  flat_map rows (flat_map (fun a => map (pair a) (inner a)) l)
  = flat_map (fun a => flat_map (fun b => rows (a, b)) (inner a)) l.
Proof.
  induction l as [| a l IH]; simpl; [reflexivity |].
  rewrite flat_map_app, IH; f_equal.
  induction (inner a) as [| b bs IHb]; simpl; [reflexivity | now rewrite IHb].
Qed.

(** The record [qb_shipto.py] builds for a block, kept or not. *)
Lemma shipto_record_fields (cust st : Element) :
  shipto_record_of cust st
    [("Customer", trimmed_field cust "FullName");
     ("ShipToName", trimmed_field st "Name");
     ("Addr1", trimmed_field st "Addr1");
     ("Addr2", trimmed_field st "Addr2");
     ("Addr3", trimmed_field st "Addr3");
     ("Addr4", trimmed_field st "Addr4");
     ("Addr5", trimmed_field st "Addr5");
     ("City", trimmed_field st "City");
     ("State", trimmed_field st "State");
     ("PostalCode", trimmed_field st "PostalCode");
     ("Country", trimmed_field st "Country");
     ("Note", trimmed_field st "Note");
     ("DefaultShipTo", trimmed_field st "DefaultShipTo")].
Proof.
  repeat split.
  intros t Ht; each_column Ht; reflexivity.
Qed.

(** C6: [parse_shipto] of [qb_shipto.py] goes through the ship-to blocks of
    the response in document order; a block yields a record, its own, exactly
    when one of its label ([Name], exported as [ShipToName]), [Addr1] and
    [City] is non-blank after trimming, and yields nothing when all three are
    blank, whatever its other fields hold. *)
Theorem shipto_filter :
  forall root,
    segmented (QbShipto.parse_shipto root) (shipto_blocks root)
      (fun block seg =>
         if labelled_or_located (snd block)
         then exists r, seg = [r] /\ shipto_record_of (fst block) (snd block) r
         else seg = []).
Proof.
  intros root.
  apply (flat_map_segmented
           (fun block : Element * Element =>
              if labelled_or_located (snd block)
              then [[("Customer", trimmed_field (fst block) "FullName");
                     ("ShipToName", trimmed_field (snd block) "Name");
                     ("Addr1", trimmed_field (snd block) "Addr1");
                     ("Addr2", trimmed_field (snd block) "Addr2");
                     ("Addr3", trimmed_field (snd block) "Addr3");
                     ("Addr4", trimmed_field (snd block) "Addr4");
                     ("Addr5", trimmed_field (snd block) "Addr5");
                     ("City", trimmed_field (snd block) "City");
                     ("State", trimmed_field (snd block) "State");
                     ("PostalCode", trimmed_field (snd block) "PostalCode");
                     ("Country", trimmed_field (snd block) "Country");
                     ("Note", trimmed_field (snd block) "Note");
                     ("DefaultShipTo",
                       trimmed_field (snd block) "DefaultShipTo")]]
              else [])).
  - unfold QbShipto.parse_shipto, shipto_blocks.
    rewrite flat_map_pairs.
    erewrite fold_left_append; [reflexivity |].
    intros records cust; cbv zeta.
    erewrite fold_left_append; [reflexivity |].
    intros records' st; cbn [fst snd].
    unfold labelled_or_located, non_blank, trimmed_field.
    cbn [existsb QbShipto.item column assoc_get String.eqb Ascii.eqb
           Bool.eqb].
    rewrite orb_false_r, orb_assoc.
    match goal with
    | |- (if ?kept then _ else _) = _ =>
        destruct kept; [reflexivity | symmetry; apply app_nil_r]
    end.
  - intros [cust st]; cbn [fst snd].
    destruct (labelled_or_located st); [| reflexivity].
    eexists; split; [reflexivity | apply shipto_record_fields].
Qed.

(** C10: [parse_shipto] of [qbinv_all.py] has no filter.  Customer by customer
    in document order: a customer without [ShipToAddressList] yields no
    record; otherwise every [ShipToAddress] child of the list yields exactly
    one record, the customer's trimmed name with the block's entry.  The entry
    is the block's non-blank values among [Addr1], [Addr2], [City], [State],
    [PostalCode], [Country] joined by [", "], after the label and [": "]
    when the label is non-blank; it depends on no other field, and it is the
    empty string for a block whose label and six fields are all blank. *)
Theorem shipto_list_entries :
  (forall root,
      segmented (QbInvAll.parse_shipto root)
        (findall_descendants root "CustomerRet")
        (fun cust seg =>
           match find cust "ShipToAddressList" with
           | None => seg = []
           | Some st_list =>
               seg = map (fun st =>
                            (trimmed_field cust "FullName", labelled_entry st))
                       (findall st_list "ShipToAddress")
           end))
  /\ (forall st st',
         (forall t,
             In t ["Name"; "Addr1"; "Addr2"; "City"; "State"; "PostalCode";
                   "Country"] ->
             trimmed_field st t = trimmed_field st' t) ->
         labelled_entry st = labelled_entry st')
  /\ (forall st,
         (forall t,
             In t ["Name"; "Addr1"; "Addr2"; "City"; "State"; "PostalCode";
                   "Country"] ->
             non_blank st t = false) ->
         labelled_entry st = EmptyString).
Proof.
  split; [| split].
  - intros root.
    apply (flat_map_segmented
             (fun cust =>
                match find cust "ShipToAddressList" with
                | None => []
                | Some st_list =>
                    map (fun st =>
                           (trimmed_field cust "FullName", labelled_entry st))
                      (findall st_list "ShipToAddress")
                end)).
    + unfold QbInvAll.parse_shipto.
      erewrite fold_left_append; [reflexivity |].
      intros records cust; cbv beta zeta.
      destruct (find cust "ShipToAddressList") as [st_list |];
        [| symmetry; apply app_nil_r].
      rewrite (fold_left_append _
                 (fun st =>
                    [(trimmed_field cust "FullName", labelled_entry st)]));
        [rewrite flat_map_singleton; reflexivity |].
      intros records' st; cbv beta.
      unfold labelled_entry, six_field_address, non_blank, trimmed_field,
        QbInvAll.shipto_tags.
      rewrite filter_map_swap; reflexivity.
    + intros cust; destruct (find cust "ShipToAddressList"); reflexivity.
  - intros st st' H.
    unfold labelled_entry, six_field_address, non_blank.
    cbn [filter].
    rewrite !(H "Name"), !(H "Addr1"), !(H "Addr2"), !(H "City"),
      !(H "State"), !(H "PostalCode"), !(H "Country") by (simpl; tauto).
    destruct (truthy (trimmed_field st' "Name"));
      destruct (truthy (trimmed_field st' "Addr1"));
      destruct (truthy (trimmed_field st' "Addr2"));
      destruct (truthy (trimmed_field st' "City"));
      destruct (truthy (trimmed_field st' "State"));
      destruct (truthy (trimmed_field st' "PostalCode"));
      destruct (truthy (trimmed_field st' "Country"));
      cbn [map];
      rewrite ?(H "Name"), ?(H "Addr1"), ?(H "Addr2"), ?(H "City"),
        ?(H "State"), ?(H "PostalCode"), ?(H "Country") by (simpl; tauto);
      reflexivity.
  - intros st H.
    unfold labelled_entry, six_field_address.
    cbn [filter].
    rewrite !(H "Name"), !(H "Addr1"), !(H "Addr2"), !(H "City"),
      !(H "State"), !(H "PostalCode"), !(H "Country") by (simpl; tauto).
    reflexivity.
Qed.

(** ** The batch loop *)

Lemma decimal_zero_not_positive (c : string) (n : nat) :
  decimal_value c = Some n -> 0 < n -> (c =? "0")%string = false.
Proof.
  intros Hc Hn.
  apply String.eqb_neq; intros ->.
  vm_compute in Hc; injection Hc as <-; lia.
Qed.

(** What a response that reports more records looks like to the loop. *)
Lemma reports_more_inv (r : Element) :
  reports_more r = true ->
  exists rs remaining,
    find_descendant r "CustomerQueryRs" = Some rs
    /\ get rs "iteratorRemainingCount" = Some remaining
    /\ (remaining =? "0")%string = false
    /\ cursor_token r = get rs "iteratorID".
Proof.
  unfold reports_more, remaining_count, cursor_token, wrapper_attribute.
  destruct (find_descendant r "CustomerQueryRs") as [rs |]; [| discriminate].
  destruct (get rs "iteratorRemainingCount") as [c |] eqn:Hget;
    [| discriminate].
  destruct (decimal_value c) as [n |] eqn:Hc; [| discriminate].
  intros Hn; apply Nat.ltb_lt in Hn.
  exists rs, c.
  split; [reflexivity | split; [exact Hget | split; [| reflexivity]]].
  now apply (decimal_zero_not_positive c n).
Qed.

Section Run.

Variable Session : Type.
Variable ProcessRequest : Session -> string -> option Element * Session.
Variable Row : Type.
Variable build_request : string -> option string -> string.
Variable parse : Element -> list Row.

(** Against a channel that reports more records [length more] times and then
    none, the loop started with enough fuel leaves through [break]: it has
    issued one request per response, the first with the token it started
    from and each later one with the token read from the response before it,
    and it has gathered the records of every response, in order. *)
Lemma batch_loop_run (more : list Element) (last : Element) :
  Forall (fun r => reports_more r = true) more ->
  reports_done last = true ->
  forall fuel s iterator_id acc sent,
    answers ProcessRequest s (more ++ [last]) ->
    length more < fuel ->
    exists s',
      batch_loop ProcessRequest build_request parse fuel s iterator_id acc sent
      = Finished
          (mkBatches
             (acc ++ flat_map parse (more ++ [last]))
             (sent
              ++ build_request (mode_for iterator_id) iterator_id
              :: map (fun r =>
                        build_request (mode_for (cursor_token r))
                          (cursor_token r))
                   more)
             s').
Proof.
  intros Hmore Hlast.
  induction Hmore as [| r more Hr _ IH];
    intros fuel s iterator_id acc sent Hans Hfuel;
    (destruct fuel as [| fuel]; [simpl in Hfuel; lia |]).
  - specialize
      (Hans (build_request (mode_for iterator_id) iterator_id)).
    destruct Hans as [Hans _].
    cbn [app batch_loop flat_map map]; fold (mode_for iterator_id).
    destruct (ProcessRequest s _) as [response s'];
      cbn [fst] in Hans; subst response.
    exists s'; rewrite app_nil_r.
    unfold reports_done, remaining_count, wrapper_attribute in Hlast.
    destruct (find_descendant last "CustomerQueryRs") as [rs |];
      [| reflexivity].
    destruct (get rs "iteratorRemainingCount") as [c |]; [| reflexivity].
    now rewrite Hlast.
  - specialize
      (Hans (build_request (mode_for iterator_id) iterator_id)).
    destruct Hans as [Hans Hrest].
    cbn [app batch_loop flat_map map]; fold (mode_for iterator_id).
    destruct (ProcessRequest s _) as [response s'];
      cbn [fst snd] in Hans, Hrest; subst response.
    destruct (reports_more_inv r Hr) as (rs & c & -> & -> & -> & Htoken).
    destruct (IH fuel s' (get rs "iteratorID")
                (acc ++ parse r)
                (sent ++ [build_request (mode_for iterator_id) iterator_id])
                Hrest) as [s'' ->]; [simpl in Hfuel; lia |].
    exists s''; rewrite Htoken, <- !app_assoc; reflexivity.
Qed.

End Run.

(** ** Pagination *)

(** C3: against a channel whose responses report a positive remaining count
    for the first n batches ([more]) and then none or [0] ([last]), the loop
    of both customer exporters, given more than n units of fuel, issues
    exactly n+1 requests and leaves through [break]; its records are those of
    the batches one after the other, so their number is the sum of the
    per-batch numbers; and the request after each batch but the last is built
    from the [iteratorID] read in that batch's response. *)
Theorem pagination_terminates :
  forall (Session : Type)
    (ProcessRequest : Session -> string -> option Element * Session)
    (s : Session) (more : list Element) (last : Element) (fuel : nat),
    answers ProcessRequest s (more ++ [last]) ->
    Forall (fun r => reports_more r = true) more ->
    reports_done last = true ->
    length more < fuel ->
    drained (QbShipto.main_loop ProcessRequest fuel s)
      QbShipto.build_qbxml_customers_request QbShipto.parse_shipto more last
    /\ drained (QbInvAll.main_loop ProcessRequest fuel s)
         QbInvAll.build_qbxml_customers_request QbInvAll.parse_shipto
         more last.
Proof.
  intros Session ProcessRequest s more last fuel Hans Hmore Hlast Hfuel.
  split.
  - destruct (batch_loop_run Session ProcessRequest record
                QbShipto.build_qbxml_customers_request QbShipto.parse_shipto
                more last Hmore Hlast fuel s None [] [] Hans Hfuel)
      as [s' Hrun].
    eexists; split; [exact Hrun |].
    cbn [requests all_records app mode_for].
    rewrite length_flat_map; cbn [length]; rewrite length_map.
    repeat split; lia.
  - destruct (batch_loop_run Session ProcessRequest (string * string)
                QbInvAll.build_qbxml_customers_request QbInvAll.parse_shipto
                more last Hmore Hlast fuel s None [] [] Hans Hfuel)
      as [s' Hrun].
    eexists; split; [exact Hrun |].
    cbn [requests all_records app mode_for].
    rewrite length_flat_map; cbn [length]; rewrite length_map.
    repeat split; lia.
Qed.

(** The loop over a script of three batches: three requests, then [break]. *)
Lemma pagination_terminates_three_batches :
  drained (QbShipto.main_loop scripted 3 (two_more ++ [final_batch]))
    QbShipto.build_qbxml_customers_request QbShipto.parse_shipto
    two_more final_batch
  /\ drained (QbInvAll.main_loop scripted 3 (two_more ++ [final_batch]))
       QbInvAll.build_qbxml_customers_request QbInvAll.parse_shipto
       two_more final_batch.
Proof.
  apply (pagination_terminates (list Element) scripted
           (two_more ++ [final_batch]) two_more final_batch 3).
  - simpl; repeat (intros _; split; [reflexivity |]); exact I.
  - repeat constructor.
  - reflexivity.
  - simpl; lia.
Defined.

(** ** The cursor protocol *)

Lemma start_request_text :
  QbShipto.build_qbxml_customers_request "Start" None
  = customer_query start_attrs.
Proof. reflexivity. Qed.

Lemma continue_request_text (r : Element) :
  has_token r = true ->
  QbShipto.build_qbxml_customers_request (mode_for (cursor_token r))
    (cursor_token r)
  = customer_query (continue_attrs (token_of r)).
Proof.
  unfold has_token, token_of.
  destruct (cursor_token r) as [[| c token] |]; try discriminate.
  reflexivity.
Qed.

Lemma continue_request_list (r : Element) :
  has_token r = true ->
  QbInvAll.build_qbxml_customers_request (mode_for (cursor_token r))
    (cursor_token r)
  = QbInvAll.build_qbxml_customers_request "Continue" (Some (token_of r)).
Proof.
  unfold has_token, token_of.
  destruct (cursor_token r) as [token |]; [reflexivity | discriminate].
Qed.

(** Every customer query caps the batch at 100 records. *)
Lemma customer_query_cap (attrs : string) :
  exists head tail : string,
    customer_query attrs
    = (head ++ "<MaxReturned>100</MaxReturned>" ++ tail)%string.
Proof.
  exists ("<?xml version=" ++ q "1.0" ++ " encoding=" ++ q "utf-8" ++ "?>"
          ++ nl ++ "<?qbxml version=" ++ q "16.0" ++ "?>" ++ nl
          ++ "<QBXML>" ++ nl
          ++ "  <QBXMLMsgsRq onError=" ++ q "continueOnError" ++ ">" ++ nl
          ++ "    <CustomerQueryRq requestID=" ++ q "1"
          ++ attrs ++ ">" ++ nl ++ "      ")%string.
  exists (nl ++ "    </CustomerQueryRq>" ++ nl ++ "  </QBXMLMsgsRq>" ++ nl
          ++ "</QBXML>")%string.
  unfold customer_query.
  rewrite !append_assoc; reflexivity.
Qed.



(** Why the token is asked for: a response that reports more records without
    an [iteratorID] sends the loop back to a start request. *)
Lemma restart_without_token :
  reports_more batch_without_token = true
  /\ has_token batch_without_token = false
  /\ exists b,
      QbShipto.main_loop scripted 2 [batch_without_token; final_batch]
      = Finished b
      /\ requests b
         = [customer_query start_attrs; customer_query start_attrs].
Proof.
  split; [reflexivity | split; [reflexivity |]].
  eexists; split; reflexivity.
Qed.

(** ** Searching a text *)

Lemma startswith_app (sub s : string) : startswith sub (sub ++ s) = true.
Proof.
  induction sub as [| a sub IH]; simpl; [reflexivity |].
  now rewrite Ascii.eqb_refl, IH.
Qed.

Lemma startswith_agree (sub u s : string) :
  startswith sub (u ++ s) = true -> agree sub u = true.
Proof.
  revert u; induction sub as [| a sub IH]; intros [| b u]; simpl;
    try reflexivity.
  intros H; apply andb_prop in H; destruct H as [-> H].
  now apply IH.
Qed.

(** A prefix in which [sub] cannot begin only shifts the occurrences. *)
Lemma str_find_skip (sub pre s : string) (j : nat) :
  clear_of sub pre = true ->
  str_find sub s = Some j ->
  str_find sub (pre ++ s) = Some (String.length pre + j).
Proof.
  intros Hclear Hj.
  induction pre as [| c pre IH]; [exact Hj |].
  cbn [clear_of] in Hclear.
  apply andb_prop in Hclear; destruct Hclear as [Hhere Hclear].
  cbn [append str_find String.length].
  destruct (startswith sub (String c (pre ++ s))) eqn:E.
  - apply (startswith_agree sub (String c pre) s) in E.
    now rewrite E in Hhere.
  - now rewrite (IH Hclear).
Qed.

Lemma str_find_unfold (sub s : string) :
  str_find sub s
  = if startswith sub s then Some 0
    else match s with
         | EmptyString => None
         | String _ s' => option_map S (str_find sub s')
         end.
Proof. destruct s; reflexivity. Qed.

Lemma str_find_here (sub s : string) : str_find sub (sub ++ s) = Some 0.
Proof. now rewrite str_find_unfold, startswith_app. Qed.

(** A text in which [sub] occurs has a first occurrence. *)
Lemma str_find_occurs (sub a b : string) :
  exists j, str_find sub (a ++ sub ++ b) = Some j.
Proof.
  induction a as [| c a [j IH]].
  - exists 0; exact (str_find_here sub b).
  - rewrite str_find_unfold; cbn [append]; rewrite IH.
    destruct (startswith sub _); cbn [option_map]; eauto.
Qed.

(** ** Date-range requests *)

Ltac date_range head tail :=
  exists head, (nl ++ "      ")%string, tail;
  intros today year; split; [reflexivity |];
  let a :=
    constr:(((year ++ "-01-01") ++ "</FromTxnDate>" ++ nl
             ++ "        <ToTxnDate>" ++ isoformat today ++ "</ToTxnDate>"
             ++ nl ++ "      </TxnDateRangeFilter>" ++ nl
             ++ "      ")%string) in
  let b := constr:(("1</IncludeLineItems>" ++ tail)%string) in
  let pre :=
    constr:((head ++ "<TxnDateRangeFilter>" ++ nl
             ++ "        <FromTxnDate>")%string) in
  destruct (str_find_occurs "<IncludeLineItems>" a b) as [j Hj];
  exists (String.length head), (String.length pre + j);
  split; [| split];
  [ apply (str_find_skip "<TxnDateRangeFilter>" head _ 0);
    [vm_compute; reflexivity
    | exact (str_find_here "<TxnDateRangeFilter>" _)]
  | transitivity
      (str_find "<IncludeLineItems>"
         (pre ++ a ++ "<IncludeLineItems>" ++ b));
    [ f_equal; rewrite (append_assoc (year ++ "-01-01")); reflexivity
    | apply str_find_skip; [vm_compute; reflexivity | exact Hj] ]
  | apply Nat.lt_lt_add_r, Nat.ltb_lt; vm_compute; reflexivity ].

Lemma invoice_year_request :
  date_range_document QbInv.build_qbxml_year_invoices_request.
Proof.
  date_range
    ("<?xml version=" ++ q "1.0" ++ " encoding=" ++ q "utf-8" ++ "?>" ++ nl
     ++ "<?qbxml version=" ++ q "16.0" ++ "?>" ++ nl
     ++ "<QBXML>" ++ nl
     ++ "  <QBXMLMsgsRq onError=" ++ q "continueOnError" ++ ">" ++ nl
     ++ "    <InvoiceQueryRq requestID=" ++ q "1" ++ ">" ++ nl
     ++ "      ")%string
    (nl ++ "    </InvoiceQueryRq>" ++ nl ++ "  </QBXMLMsgsRq>" ++ nl
     ++ "</QBXML>")%string.
Qed.

Lemma so_year_request :
  date_range_document QbSo.build_qbxml_year_so_request.
Proof.
  date_range
    ("<?xml version=" ++ q "1.0" ++ " encoding=" ++ q "utf-8" ++ "?>" ++ nl
     ++ "<?qbxml version=" ++ q "16.0" ++ "?>" ++ nl
     ++ "<QBXML>" ++ nl
     ++ "  <QBXMLMsgsRq onError=" ++ q "continueOnError" ++ ">" ++ nl
     ++ "    <SalesOrderQueryRq requestID=" ++ q "1" ++ ">" ++ nl
     ++ "      ")%string
    (nl ++ "    </SalesOrderQueryRq>" ++ nl ++ "  </QBXMLMsgsRq>" ++ nl
     ++ "</QBXML>")%string.
Qed.

Lemma po_year_request :
  date_range_document QbPo.build_qbxml_year_po_request.
Proof.
  date_range
    ("<?xml version=" ++ q "1.0" ++ " encoding=" ++ q "utf-8" ++ "?>" ++ nl
     ++ "<?qbxml version=" ++ q "16.0" ++ "?>" ++ nl
     ++ "<QBXML>" ++ nl
     ++ "  <QBXMLMsgsRq onError=" ++ q "continueOnError" ++ ">" ++ nl
     ++ "    <PurchaseOrderQueryRq requestID=" ++ q "1" ++ ">" ++ nl
     ++ "      ")%string
    (nl ++ "    </PurchaseOrderQueryRq>" ++ nl ++ "  </QBXMLMsgsRq>" ++ nl
     ++ "</QBXML>")%string.
Qed.

(** The ISO form of a date reads back as the date. *)
Lemma digit_value_digit (n : nat) : digit_value (digit n) = Some (n mod 10).
Proof.
  unfold digit_value, digit.
  assert (H : n mod 10 < 10) by (apply Nat.mod_upper_bound; lia).
  rewrite nat_ascii_embedding by lia.
  replace (48 <=? 48 + n mod 10)%nat with true
    by (symmetry; apply Nat.leb_le; lia).
  replace (48 + n mod 10 <=? 57)%nat with true
    by (symmetry; apply Nat.leb_le; lia).
  cbn [andb]; f_equal; lia.
Qed.

Lemma decimal_value_from_app (a b : string) (acc : nat) :
  decimal_value_from acc (a ++ b)
  = match decimal_value_from acc a with
    | Some v => decimal_value_from v b
    | None => None
    end.
Proof.
  revert acc; induction a as [| c a IH]; intros acc; cbn [append
    decimal_value_from]; [reflexivity |].
  destruct (digit_value c); [apply IH | reflexivity].
Qed.

Lemma zero_padded_value (width n acc : nat) :
  decimal_value_from acc (zero_padded width n)
  = Some (acc * 10 ^ width + n mod 10 ^ width).
Proof.
  revert n acc; induction width as [| w IH]; intros n acc.
  - cbn [zero_padded decimal_value_from Nat.pow].
    rewrite Nat.mod_1_r; f_equal; lia.
  - cbn [zero_padded]; rewrite decimal_value_from_app, IH.
    cbn [decimal_value_from]; rewrite digit_value_digit; f_equal.
    rewrite Nat.pow_succ_r', (Nat.Div0.mod_mul_r n 10 (10 ^ w)); lia.
Qed.

Lemma isoformat_reads_back (d : date) :
  exists y m dd : string,
    isoformat d = (y ++ "-" ++ m ++ "-" ++ dd)%string
    /\ String.length y = 4 /\ String.length m = 2 /\ String.length dd = 2
    /\ decimal_value_from 0 y = Some (year d mod 10 ^ 4)
    /\ decimal_value_from 0 m = Some (month d mod 10 ^ 2)
    /\ decimal_value_from 0 dd = Some (day d mod 10 ^ 2).
Proof.
  exists (zero_padded 4 (year d)), (zero_padded 2 (month d)),
    (zero_padded 2 (day d)).
  split; [reflexivity |].
  repeat split; try reflexivity; apply zero_padded_value.
Qed.

(** C4: for every year [year] and every processing day [today], each of the
    three date-range builders returns a document whose range filter holds the
    from-date [year-01-01] and the to-date [isoformat today], and in which the
    range filter stands before the line-item directive: the filter element is
    followed by the directive in the template, and the first
    [<TxnDateRangeFilter>] of the text comes before its first
    [<IncludeLineItems>]. *)
Theorem year_requests_date_range :
  date_range_document QbInv.build_qbxml_year_invoices_request
  /\ date_range_document QbSo.build_qbxml_year_so_request
  /\ date_range_document QbPo.build_qbxml_year_po_request.
Proof.
  split; [| split].
  - exact invoice_year_request.
  - exact so_year_request.
  - exact po_year_request.
Qed.

(** ** Single-identifier requests *)

Ltac verbatim head tail :=
  exists head, tail; intros s; reflexivity.

(** C9: each single-identifier builder returns one fixed text around the
    identifier, which stands between the reference-number tags exactly as it
    was given, no character escaped; so a plain identifier gives a well-formed
    document, and there are identifiers, one with [<] and one with [&], for
    which the document of each builder is not well-formed XML. *)
Theorem identifier_verbatim :
  Forall verbatim_identifier identifier_builders
  /\ Forall (fun build => well_formed (build "1001") = true)
       identifier_builders
  /\ (exists s,
         str_find "<" s = Some 1
         /\ Forall (fun build => well_formed (build s) = false)
              identifier_builders)
  /\ (exists s,
         str_find "&" s = Some 1
         /\ Forall (fun build => well_formed (build s) = false)
              identifier_builders).
Proof.
  split; [| split; [| split]].
  - repeat constructor.
    + verbatim
        ("<?xml version=" ++ q "1.0" ++ " encoding=" ++ q "utf-8" ++ "?>"
         ++ nl ++ "<?qbxml version=" ++ q "16.0" ++ "?>" ++ nl
         ++ "<QBXML>" ++ nl
         ++ "  <QBXMLMsgsRq onError=" ++ q "continueOnError" ++ ">" ++ nl
         ++ "    <InvoiceQueryRq requestID=" ++ q "1" ++ ">" ++ nl
         ++ "      ")%string
        (nl ++ "      <IncludeLineItems>1</IncludeLineItems>" ++ nl
         ++ "    </InvoiceQueryRq>" ++ nl ++ "  </QBXMLMsgsRq>" ++ nl
         ++ "</QBXML>")%string.
    + verbatim
        ("<?xml version=" ++ q "1.0" ++ " encoding=" ++ q "utf-8" ++ "?>"
         ++ nl ++ "<?qbxml version=" ++ q "16.0" ++ "?>" ++ nl
         ++ "<QBXML>" ++ nl
         ++ "  <QBXMLMsgsRq onError=" ++ q "continueOnError" ++ ">" ++ nl
         ++ "    <SalesOrderQueryRq requestID=" ++ q "1" ++ ">" ++ nl
         ++ "      ")%string
        (nl ++ "      <IncludeLineItems>1</IncludeLineItems>" ++ nl
         ++ "    </SalesOrderQueryRq>" ++ nl ++ "  </QBXMLMsgsRq>" ++ nl
         ++ "</QBXML>")%string.
    + verbatim
        ("<?xml version=" ++ q "1.0" ++ " encoding=" ++ q "utf-8" ++ "?>"
         ++ nl ++ "<?qbxml version=" ++ q "16.0" ++ "?>" ++ nl
         ++ "<QBXML>" ++ nl
         ++ "  <QBXMLMsgsRq onError=" ++ q "continueOnError" ++ ">" ++ nl
         ++ "    <PurchaseOrderQueryRq requestID=" ++ q "1" ++ ">" ++ nl
         ++ "      ")%string
        (nl ++ "      <IncludeLineItems>1</IncludeLineItems>" ++ nl
         ++ "    </PurchaseOrderQueryRq>" ++ nl ++ "  </QBXMLMsgsRq>" ++ nl
         ++ "</QBXML>")%string.
  - repeat constructor.
  - exists "A<B"; split; [reflexivity | repeat constructor].
  - exists "A&B"; split; [reflexivity | repeat constructor].
Qed.

(** ** The model at work *)

Example strip_sample : strip "  a b  " = "a b".
Proof. reflexivity. Qed.

Example isoformat_sample : isoformat (mkDate 2024 2 29) = "2024-02-29".
Proof. reflexivity. Qed.

Example parse_address_sample :
  parse_address (Some sample_address) = "12 High St, Leeds, UK".
Proof. reflexivity. Qed.

(** The block of the second batch that holds a note and the default flag only
    is dropped; the block with [Addr1] is kept. *)
Example note_only_block_dropped :
  map (fun r => (column r "Customer", column r "Addr1", column r "Note"))
    (flat_map QbShipto.parse_shipto two_more)
  = [(Some "Ann", Some "1 Quay", Some EmptyString);
     (Some "Bob", Some "9 Mill Lane", Some EmptyString)].
Proof. reflexivity. Qed.

(** The list-based extractor keeps the blank block and never reads [Addr3]. *)
Example listed_customer_entries :
  QbInvAll.parse_shipto (response_of "CustomerQueryRs" [listed_customer])
  = [("Dee", "Yard: 2 Dock Rd, Hull, UK"); ("Dee", EmptyString);
     ("Dee", EmptyString)].
Proof. reflexivity. Qed.

(** The scanner on small documents. *)
Example well_formed_accepts :
  forallb well_formed
    ["<a/>"; "<a>text</a>"; "<?xml version='1.0'?><a><b/>&amp;&#38;</a> ";
     "<a x='1' y = '2'><!-- c --><b></b><![CDATA[ <&> ]]></a>"]
  = true.
Proof. reflexivity. Qed.

Example well_formed_rejects :
  existsb well_formed
    [EmptyString; "text"; "<a>"; "<a></b>"; "<a/><b/>"; "<a b=c/>";
     "<a>&</a>"; "<a>&amp</a>"; "<a><</a>"; "<a x='<'/>"; "<a><b></a></b>"]
  = false.
Proof. reflexivity. Qed.

(** A run that outlives its channel: [main] of [qb_shipto.py] still reports
    the records gathered so far, [main] of [qbinv_all.py] exports nothing. *)
Example channel_failure :
  option_map (@length record) (QbShipto.main scripted 5 two_more) = Some 2
  /\ QbInvAll.main scripted 5 two_more = None.
Proof. split; reflexivity. Qed.

(** * More of the scripts *)

(** ** Records and schemas *)

Lemma tx_rows_keys (hdr : Element -> record)
  (simple grouped : Element -> list Element) (header_keys : list string) :
  (forall tx, map fst (hdr tx) = header_keys) ->
  forall tx r,
    In r (tx_rows hdr simple grouped tx) ->
    map fst r = header_keys ++ line_columns.
Proof.
  intros Hkeys tx r; unfold tx_rows.
  destruct (is_empty (simple tx) && is_empty (grouped tx)).
  - intros [<- | []]; now rewrite map_app, Hkeys.
  - rewrite in_app_iff, !in_map_iff.
    intros [(li & <- & _) | (g & <- & _)]; now rewrite map_app, Hkeys.
Qed.

Lemma flat_map_Forall {A B : Type} (P : B -> Prop) (f : A -> list B)
  (l : list A) :
  (forall x y, In y (f x) -> P y) -> Forall P (flat_map f l).
Proof.
  intros H; apply Forall_forall; intros y Hy.
  apply in_flat_map in Hy; destruct Hy as (x & _ & Hy); eauto.
Qed.

(** X1: Every record a flattener returns has exactly the keys of its script's
    column schema, in the order of the schema. *)
Theorem records_match_schema :
  (forall root,
      Forall (fun r => map fst r = QbInv.fieldnames)
        (QbInv.process_invoice_response root))
  /\ (forall root,
         Forall (fun r => map fst r = QbSo.fieldnames)
           (QbSo.process_so_response root))
  /\ (forall root,
         Forall (fun r => map fst r = QbPo.fieldnames)
           (QbPo.process_po_response root)).
Proof.
  split; [| split]; intros root.
  - rewrite process_invoice_response_rows.
    apply flat_map_Forall; intros tx r Hr.
    now apply (tx_rows_keys invoice_header _ _ invoice_header_columns) in Hr.
  - rewrite process_so_response_rows.
    apply flat_map_Forall; intros tx r Hr.
    now apply (tx_rows_keys so_header _ _ so_header_columns) in Hr.
  - rewrite process_po_response_rows.
    apply flat_map_Forall; intros tx r Hr.
    now apply (tx_rows_keys po_header _ _ po_header_columns) in Hr.
Qed.

(** ** Writing the records *)

Lemma append_nil_r (s : string) : (s ++ EmptyString)%string = s.
Proof. induction s as [| c s IH]; simpl; [reflexivity | now rewrite IH]. Qed.

Lemma csv_rows_cons (row : list string) (rows : list (list string)) :
  csv_rows (row :: rows) = (writerow row ++ csv_rows rows)%string.
Proof.
  unfold csv_rows; destruct rows as [| row' rows]; cbn [map String.concat].
  - now rewrite append_nil_r.
  - reflexivity.
Qed.

(** Looking up the keys of a record, one after the other, gives its values. *)
Lemma lookup_own_keys (r : record) :
  NoDup (map fst r) ->
  map (fun key =>
         match assoc_get key r with
         | Some v => v
         | None => EmptyString
         end)
    (map fst r)
  = map snd r.
Proof.
  induction r as [| [k v] r IH]; [reflexivity |].
  cbn [map fst snd assoc_get]; intros Hnd.
  apply NoDup_cons_iff in Hnd; destruct Hnd as [Hk Hnd].
  rewrite String.eqb_refl; f_equal.
  rewrite <- (IH Hnd).
  apply map_ext_in; intros key Hkey.
  destruct (String.eqb_spec k key) as [-> | _]; [contradiction | reflexivity].
Qed.

Lemma no_extra_key (fieldnames : list string) :
  existsb (fun k => negb (existsb (String.eqb k) fieldnames)) fieldnames
  = false.
Proof.
  apply not_true_is_false; intros H.
  apply existsb_exists in H; destruct H as (k & Hk & Hneg).
  apply negb_true_iff in Hneg.
  assert (Hin : existsb (String.eqb k) fieldnames = true)
    by (apply existsb_exists; exists k; split; [exact Hk |];
        apply String.eqb_refl).
  congruence.
Qed.

(** A record with exactly the keys of the schema is written whole, each
    value under its column, whether extra keys raise or not. *)
Lemma dict_to_list_conforming (fieldnames : list string) (raising : bool)
  (r : record) :
  NoDup fieldnames ->
  map fst r = fieldnames ->
  dict_to_list fieldnames raising r = Some (map snd r).
Proof.
  intros Hnd <-; unfold dict_to_list.
  rewrite no_extra_key, andb_false_r.
  now rewrite lookup_own_keys.
Qed.

Lemma dict_writerows_conforming (fieldnames : list string) (raising : bool)
  (data : list record) :
  NoDup fieldnames ->
  Forall (fun r => map fst r = fieldnames) data ->
  dict_writerows fieldnames raising data
  = mkWritten (csv_rows (map (map snd) data)) true.
Proof.
  intros Hnd Hdata.
  induction Hdata as [| r data Hr _ IH]; [reflexivity |].
  cbn [dict_writerows map].
  now rewrite (dict_to_list_conforming _ _ _ Hnd Hr), IH, csv_rows_cons.
Qed.

Ltac distinct_strings :=
  match goal with
  | |- NoDup ?l =>
      change l with (nodup string_dec l); apply NoDup_nodup
  end.

Lemma invoice_fieldnames_distinct : NoDup QbInv.fieldnames.
Proof. distinct_strings. Qed.

Lemma so_fieldnames_distinct : NoDup QbSo.fieldnames.
Proof. distinct_strings. Qed.

Lemma po_fieldnames_distinct : NoDup QbPo.fieldnames.
Proof. distinct_strings. Qed.

Lemma invoice_records_keys (root : Element) :
  Forall (fun r => map fst r = QbInv.fieldnames)
    (QbInv.process_invoice_response root).
Proof.
  rewrite process_invoice_response_rows.
  apply flat_map_Forall; intros tx r Hr.
  now apply (tx_rows_keys invoice_header _ _ invoice_header_columns) in Hr.
Qed.

Lemma so_records_keys (root : Element) :
  Forall (fun r => map fst r = QbSo.fieldnames)
    (QbSo.process_so_response root).
Proof.
  rewrite process_so_response_rows.
  apply flat_map_Forall; intros tx r Hr.
  now apply (tx_rows_keys so_header _ _ so_header_columns) in Hr.
Qed.

Lemma po_records_keys (root : Element) :
  Forall (fun r => map fst r = QbPo.fieldnames)
    (QbPo.process_po_response root).
Proof.
  rewrite process_po_response_rows.
  apply flat_map_Forall; intros tx r Hr.
  now apply (tx_rows_keys po_header _ _ po_header_columns) in Hr.
Qed.

(** X2: Exporting what a flattener returned never raises: the file holds the
    header row of the schema and then one row per record, the values of the
    record in the order of its columns. *)
Theorem export_of_flattened :
  (forall root,
      QbInvIO.export_to_csv (QbInv.process_invoice_response root)
      = mkWritten
          (writerow QbInv.fieldnames
           ++ csv_rows (map (map snd) (QbInv.process_invoice_response root)))
          true)
  /\ (forall root,
         QbSoIO.export_to_csv (QbSo.process_so_response root)
         = mkWritten
             (writerow QbSo.fieldnames
              ++ csv_rows (map (map snd) (QbSo.process_so_response root)))
             true)
  /\ (forall root,
         QbPoIO.export_to_csv (QbPo.process_po_response root)
         = mkWritten
             (writerow QbPo.fieldnames
              ++ csv_rows (map (map snd) (QbPo.process_po_response root)))
             true).
Proof.
  split; [| split]; intros root.
  - unfold QbInvIO.export_to_csv, dict_export.
    now rewrite (dict_writerows_conforming _ _ _ invoice_fieldnames_distinct
                   (invoice_records_keys root)).
  - unfold QbSoIO.export_to_csv, dict_export.
    now rewrite (dict_writerows_conforming _ _ _ so_fieldnames_distinct
                   (so_records_keys root)).
  - unfold QbPoIO.export_to_csv, dict_export.
    now rewrite (dict_writerows_conforming _ _ _ po_fieldnames_distinct
                   (po_records_keys root)).
Qed.

Lemma extra_key_found (fieldnames : list string) (r : record) (k : string) :
  In k (map fst r) -> ~ In k fieldnames ->
  existsb (fun k => negb (existsb (String.eqb k) fieldnames)) (map fst r)
  = true.
Proof.
  intros Hk Hout.
  apply existsb_exists; exists k; split; [exact Hk |].
  apply negb_true_iff, not_true_is_false; intros H.
  apply existsb_exists in H; destruct H as (k' & Hk' & Heq).
  apply String.eqb_eq in Heq; subst k'; contradiction.
Qed.

(** X3: With [extrasaction='raise'], the setting of the three transaction
    scripts, a record that has a key outside the schema makes the export raise:
    the header row and the rows of the records before it are in the file, the
    record itself and the ones after it are not. *)
Theorem export_stops_at_extra_key :
  forall (fieldnames : list string) (before after : list record)
    (r : record) (k : string),
    NoDup fieldnames ->
    Forall (fun r => map fst r = fieldnames) before ->
    In k (map fst r) ->
    ~ In k fieldnames ->
    dict_export fieldnames true (before ++ r :: after)
    = mkWritten
        (writerow fieldnames ++ csv_rows (map (map snd) before))
        false.
Proof.
  intros fieldnames before after r k Hnd Hbefore Hk Hout.
  unfold dict_export.
  assert (Hrows :
           dict_writerows fieldnames true (before ++ r :: after)
           = mkWritten (csv_rows (map (map snd) before)) false).
  { induction Hbefore as [| r0 before Hr0 _ IH].
    - cbn [app dict_writerows map]; unfold dict_to_list.
      now rewrite (extra_key_found fieldnames r k Hk Hout).
    - cbn [app dict_writerows map].
      now rewrite (dict_to_list_conforming _ _ _ Hnd Hr0), IH, csv_rows_cons. }
  now rewrite Hrows.
Qed.

(** A ship-to style record after the records of a sales order. *)
Lemma export_stops_at_stray_record :
  QbSoIO.export_to_csv
    (QbSo.process_so_response
       (response_of "SalesOrderQueryRs" [so_group_first])
     ++ stray_record :: [])
  = mkWritten
      (writerow QbSo.fieldnames
       ++ csv_rows
            (map (map snd)
               (QbSo.process_so_response
                  (response_of "SalesOrderQueryRs" [so_group_first]))))
      false.
Proof.
  apply (export_stops_at_extra_key QbSo.fieldnames _ [] stray_record
           "Customer").
  - exact so_fieldnames_distinct.
  - apply so_records_keys.
  - simpl; tauto.
  - simpl; intuition discriminate.
Defined.

(** ** Empty results *)

Lemma tx_rows_not_empty (hdr : Element -> record)
  (simple grouped : Element -> list Element) (tx : Element) :
  tx_rows hdr simple grouped tx <> [].
Proof.
  unfold tx_rows.
  destruct (simple tx); destruct (grouped tx); simpl; discriminate.
Qed.

Lemma flat_map_nil_iff {A B : Type} (f : A -> list B) (l : list A) :
  (forall x, f x <> []) -> flat_map f l = [] <-> l = [].
Proof.
  intros Hf; split; [| now intros ->].
  destruct l as [| x l]; [reflexivity |].
  simpl; intros H; apply app_eq_nil in H; destruct H as [H _].
  now apply Hf in H.
Qed.

(** X4: A flattener returns no record exactly when the response holds no
    transaction element of its kind, and the file exported then holds the
    header row alone. *)
Theorem no_transaction_no_record :
  (forall root,
      QbInv.process_invoice_response root = []
      <-> findall_descendants root "InvoiceRet" = [])
  /\ (forall root,
         QbSo.process_so_response root = []
         <-> findall_descendants root "SalesOrderRet" = [])
  /\ (forall root,
         QbPo.process_po_response root = []
         <-> findall_descendants root "PurchaseOrderRet" = [])
  /\ QbInvIO.export_to_csv [] = mkWritten (writerow QbInv.fieldnames) true
  /\ QbSoIO.export_to_csv [] = mkWritten (writerow QbSo.fieldnames) true
  /\ QbPoIO.export_to_csv [] = mkWritten (writerow QbPo.fieldnames) true.
Proof.
  repeat split; try reflexivity.
  - rewrite process_invoice_response_rows.
    apply flat_map_nil_iff, tx_rows_not_empty.
  - rewrite process_invoice_response_rows.
    apply flat_map_nil_iff, tx_rows_not_empty.
  - rewrite process_so_response_rows.
    apply flat_map_nil_iff, tx_rows_not_empty.
  - rewrite process_so_response_rows.
    apply flat_map_nil_iff, tx_rows_not_empty.
  - rewrite process_po_response_rows.
    apply flat_map_nil_iff, tx_rows_not_empty.
  - rewrite process_po_response_rows.
    apply flat_map_nil_iff, tx_rows_not_empty.
Qed.

(** ** Blank addresses *)

Lemma join_empty (sep : string) (parts : list string) :
  Forall (fun v => v <> EmptyString) parts ->
  join sep parts = EmptyString -> parts = [].
Proof.
  destruct parts as [| x [| y parts]]; [reflexivity | |]; intros Hne Hj.
  - apply Forall_inv in Hne; now contradiction Hne.
  - apply Forall_inv in Hne.
    destruct x; [now contradiction Hne | discriminate].
Qed.

Lemma filter_none {A : Type} (p : A -> bool) (l : list A) :
  (forall x, In x l -> p x = false) -> filter p l = [].
Proof.
  induction l as [| x l IH]; intros H; [reflexivity |].
  cbn [filter]; rewrite (H x) by (simpl; tauto).
  apply IH; intros y Hy; apply H; simpl; tauto.
Qed.

(** X5: [parse_address] returns the empty string for a block exactly when every
    one of the nine canonical fields is absent or blank: in the output such a
    block cannot be told from an absent one. *)
Theorem parse_address_empty :
  forall e,
    parse_address (Some e) = EmptyString
    <-> forall t, In t address_tags -> non_blank e t = false.
Proof.
  intros e.
  assert (Hjoin :
           parse_address (Some e)
           = join ", "
               (map (trimmed_field e) (filter (non_blank e) address_tags))).
  { unfold parse_address.
    now rewrite (kept_parts (fun t => strip (findtext e t EmptyString))). }
  rewrite Hjoin.
  split.
  - intros Hj t Ht.
    apply join_empty in Hj.
    + apply map_eq_nil in Hj.
      destruct (non_blank e t) eqn:E; [| reflexivity].
      assert (Hin : In t (filter (non_blank e) address_tags))
        by (apply filter_In; auto).
      rewrite Hj in Hin; contradiction.
    + apply Forall_forall; intros v Hv.
      apply in_map_iff in Hv; destruct Hv as (t' & <- & Ht').
      apply filter_In in Ht'; destruct Ht' as [_ Ht'].
      now apply truthy_nonempty.
  - intros Hall.
    now rewrite (filter_none _ _ Hall).
Qed.

(** ** Trimming and splitting *)

Lemma lstrip_chars (s : string) (c : ascii) :
  In c (list_ascii_of_string (lstrip s)) -> In c (list_ascii_of_string s).
Proof.
  induction s as [| d s IH]; [trivial |].
  cbn [lstrip]; destruct (isspace d); [| trivial].
  intros H; right; auto.
Qed.

Lemma rstrip_chars (s : string) (c : ascii) :
  In c (list_ascii_of_string (rstrip s)) -> In c (list_ascii_of_string s).
Proof.
  induction s as [| d s IH]; [trivial |].
  cbn [rstrip]; destruct (rstrip s) as [| e r].
  - destruct (isspace d); [intros [] | intros [<- | []]; now left].
  - intros [<- | H]; [now left | right; auto].
Qed.

Lemma strip_chars (s : string) (c : ascii) :
  In c (list_ascii_of_string (strip s)) -> In c (list_ascii_of_string s).
Proof. intros H; now apply lstrip_chars, rstrip_chars. Qed.

(** What is left of a string starts with a character that is not white
    space, if anything is left. *)
Lemma lstrip_cases (s : string) :
  lstrip s = EmptyString
  \/ exists c r, lstrip s = String c r /\ isspace c = false.
Proof.
  induction s as [| d s IH]; [now left |].
  cbn [lstrip]; destruct (isspace d) eqn:E; [exact IH |].
  right; eauto.
Qed.

Lemma rstrip_keeps_head (c : ascii) (s : string) :
  isspace c = false -> rstrip (String c s) = String c (rstrip s).
Proof.
  intros Hc; cbn [rstrip].
  destruct (rstrip s); [now rewrite Hc | reflexivity].
Qed.

Lemma rstrip_idempotent (s : string) : rstrip (rstrip s) = rstrip s.
Proof.
  induction s as [| c s IH]; [reflexivity |].
  cbn [rstrip]; destruct (rstrip s) as [| d r] eqn:E.
  - destruct (isspace c) eqn:Hc; [reflexivity |].
    cbn [rstrip]; now rewrite Hc.
  - change (rstrip (String c (String d r))) with
      (match rstrip (String d r) with
       | EmptyString =>
           if isspace c then EmptyString else String c EmptyString
       | String e r' => String c (String e r')
       end).
    now rewrite IH.
Qed.

(** Trimming twice is trimming once. *)
Lemma strip_idempotent (s : string) : strip (strip s) = strip s.
Proof.
  unfold strip.
  destruct (lstrip_cases s) as [-> | (c & r & -> & Hc)]; [reflexivity |].
  rewrite (rstrip_keeps_head c r Hc).
  cbn [lstrip]; rewrite Hc.
  now rewrite (rstrip_keeps_head c _ Hc), rstrip_idempotent.
Qed.

Lemma lstrip_empty_iff (s : string) :
  lstrip s = EmptyString
  <-> forall c, In c (list_ascii_of_string s) -> isspace c = true.
Proof.
  induction s as [| d s IH]; [split; [intros _ c [] | reflexivity] |].
  cbn [lstrip list_ascii_of_string]; destruct (isspace d) eqn:E.
  - rewrite IH; split.
    + intros H c [<- | Hc]; auto.
    + intros H c Hc; apply H; now right.
  - split; [discriminate |].
    intros H; specialize (H d (or_introl eq_refl)); congruence.
Qed.

(** Trimming leaves nothing exactly of the strings of white space. *)
Lemma strip_empty_iff (s : string) :
  strip s = EmptyString
  <-> forall c, In c (list_ascii_of_string s) -> isspace c = true.
Proof.
  rewrite <- lstrip_empty_iff; unfold strip.
  destruct (lstrip_cases s) as [-> | (c & r & -> & Hc)];
    [split; reflexivity |].
  rewrite (rstrip_keeps_head c r Hc); split; discriminate.
Qed.

(** The parts of a split hold every character of the line but the
    separators, and nothing else. *)
Lemma split_chars (sep : ascii) (s : string) (c : ascii) :
  (exists part,
      In part (split sep s) /\ In c (list_ascii_of_string part))
  <-> In c (list_ascii_of_string s) /\ c <> sep.
Proof.
  induction s as [| d s IH].
  - cbn [split list_ascii_of_string]; split.
    + intros (part & [<- | []] & []).
    + intros [[] _].
  - cbn [split list_ascii_of_string].
    destruct (Ascii.eqb_spec d sep) as [-> | Hd].
    + split.
      * intros (part & [<- | Hpart] & Hc); [destruct Hc |].
        destruct (proj1 IH (ex_intro _ part (conj Hpart Hc))) as [H1 H2].
        split; [now right | exact H2].
      * intros [[<- | Hc] Hne]; [now contradiction Hne |].
        destruct (proj2 IH (conj Hc Hne)) as (part & Hpart & Hin).
        exists part; split; [now right | exact Hin].
    + destruct (split sep s) as [| p ps] eqn:E.
      * split.
        -- intros (part & [<- | []] & [<- | []]); split; [now left | exact Hd].
        -- intros [[<- | Hc] Hne].
           ++ exists (String d EmptyString); split; now left.
           ++ destruct (proj2 IH (conj Hc Hne)) as (part & [] & _).
      * split.
        -- intros (part & [<- | Hpart] & Hc).
           ++ destruct Hc as [<- | Hc]; [split; [now left | exact Hd] |].
              destruct (proj1 IH (ex_intro _ p (conj (or_introl eq_refl) Hc)))
                as [H1 H2].
              split; [now right | exact H2].
           ++ destruct (proj1 IH
                          (ex_intro _ part (conj (or_intror Hpart) Hc)))
                as [H1 H2].
              split; [now right | exact H2].
        -- intros [[<- | Hc] Hne].
           ++ exists (String d p); split; now left.
           ++ destruct (proj2 IH (conj Hc Hne)) as (part & [<- | Hpart] & Hin).
              ** exists (String d p); split; [now left | now right].
              ** exists part; split; [now right | exact Hin].
Qed.

(** ** The identifiers typed at the prompt *)

(** X6: Every identifier the scripts query for is not empty, has no white space
    around it and holds no comma; and a line gives no identifier at all exactly
    when it is made of white space and commas only. *)
Theorem identifiers_clean :
  forall line,
    Forall
      (fun number =>
         number <> EmptyString
         /\ strip number = number
         /\ ~ In comma (list_ascii_of_string number))
      (identifiers line)
    /\ (identifiers line = []
        <-> forall c,
            In c (list_ascii_of_string line) ->
            isspace c = true \/ c = comma).
Proof.
  intros line; unfold identifiers; split.
  - apply Forall_forall; intros number Hn.
    apply in_map_iff in Hn; destruct Hn as (part & <- & Hpart).
    apply filter_In in Hpart; destruct Hpart as [Hpart Hkeep].
    split; [now apply truthy_nonempty | split; [apply strip_idempotent |]].
    intros Hc; apply strip_chars in Hc.
    destruct (proj1 (split_chars comma line comma)
                (ex_intro _ part (conj Hpart Hc))) as [_ Hne].
    now contradiction Hne.
  - split.
    + intros Hnone c Hc.
      destruct (Ascii.eqb_spec c comma) as [-> | Hne]; [now right | left].
      destruct (proj2 (split_chars comma line c) (conj Hc Hne))
        as (part & Hpart & Hin).
      apply map_eq_nil in Hnone.
      destruct (truthy (strip part)) eqn:E.
      * assert (Hkept :
                 In part
                   (filter (fun x => truthy (strip x)) (split comma line)))
          by (apply filter_In; auto).
        rewrite Hnone in Hkept; contradiction.
      * assert (Hblank : strip part = EmptyString)
          by (destruct (strip part); [reflexivity | discriminate]).
        now apply (proj1 (strip_empty_iff part) Hblank).
    + intros Hall.
      rewrite (filter_none (fun x => truthy (strip x))); [reflexivity |].
      intros part Hpart.
      assert (Hblank : strip part = EmptyString).
      { apply strip_empty_iff; intros c Hc.
        destruct (proj1 (split_chars comma line c)
                    (ex_intro _ part (conj Hpart Hc))) as [Hin Hne].
        destruct (Hall c Hin) as [H | H]; [exact H | contradiction]. }
      now rewrite Hblank.
Qed.

(** ** The transaction scripts end to end *)

Lemma lower_is_y (s : string) : lower s = "y" <-> s = "y" \/ s = "Y".
Proof.
  split; [| intros [-> | ->]; reflexivity].
  destruct s as [| c [| d s]]; try discriminate.
  destruct c as [[] [] [] [] [] [] [] []]; vm_compute; intros H;
    try discriminate; auto.
Qed.

Lemma lower_is_n (s : string) : lower s = "n" <-> s = "n" \/ s = "N".
Proof.
  split; [| intros [-> | ->]; reflexivity].
  destruct s as [| c [| d s]]; try discriminate.
  destruct c as [[] [] [] [] [] [] [] []]; vm_compute; intros H;
    try discriminate; auto.
Qed.

Section TransactionRuns.

Variable Session : Type.
Variable ProcessRequest : Session -> string -> option Element * Session.
Variable build_request : string -> string.
Variable build_year_request : string -> string.
Variable process_response : Element -> list record.
Variable export_to_csv : list record -> written.
Variable single_filename : string -> string.
Variable year_filename : string -> string.

Hypothesis export_completes :
  forall root, completed (export_to_csv (process_response root)) = true.

Lemma fetch_each_answered (numbers : list string) :
  forall responses s sent saved,
    answers ProcessRequest s responses ->
    length responses = length numbers ->
    exists s',
      fetch_each ProcessRequest build_request process_response export_to_csv
        single_filename numbers s sent saved
      = mkTranscript
          (sent ++ map build_request numbers)
          (saved
           ++ map (fun p =>
                     (single_filename (fst p),
                      content (export_to_csv (process_response (snd p)))))
                (combine numbers responses))
          s' false.
Proof.
  induction numbers as [| number numbers IH];
    intros [| r responses] s sent saved Hans Hlen; try discriminate.
  - exists s; cbn [fetch_each map combine]; now rewrite !app_nil_r.
  - cbn [fetch_each].
    destruct (Hans (build_request number)) as [Hr Hrest].
    destruct (ProcessRequest s (build_request number)) as [o s'];
      cbn [fst snd] in Hr, Hrest; subst o.
    rewrite export_completes.
    injection Hlen as Hlen.
    destruct (IH responses s' (sent ++ [build_request number])
                (saved
                 ++ [(single_filename number,
                       content (export_to_csv (process_response r)))])
                Hrest Hlen) as [s'' ->].
    exists s''; cbn [map combine fst snd]; now rewrite <- !app_assoc.
Qed.

Lemma fetch_each_cut_short (numbers : list string) :
  forall responses s sent saved,
    serves_then_fails ProcessRequest s responses ->
    length responses < length numbers ->
    exists s',
      fetch_each ProcessRequest build_request process_response export_to_csv
        single_filename numbers s sent saved
      = mkTranscript
          (sent ++ map build_request (firstn (length responses + 1) numbers))
          (saved
           ++ map (fun p =>
                     (single_filename (fst p),
                      content (export_to_csv (process_response (snd p)))))
                (combine numbers responses))
          s' true.
Proof.
  induction numbers as [| number numbers IH];
    intros responses s sent saved Hans Hlen; [simpl in Hlen; lia |].
  cbn [fetch_each].
  destruct responses as [| r responses].
  - specialize (Hans (build_request number)).
    destruct (ProcessRequest s (build_request number)) as [o s'];
      cbn [fst] in Hans; subst o.
    exists s'; cbn [length Nat.add firstn map combine].
    now rewrite app_nil_r.
  - destruct (Hans (build_request number)) as [Hr Hrest].
    destruct (ProcessRequest s (build_request number)) as [o s'];
      cbn [fst snd] in Hr, Hrest; subst o.
    rewrite export_completes.
    cbn [length] in Hlen.
    destruct (IH responses s' (sent ++ [build_request number])
                (saved
                 ++ [(single_filename number,
                       content (export_to_csv (process_response r)))])
                Hrest) as [s'' ->]; [lia |].
    exists s''; cbn [length Nat.add firstn map combine fst snd].
    now rewrite <- !app_assoc.
Qed.

Lemma main_fetches (choice_line answer_line : string) (s : Session)
  (responses : list Element) (cut_short : bool) :
  strip choice_line = "n" \/ strip choice_line = "N" ->
  (if cut_short
   then serves_then_fails ProcessRequest s responses
        /\ length responses < length (identifiers (strip answer_line))
   else answers ProcessRequest s responses
        /\ length responses = length (identifiers (strip answer_line))) ->
  fetched
    (transaction_main ProcessRequest build_request build_year_request
       process_response export_to_csv single_filename year_filename
       choice_line answer_line s)
    build_request process_response export_to_csv single_filename
    (identifiers (strip answer_line)) responses cut_short.
Proof.
  intros Hchoice Hchannel.
  unfold transaction_main, fetched.
  apply lower_is_n in Hchoice; rewrite Hchoice; cbn [String.eqb Ascii.eqb
    Bool.eqb].
  destruct cut_short.
  - destruct Hchannel as [Hans Hlen].
    destruct (identifiers (strip answer_line)) as [| number numbers] eqn:E;
      [simpl in Hlen; lia |].
    cbn [is_empty].
    destruct (fetch_each_cut_short (number :: numbers) responses s [] []
                Hans Hlen) as [s' ->].
    cbn [queries files failed app]; auto.
  - destruct Hchannel as [Hans Hlen].
    destruct (identifiers (strip answer_line)) as [| number numbers] eqn:E.
    + destruct responses; [| discriminate].
      cbn [is_empty queries files failed]; auto.
    + cbn [is_empty].
      destruct (fetch_each_answered (number :: numbers) responses s [] []
                  Hans Hlen) as [s' ->].
      cbn [queries files failed app].
      rewrite Hlen, Nat.add_0_r, firstn_all; auto.
Qed.

Lemma main_year (choice_line answer_line : string) (s : Session)
  (response : Element) :
  strip choice_line = "y" \/ strip choice_line = "Y" ->
  answers ProcessRequest s [response] ->
  let t :=
    transaction_main ProcessRequest build_request build_year_request
      process_response export_to_csv single_filename year_filename
      choice_line answer_line s in
  queries t = [build_year_request (strip answer_line)]
  /\ files t
     = [(year_filename (strip answer_line),
         content (export_to_csv (process_response response)))]
  /\ failed t = false.
Proof.
  intros Hchoice Hans; unfold transaction_main.
  apply lower_is_y in Hchoice; rewrite Hchoice; cbn [String.eqb Ascii.eqb
    Bool.eqb].
  destruct (Hans (build_year_request (strip answer_line))) as [Hr _].
  destruct (ProcessRequest s _) as [o s']; cbn [fst] in Hr; subst o.
  cbn [queries files failed]; rewrite export_completes; auto.
Qed.

Lemma main_other (choice_line answer_line : string) (s : Session) :
  ~ In (strip choice_line) ["y"; "Y"; "n"; "N"] ->
  transaction_main ProcessRequest build_request build_year_request
    process_response export_to_csv single_filename year_filename
    choice_line answer_line s
  = mkTranscript [] [] s false.
Proof.
  intros Hother; unfold transaction_main.
  destruct (String.eqb_spec (lower (strip choice_line)) "y") as [Hy | _].
  { apply lower_is_y in Hy; contradiction Hother.
    destruct Hy as [-> | ->]; simpl; auto. }
  destruct (String.eqb_spec (lower (strip choice_line)) "n") as [Hn | _].
  { apply lower_is_n in Hn; contradiction Hother.
    destruct Hn as [-> | ->]; simpl; auto. }
  reflexivity.
Qed.

End TransactionRuns.

Lemma invoice_export_completes (root : Element) :
  completed (QbInvIO.export_to_csv (QbInv.process_invoice_response root))
  = true.
Proof.
  unfold QbInvIO.export_to_csv, dict_export; cbn [completed].
  now rewrite (dict_writerows_conforming _ _ _ invoice_fieldnames_distinct
                 (invoice_records_keys root)).
Qed.

Lemma so_export_completes (root : Element) :
  completed (QbSoIO.export_to_csv (QbSo.process_so_response root)) = true.
Proof.
  unfold QbSoIO.export_to_csv, dict_export; cbn [completed].
  now rewrite (dict_writerows_conforming _ _ _ so_fieldnames_distinct
                 (so_records_keys root)).
Qed.

Lemma po_export_completes (root : Element) :
  completed (QbPoIO.export_to_csv (QbPo.process_po_response root)) = true.
Proof.
  unfold QbPoIO.export_to_csv, dict_export; cbn [completed].
  now rewrite (dict_writerows_conforming _ _ _ po_fieldnames_distinct
                 (po_records_keys root)).
Qed.







(** X10: Any answer to the first prompt that is not [y], [Y], [n] or [N] once
    trimmed makes each of the three scripts send no request and write no file;
    the second prompt is not read and the channel is left as it was. *)
Theorem main_other_choice :
  forall (Session : Type)
    (ProcessRequest : Session -> string -> option Element * Session)
    (today : date) (choice_line answer_line : string) (s : Session),
    ~ In (strip choice_line) ["y"; "Y"; "n"; "N"] ->
    QbInvIO.main ProcessRequest today choice_line answer_line s
    = mkTranscript [] [] s false
    /\ QbSoIO.main ProcessRequest today choice_line answer_line s
       = mkTranscript [] [] s false
    /\ QbPoIO.main ProcessRequest today choice_line answer_line s
       = mkTranscript [] [] s false.
Proof.
  intros Session ProcessRequest today choice_line answer_line s Hother.
  repeat split; unfold QbInvIO.main, QbSoIO.main, QbPoIO.main;
    now apply main_other.
Qed.

Lemma main_other_choice_yes :
  QbInvIO.main scripted (mkDate 2024 2 29) "yes" "7" two_orders
  = mkTranscript [] [] two_orders false
  /\ QbSoIO.main scripted (mkDate 2024 2 29) "yes" "7" two_orders
     = mkTranscript [] [] two_orders false
  /\ QbPoIO.main scripted (mkDate 2024 2 29) "yes" "7" two_orders
     = mkTranscript [] [] two_orders false.
Proof.
  apply (main_other_choice (list Element) scripted).
  simpl; intuition discriminate.
Defined.

(** ** The batch loop when the channel misbehaves *)

Section LoopEdges.

Variable Session : Type.
Variable ProcessRequest : Session -> string -> option Element * Session.
Variable Row : Type.
Variable build_request : string -> option string -> string.
Variable parse : Element -> list Row.

(** The channel raises after [more]: the loop leaves through the exception
    with the records of [more] and one request more than it got answers. *)
Lemma batch_loop_raised (more : list Element) :
  Forall (fun r => reports_more r = true) more ->
  forall fuel s iterator_id acc sent,
    serves_then_fails ProcessRequest s more ->
    length more < fuel ->
    exists b,
      batch_loop ProcessRequest build_request parse fuel s iterator_id acc sent
      = Raised b
      /\ all_records b = acc ++ flat_map parse more
      /\ length (requests b) = length sent + length more + 1.
Proof.
  intros Hmore.
  induction Hmore as [| r more Hr _ IH];
    intros fuel s iterator_id acc sent Hans Hfuel;
    (destruct fuel as [| fuel]; [simpl in Hfuel; lia |]).
  - specialize (Hans (build_request (mode_for iterator_id) iterator_id)).
    cbn [batch_loop]; fold (mode_for iterator_id).
    destruct (ProcessRequest s _) as [o s']; cbn [fst] in Hans; subst o.
    eexists; split; [reflexivity |].
    cbn [all_records requests flat_map length].
    rewrite app_nil_r, length_app; cbn [length]; split; [reflexivity | lia].
  - destruct (Hans (build_request (mode_for iterator_id) iterator_id))
      as [Hr' Hrest].
    cbn [batch_loop]; fold (mode_for iterator_id).
    destruct (ProcessRequest s _) as [o s'];
      cbn [fst snd] in Hr', Hrest; subst o.
    destruct (reports_more_inv r Hr) as (rs & c & -> & -> & -> & _).
    destruct (IH fuel s' (get rs "iteratorID") (acc ++ parse r)
                (sent
                 ++ [build_request (mode_for iterator_id) iterator_id])
                Hrest) as (b & -> & Hrec & Hreq); [simpl in Hfuel; lia |].
    exists b; split; [reflexivity |].
    rewrite Hrec, Hreq, length_app; cbn [flat_map length].
    rewrite <- app_assoc; split; [reflexivity | lia].
Qed.

(** The channel always reports more: whatever the fuel, the loop is still
    running when the fuel is spent. *)
Lemma batch_loop_never_ends (always : Session -> Prop) :
  always_more ProcessRequest always ->
  forall fuel s iterator_id acc sent,
    always s ->
    batch_loop ProcessRequest build_request parse fuel s iterator_id acc sent
    = OutOfFuel.
Proof.
  intros Hmore fuel.
  induction fuel as [| fuel IH]; intros s iterator_id acc sent Hs;
    [reflexivity |].
  cbn [batch_loop]; fold (mode_for iterator_id).
  destruct (Hmore s (build_request (mode_for iterator_id) iterator_id) Hs)
    as (r & Hr & Hrep & Hnext).
  destruct (ProcessRequest s _) as [o s']; cbn [fst snd] in Hr, Hnext;
    subst o.
  destruct (reports_more_inv r Hrep) as (rs & c & -> & -> & -> & _).
  now apply IH.
Qed.

End LoopEdges.

(** X11: When the channel raises after some batches that each reported more
    records, [main] of [qb_shipto.py] still ends with the records of those
    batches and exports them, if there are any; [main] of [qbinv_all.py]
    exports nothing. *)
Theorem channel_failure_mid_run :
  forall (Session : Type)
    (ProcessRequest : Session -> string -> option Element * Session)
    (s : Session) (more : list Element) (fuel : nat) (timestamp : string),
    serves_then_fails ProcessRequest s more ->
    Forall (fun r => reports_more r = true) more ->
    length more < fuel ->
    QbShipto.main ProcessRequest fuel s
    = Some (flat_map QbShipto.parse_shipto more)
    /\ QbShiptoIO.main ProcessRequest fuel s timestamp
       = Some
           (QbShiptoIO.export_to_csv (flat_map QbShipto.parse_shipto more)
              true timestamp)
    /\ QbInvAll.main ProcessRequest fuel s = None
    /\ QbInvAllIO.main ProcessRequest fuel s = None.
Proof.
  intros Session ProcessRequest s more fuel timestamp Hans Hmore Hfuel.
  destruct (batch_loop_raised Session ProcessRequest record
              QbShipto.build_qbxml_customers_request QbShipto.parse_shipto
              more Hmore fuel s None [] [] Hans Hfuel)
    as (b & Hb & Hrec & _).
  destruct (batch_loop_raised Session ProcessRequest (string * string)
              QbInvAll.build_qbxml_customers_request QbInvAll.parse_shipto
              more Hmore fuel s None [] [] Hans Hfuel)
    as (b' & Hb' & _ & _).
  assert (Hmain :
           QbShipto.main ProcessRequest fuel s
           = Some (flat_map QbShipto.parse_shipto more)).
  { unfold QbShipto.main, QbShipto.main_loop; now rewrite Hb, Hrec. }
  assert (Hall : QbInvAll.main ProcessRequest fuel s = None).
  { unfold QbInvAll.main, QbInvAll.main_loop; now rewrite Hb'. }
  unfold QbShiptoIO.main, QbInvAllIO.main; rewrite Hmain, Hall; auto.
Qed.

Lemma channel_failure_after_two_batches :
  QbShipto.main scripted 3 two_more
  = Some (flat_map QbShipto.parse_shipto two_more)
  /\ QbShiptoIO.main scripted 3 two_more "20240229_120000"
     = Some
         (QbShiptoIO.export_to_csv (flat_map QbShipto.parse_shipto two_more)
            true "20240229_120000")
  /\ QbInvAll.main scripted 3 two_more = None
  /\ QbInvAllIO.main scripted 3 two_more = None.
Proof.
  apply (channel_failure_mid_run (list Element) scripted).
  - simpl; repeat (intros _; split; [reflexivity |]); intros _; reflexivity.
  - repeat constructor.
  - simpl; lia.
Defined.

(** X12: The loop has no cap on the number of batches: against a channel whose
    every response reports more records it is still running after any number of
    passes, in both customer exporters. *)
Theorem loop_without_end :
  forall (Session : Type)
    (ProcessRequest : Session -> string -> option Element * Session)
    (always : Session -> Prop) (s : Session) (fuel : nat),
    always_more ProcessRequest always ->
    always s ->
    QbShipto.main_loop ProcessRequest fuel s = OutOfFuel
    /\ QbInvAll.main_loop ProcessRequest fuel s = OutOfFuel.
Proof.
  intros Session ProcessRequest always s fuel Hmore Hs.
  split.
  - now apply (batch_loop_never_ends Session ProcessRequest record
                 QbShipto.build_qbxml_customers_request
                 QbShipto.parse_shipto always Hmore).
  - now apply (batch_loop_never_ends Session ProcessRequest (string * string)
                 QbInvAll.build_qbxml_customers_request
                 QbInvAll.parse_shipto always Hmore).
Qed.

(** A channel that repeats a batch without cursor token: every request is a
    start request again, and the loop goes on. *)
Lemma loop_without_end_repeating :
  QbShipto.main_loop (repeating batch_without_token) 50 tt = OutOfFuel
  /\ QbInvAll.main_loop (repeating batch_without_token) 50 tt = OutOfFuel.
Proof.
  apply (loop_without_end unit (repeating batch_without_token)
           (fun _ => True) tt 50).
  - intros s qbxml _; exists batch_without_token.
    split; [reflexivity | split; [reflexivity | exact I]].
  - exact I.
Defined.

(** ** The ship-to file *)

Lemma parse_shipto_rows (root : Element) :
  QbShipto.parse_shipto root = flat_map shipto_rows (shipto_blocks root).
Proof.
  unfold QbShipto.parse_shipto, shipto_blocks.
  rewrite flat_map_pairs.
  erewrite fold_left_append; [reflexivity |].
  intros records cust; cbv beta zeta.
  erewrite fold_left_append; [reflexivity |].
  intros records' st; unfold shipto_rows; cbn [fst snd].
  unfold labelled_or_located, non_blank, shipto_row, trimmed_field.
  cbn [existsb QbShipto.item column assoc_get String.eqb Ascii.eqb Bool.eqb].
  rewrite orb_false_r, orb_assoc.
  match goal with
  | |- (if ?kept then _ else _) = _ =>
      destruct kept; [reflexivity | symmetry; apply app_nil_r]
  end.
Qed.

(** Every record kept has the thirteen keys and a value in one of the three
    fields that decide. *)
Lemma parse_shipto_kept (responses : list Element) (r : record) :
  In r (flat_map QbShipto.parse_shipto responses) ->
  map fst r = QbShiptoIO.all_columns
  /\ exists col,
      In col ["ShipToName"; "Addr1"; "City"]
      /\ QbShiptoIO.get_or_empty r col <> EmptyString.
Proof.
  intros Hr.
  apply in_flat_map in Hr; destruct Hr as (root & _ & Hr).
  rewrite parse_shipto_rows in Hr.
  apply in_flat_map in Hr; destruct Hr as ([cust st] & _ & Hr).
  unfold shipto_rows in Hr; cbn [fst snd] in Hr.
  destruct (labelled_or_located st) eqn:E; [| destruct Hr].
  destruct Hr as [<- | []]; split; [reflexivity |].
  unfold labelled_or_located in E.
  apply orb_prop in E; destruct E as [E | E];
    [apply orb_prop in E; destruct E as [E | E] |].
  - exists "ShipToName"; split; [simpl; tauto | now apply truthy_nonempty].
  - exists "Addr1"; split; [simpl; tauto | now apply truthy_nonempty].
  - exists "City"; split; [simpl; tauto | now apply truthy_nonempty].
Qed.

(** With [extrasaction='ignore'] every record is written, whatever its
    keys: under each column its value for it, or nothing. *)
Lemma dict_writerows_ignoring (fieldnames : list string)
  (data : list record) :
  dict_writerows fieldnames false data
  = mkWritten
      (csv_rows
         (map (fun r => map (QbShiptoIO.get_or_empty r) fieldnames) data))
      true.
Proof.
  induction data as [| r data IH]; [reflexivity |].
  cbn [dict_writerows map]; unfold dict_to_list; cbn [andb].
  now rewrite IH, csv_rows_cons.
Qed.

Lemma column_with_data (records : list record) (col : string) :
  In col (QbShiptoIO.columns_with_data records)
  <-> In col QbShiptoIO.all_columns
      /\ exists r,
          In r records /\ QbShiptoIO.get_or_empty r col <> EmptyString.
Proof.
  unfold QbShiptoIO.columns_with_data.
  rewrite filter_In, existsb_exists.
  split; intros [Hcol (r & Hr & Hv)]; (split; [exact Hcol |]);
    exists r; (split; [exact Hr |]); now apply truthy_nonempty.
Qed.

(** X13: The file [qb_shipto.py] writes for the records it gathered, when there
    are any: it is named after the time of the export, its columns are the
    columns of the schema that hold a value in at least one record, in the
    order of the schema, and the export never raises. One of [ShipToName],
    [Addr1] and [City] is always among the columns, and no row is empty: every
    record has a value in one of the columns written. *)
Theorem shipto_file :
  forall (responses : list Element) (timestamp : string),
    flat_map QbShipto.parse_shipto responses <> [] ->
    let records := flat_map QbShipto.parse_shipto responses in
    let columns := QbShiptoIO.columns_with_data records in
    QbShiptoIO.export_to_csv records true timestamp
    = Some
        (("shipto_addresses_" ++ timestamp ++ ".csv")%string,
         mkWritten
           (writerow columns
            ++ csv_rows
                 (map (fun r => map (QbShiptoIO.get_or_empty r) columns)
                    records))
           true)
    /\ (forall col,
           In col columns
           <-> In col QbShiptoIO.all_columns
               /\ exists r,
                   In r records
                   /\ QbShiptoIO.get_or_empty r col <> EmptyString)
    /\ (exists col, In col ["ShipToName"; "Addr1"; "City"] /\ In col columns)
    /\ Forall
         (fun r =>
            exists col,
              In col columns /\ QbShiptoIO.get_or_empty r col <> EmptyString)
         records.
Proof.
  intros responses timestamp Hsome records columns.
  assert (Hkept :
           forall r,
             In r records ->
             exists col,
               In col ["ShipToName"; "Addr1"; "City"]
               /\ In col columns
               /\ QbShiptoIO.get_or_empty r col <> EmptyString).
  { intros r Hr.
    destruct (parse_shipto_kept responses r Hr) as [_ (col & Hcol & Hv)].
    exists col; split; [exact Hcol | split; [| exact Hv]].
    apply column_with_data; split; [| eauto].
    simpl in Hcol; simpl; intuition. }
  split; [| split; [| split]].
  - unfold QbShiptoIO.export_to_csv, dict_export.
    fold records; fold columns.
    destruct records as [| r0 rest] eqn:E; [now contradiction Hsome |].
    cbn [is_empty].
    now rewrite dict_writerows_ignoring.
  - intros col; apply column_with_data.
  - destruct records as [| r0 rest] eqn:E; [now contradiction Hsome |].
    destruct (Hkept r0 (or_introl eq_refl)) as (col & Hcol & Hin & _).
    eauto.
  - apply Forall_forall; intros r Hr.
    destruct (Hkept r Hr) as (col & _ & Hin & Hv); eauto.
Qed.

Lemma shipto_file_of_two_batches :
  let records := flat_map QbShipto.parse_shipto two_more in
  let columns := QbShiptoIO.columns_with_data records in
  QbShiptoIO.export_to_csv records true "20240229_120000"
  = Some
      (("shipto_addresses_" ++ "20240229_120000" ++ ".csv")%string,
       mkWritten
         (writerow columns
          ++ csv_rows
               (map (fun r => map (QbShiptoIO.get_or_empty r) columns)
                  records))
         true)
  /\ (forall col,
         In col columns
         <-> In col QbShiptoIO.all_columns
             /\ exists r,
                 In r records
                 /\ QbShiptoIO.get_or_empty r col <> EmptyString)
  /\ (exists col, In col ["ShipToName"; "Addr1"; "City"] /\ In col columns)
  /\ Forall
       (fun r =>
          exists col,
            In col columns /\ QbShiptoIO.get_or_empty r col <> EmptyString)
       records.
Proof.
  apply (shipto_file two_more "20240229_120000").
  vm_compute; discriminate.
Defined.

(** ** What a written file still tells *)

Lemma not_special (c : ascii) :
  is_special c = false ->
  Ascii.eqb c comma = false /\ Ascii.eqb c dquote = false
  /\ Ascii.eqb c cr = false /\ Ascii.eqb c lf = false.
Proof.
  unfold is_special; intros H.
  apply orb_false_elim in H; destruct H as [H Hlf].
  apply orb_false_elim in H; destruct H as [H Hcr].
  apply orb_false_elim in H; destruct H as [Hcomma Hdq].
  auto.
Qed.

Lemma snoc_append (f : string) (c : ascii) (s : string) :
  (snoc f c ++ s = f ++ String c s)%string.
Proof. unfold snoc; now rewrite append_assoc. Qed.

(** A field written as it is, read from inside a field. *)
Lemma read_plain (s rest : string) :
  has_special s = false ->
  forall rows fields f,
    read_all (mkReader rows fields f InField) (s ++ rest)
    = read_all (mkReader rows fields (f ++ s) InField) rest.
Proof.
  induction s as [| c s IH]; intros Hs rows fields f.
  - now rewrite append_nil_r.
  - cbn [has_special] in Hs; apply orb_false_elim in Hs.
    destruct Hs as [Hc Hs].
    destruct (not_special c Hc) as (Hcomma & _ & Hcr & _).
    cbn [append read_all]; unfold read_char; cbn [place].
    rewrite Hcomma, Hcr; unfold add_char; cbn [rows_read fields_read field].
    now rewrite (IH Hs), snoc_append.
Qed.

(** The inside of a field written between quotes, read from inside the
    quotes. *)
Lemma read_quoted (s rest : string) :
  forall rows fields f,
    read_all (mkReader rows fields f InQuotes) (double_quotes s ++ rest)
    = read_all (mkReader rows fields (f ++ s) InQuotes) rest.
Proof.
  induction s as [| c s IH]; intros rows fields f.
  - now rewrite append_nil_r.
  - cbn [double_quotes].
    destruct (Ascii.eqb_spec c dquote) as [-> | Hc].
    + cbn [append read_all]; unfold read_char at 2; cbn [place].
      rewrite Ascii.eqb_refl; unfold move; cbn [rows_read fields_read field].
      unfold read_char; cbn [place]; rewrite Ascii.eqb_refl.
      unfold add_char; cbn [rows_read fields_read field].
      now rewrite IH, snoc_append.
    + cbn [append read_all]; unfold read_char; cbn [place].
      apply Ascii.eqb_neq in Hc; rewrite Hc.
      unfold add_char; cbn [rows_read fields_read field].
      now rewrite IH, snoc_append.
Qed.

(** One field and the character that ends it, read from the start of a
    field.  The row of one empty field is not written this way. *)
Lemma read_field (f rest : string) (t : ascii) (rows : list (list string))
  (fields : list string) (p : reading) :
  p = RowStart \/ p = FieldStart ->
  t = comma \/ t = cr ->
  ~ (p = RowStart /\ f = EmptyString /\ t = cr) ->
  read_all (mkReader rows fields EmptyString p) (csv_field f ++ String t rest)
  = read_all
      (mkReader rows (fields ++ [f]) EmptyString
         (if Ascii.eqb t comma then FieldStart else AfterCR))
      rest.
Proof.
  intros Hp Ht Hrow; unfold csv_field.
  destruct (has_special f) eqn:Hf.
  - cbn [append]; rewrite append_assoc; cbn [read_all].
    assert (Hopen :
             read_char (mkReader rows fields EmptyString p) dquote
             = mkReader rows fields EmptyString InQuotes)
      by (destruct Hp as [-> | ->]; reflexivity).
    rewrite Hopen, read_quoted; cbn [append read_all].
    destruct Ht as [-> | ->]; reflexivity.
  - destruct f as [| c f].
    + cbn [append read_all].
      destruct Hp as [-> | ->]; destruct Ht as [-> | ->]; try reflexivity.
      contradiction Hrow; auto.
    + cbn [has_special] in Hf; apply orb_false_elim in Hf.
      destruct Hf as [Hc Hf].
      destruct (not_special c Hc) as (Hcomma & Hdq & Hcr & _).
      cbn [append read_all].
      assert (Hfirst :
               read_char (mkReader rows fields EmptyString p) c
               = mkReader rows fields (String c EmptyString) InField).
      { destruct Hp as [-> | ->]; unfold read_char; cbn [place];
          now rewrite Hdq, Hcomma, Hcr. }
      rewrite Hfirst, (read_plain f _ Hf); cbn [append read_all].
      destruct Ht as [-> | ->]; reflexivity.
Qed.

Lemma csv_field_empty (f : string) :
  csv_field f = EmptyString -> f = EmptyString.
Proof. unfold csv_field; destruct (has_special f); [discriminate | trivial]. Qed.

(** The fields of a row and the end of the row. *)
Lemma read_line (fs : list string) :
  fs <> [] ->
  forall rows done p rest,
    p = RowStart \/ p = FieldStart ->
    ~ (p = RowStart /\ fs = [EmptyString]) ->
    read_all (mkReader rows done EmptyString p)
      (join "," (map csv_field fs) ++ crlf ++ rest)
    = read_all (mkReader (rows ++ [done ++ fs]) [] EmptyString RowStart) rest.
Proof.
  induction fs as [| f fs IH]; intros Hne rows done p rest Hp Hrow;
    [now contradiction Hne |].
  destruct fs as [| g fs].
  - cbn [map join]; cbn [crlf append].
    rewrite (read_field f _ cr rows done p Hp (or_intror eq_refl)).
    + reflexivity.
    + intros (Hp' & Hf & _); apply Hrow; subst; auto.
  - change (join "," (map csv_field (f :: g :: fs)))
      with (csv_field f ++ "," ++ join "," (map csv_field (g :: fs)))%string.
    rewrite !append_assoc.
    change ("," ++ join "," (map csv_field (g :: fs)) ++ crlf ++ rest)%string
      with (String comma
              (join "," (map csv_field (g :: fs)) ++ crlf ++ rest)).
    rewrite (read_field f _ comma rows done p Hp (or_introl eq_refl)).
    + cbn [Ascii.eqb Bool.eqb comma].
      rewrite IH.
      * now rewrite <- app_assoc.
      * discriminate.
      * now right.
      * intros [Hp' _]; discriminate.
    + intros (_ & _ & Ht); discriminate.
Qed.

(** One written row. *)
Lemma read_row (fields : list string) (rows : list (list string))
  (rest : string) :
  read_all (mkReader rows [] EmptyString RowStart) (writerow fields ++ rest)
  = read_all (mkReader (rows ++ [fields]) [] EmptyString RowStart) rest.
Proof.
  destruct fields as [| f fs]; [reflexivity |].
  unfold writerow.
  destruct (join "," (map csv_field (f :: fs))) as [| c line] eqn:E.
  - assert (Hone : f :: fs = [EmptyString]).
    { destruct fs as [| g fs].
      - cbn [map join] in E; now rewrite (csv_field_empty f E).
      - change (join "," (map csv_field (f :: g :: fs)))
          with (csv_field f ++ "," ++ join "," (map csv_field (g :: fs)))
                 %string in E.
        destruct (csv_field f); discriminate. }
    rewrite Hone; reflexivity.
  - rewrite <- E, append_assoc.
    rewrite (read_line (f :: fs)); [reflexivity | discriminate | now left |].
    intros [_ Hone]; rewrite Hone in E; discriminate.
Qed.

(** Reading what [writerows] wrote gives the rows back. *)
Lemma read_rows (rows : list (list string)) :
  forall done,
    read_all (mkReader done [] EmptyString RowStart) (csv_rows rows)
    = mkReader (done ++ rows) [] EmptyString RowStart.
Proof.
  induction rows as [| row rows IH]; intros done.
  - now rewrite app_nil_r.
  - rewrite csv_rows_cons, read_row, IH, <- app_assoc; reflexivity.
Qed.

Lemma read_csv_rows (rows : list (list string)) :
  read_csv (csv_rows rows) = rows.
Proof. unfold read_csv; now rewrite read_rows. Qed.

Lemma csv_rows_determined (rows rows' : list (list string)) :
  csv_rows rows = csv_rows rows' -> rows = rows'.
Proof.
  intros H; rewrite <- (read_csv_rows rows), <- (read_csv_rows rows').
  now rewrite H.
Qed.

Lemma append_cancel (a b c : string) :
  (a ++ b = a ++ c)%string -> b = c.
Proof.
  induction a as [| x a IH]; cbn [append]; [trivial |].
  intros H; injection H as H; auto.
Qed.

(** A record is its keys and its values. *)
Lemma record_determined (r r' : record) :
  map fst r = map fst r' -> map snd r = map snd r' -> r = r'.
Proof.
  revert r'; induction r as [| [k v] r IH]; intros [| [k' v'] r'];
    cbn [map fst snd]; try discriminate; [reflexivity |].
  intros Hk Hv; injection Hk as -> Hk; injection Hv as -> Hv.
  f_equal; auto.
Qed.

Lemma records_determined (fieldnames : list string)
  (data data' : list record) :
  Forall (fun r => map fst r = fieldnames) data ->
  Forall (fun r => map fst r = fieldnames) data' ->
  map (map snd) data = map (map snd) data' ->
  data = data'.
Proof.
  intros Hdata; revert data'.
  induction Hdata as [| r data Hr _ IH]; intros [| r' data'] Hdata' Hv;
    try discriminate; [reflexivity |].
  apply Forall_cons_iff in Hdata'; destruct Hdata' as [Hr' Hdata'].
  cbn [map] in Hv; injection Hv as Hv Hrest.
  rewrite (record_determined r r') by congruence.
  now rewrite (IH data' Hdata' Hrest).
Qed.

Lemma dict_export_determined (fieldnames : list string) (raising : bool)
  (data data' : list record) :
  NoDup fieldnames ->
  Forall (fun r => map fst r = fieldnames) data ->
  Forall (fun r => map fst r = fieldnames) data' ->
  content (dict_export fieldnames raising data)
  = content (dict_export fieldnames raising data') ->
  data = data'.
Proof.
  intros Hnd Hdata Hdata'; unfold dict_export; cbn [content].
  rewrite !(dict_writerows_conforming _ _ _ Hnd) by assumption.
  cbn [content]; intros H.
  apply append_cancel, csv_rows_determined in H.
  now apply (records_determined fieldnames).
Qed.

(** X14: The file a script exports tells the records apart: two responses whose
    exports hold the same text were flattened to the same records, for the
    three transaction scripts; and two lists of ship-to entries that
    [qbinv_all.py] exports to the same text are the same list. Commas, double
    quotes and line breaks inside the values do not blur the file. *)
Theorem exported_file_determines_records :
  (forall root root',
      content (QbInvIO.export_to_csv (QbInv.process_invoice_response root))
      = content (QbInvIO.export_to_csv (QbInv.process_invoice_response root'))
      -> QbInv.process_invoice_response root
         = QbInv.process_invoice_response root')
  /\ (forall root root',
         content (QbSoIO.export_to_csv (QbSo.process_so_response root))
         = content (QbSoIO.export_to_csv (QbSo.process_so_response root'))
         -> QbSo.process_so_response root = QbSo.process_so_response root')
  /\ (forall root root',
         content (QbPoIO.export_to_csv (QbPo.process_po_response root))
         = content (QbPoIO.export_to_csv (QbPo.process_po_response root'))
         -> QbPo.process_po_response root = QbPo.process_po_response root')
  /\ (forall records records',
         content (snd (QbInvAllIO.export_to_csv records))
         = content (snd (QbInvAllIO.export_to_csv records'))
         -> records = records').
Proof.
  split; [| split; [| split]].
  - intros root root'.
    apply dict_export_determined;
      auto using invoice_fieldnames_distinct, invoice_records_keys.
  - intros root root'.
    apply dict_export_determined;
      auto using so_fieldnames_distinct, so_records_keys.
  - intros root root'.
    apply dict_export_determined;
      auto using po_fieldnames_distinct, po_records_keys.
  - intros records records'; unfold QbInvAllIO.export_to_csv.
    cbn [snd content]; intros H.
    apply append_cancel, csv_rows_determined in H.
    revert records' H.
    induction records as [| [n e] records IH]; intros [| [n' e'] records'] H;
      try discriminate; [reflexivity |].
    cbn [map fst snd] in H; injection H as -> -> H.
    f_equal; auto.
Qed.

Lemma all_columns_distinct : NoDup QbShiptoIO.all_columns.
Proof. distinct_strings. Qed.

(** A kept record is known from its values in the columns written: in the
    other columns it holds nothing. *)
Lemma shipto_record_determined (columns : list string) (r r' : record) :
  map fst r = QbShiptoIO.all_columns ->
  map fst r' = QbShiptoIO.all_columns ->
  (forall col,
      In col QbShiptoIO.all_columns -> ~ In col columns ->
      QbShiptoIO.get_or_empty r col = EmptyString) ->
  (forall col,
      In col QbShiptoIO.all_columns -> ~ In col columns ->
      QbShiptoIO.get_or_empty r' col = EmptyString) ->
  map (QbShiptoIO.get_or_empty r) columns
  = map (QbShiptoIO.get_or_empty r') columns ->
  r = r'.
Proof.
  intros Hk Hk' He He' Hv.
  apply record_determined; [congruence |].
  rewrite <- (lookup_own_keys r), <- (lookup_own_keys r')
    by (rewrite ?Hk, ?Hk'; exact all_columns_distinct).
  rewrite Hk, Hk'.
  apply map_ext_in; intros col Hcol.
  fold (QbShiptoIO.get_or_empty r col); fold (QbShiptoIO.get_or_empty r' col).
  destruct (in_dec string_dec col columns) as [Hin | Hout].
  - exact (ext_in_map Hv col Hin).
  - now rewrite (He col Hcol Hout), (He' col Hcol Hout).
Qed.

Lemma shipto_records_determined (columns : list string)
  (records records' : list record) :
  Forall
    (fun r =>
       map fst r = QbShiptoIO.all_columns
       /\ forall col,
           In col QbShiptoIO.all_columns -> ~ In col columns ->
           QbShiptoIO.get_or_empty r col = EmptyString)
    records ->
  Forall
    (fun r =>
       map fst r = QbShiptoIO.all_columns
       /\ forall col,
           In col QbShiptoIO.all_columns -> ~ In col columns ->
           QbShiptoIO.get_or_empty r col = EmptyString)
    records' ->
  map (fun r => map (QbShiptoIO.get_or_empty r) columns) records
  = map (fun r => map (QbShiptoIO.get_or_empty r) columns) records' ->
  records = records'.
Proof.
  intros Hr; revert records'.
  induction Hr as [| r records [Hk He] _ IH]; intros [| r' records'] Hr' Hv;
    try discriminate; [reflexivity |].
  apply Forall_cons_iff in Hr'; destruct Hr' as [[Hk' He'] Hr'].
  cbn [map] in Hv; injection Hv as Hv Hrest.
  rewrite (shipto_record_determined columns r r' Hk Hk' He He' Hv).
  now rewrite (IH records' Hr' Hrest).
Qed.

(** Outside the columns with data a gathered record holds nothing. *)
Lemma gathered_records (responses : list Element) :
  Forall
    (fun r =>
       map fst r = QbShiptoIO.all_columns
       /\ forall col,
           In col QbShiptoIO.all_columns ->
           ~ In col
               (QbShiptoIO.columns_with_data
                  (flat_map QbShipto.parse_shipto responses)) ->
           QbShiptoIO.get_or_empty r col = EmptyString)
    (flat_map QbShipto.parse_shipto responses).
Proof.
  apply Forall_forall; intros r Hr; split.
  - now destruct (parse_shipto_kept responses r Hr).
  - intros col Hcol Hout.
    destruct (QbShiptoIO.get_or_empty r col) eqn:E; [reflexivity |].
    contradiction Hout; apply column_with_data; split; [exact Hcol |].
    exists r; split; [exact Hr | rewrite E; discriminate].
Qed.

(** X15: Dropping the empty columns loses nothing: two runs of [qb_shipto.py]
    whose exports agree, both writing no file or both writing the same text,
    gathered the same records, whatever the times of the exports. *)
Theorem shipto_file_determines_records :
  forall (responses responses' : list Element) (timestamp timestamp' : string),
    option_map (fun file => content (snd file))
      (QbShiptoIO.export_to_csv (flat_map QbShipto.parse_shipto responses)
         true timestamp)
    = option_map (fun file => content (snd file))
        (QbShiptoIO.export_to_csv
           (flat_map QbShipto.parse_shipto responses') true timestamp') ->
    flat_map QbShipto.parse_shipto responses
    = flat_map QbShipto.parse_shipto responses'.
Proof.
  intros responses responses' timestamp timestamp'.
  pose proof (gathered_records responses) as Hr.
  pose proof (gathered_records responses') as Hr'.
  unfold QbShiptoIO.export_to_csv, dict_export.
  destruct (flat_map QbShipto.parse_shipto responses) as [| r0 rest] eqn:E;
    destruct (flat_map QbShipto.parse_shipto responses') as [| r0' rest']
      eqn:E';
    cbn [is_empty option_map snd content]; try discriminate;
    [reflexivity |].
  rewrite !dict_writerows_ignoring; cbn [content].
  rewrite <- !csv_rows_cons; intros H; injection H as H.
  apply csv_rows_determined in H.
  pose proof (f_equal (@hd (list string) []) H) as Hcols.
  pose proof (f_equal (@tl (list string)) H) as Hrows.
  cbn [hd tl] in Hcols, Hrows.
  rewrite <- Hcols in Hr', Hrows.
  exact (shipto_records_determined _ _ _ Hr Hr' Hrows).
Qed.

Lemma shipto_file_determines_two_batches :
  flat_map QbShipto.parse_shipto two_more
  = flat_map QbShipto.parse_shipto (two_more ++ [batch_without_token]).
Proof.
  apply (shipto_file_determines_records two_more
           (two_more ++ [batch_without_token])
           "20240229_120000" "20240301_080000").
  reflexivity.
Defined.

(** ** Requests that are well formed *)

Lemma scan_all_app (a b : string) (st : scanner) :
  scan_all st (a ++ b) = scan_all (scan_all st a) b.
Proof.
  revert st; induction a as [| c a IH]; intros st; [reflexivity |].
  cbn [append scan_all]; apply IH.
Qed.

Lemma free_of_app (bad : list ascii) (a b : string) :
  free_of bad (a ++ b) = free_of bad a && free_of bad b.
Proof.
  induction a as [| c a IH]; [reflexivity |].
  cbn [append free_of]; now rewrite IH, andb_assoc.
Qed.

(** Text without [<] and [&] leaves the scanner where it is inside an
    element. *)
Lemma scan_content (s : string) (tags : list string) (top : string)
  (closed : bool) :
  free_of markup_chars s = true ->
  scan_all (mkScanner Content (top :: tags) closed) s
  = mkScanner Content (top :: tags) closed.
Proof.
  induction s as [| c s IH]; intros Hs; [reflexivity |].
  cbn [free_of markup_chars existsb] in Hs.
  apply andb_prop in Hs; destruct Hs as [Hc Hs].
  apply negb_true_iff in Hc.
  apply orb_false_elim in Hc; destruct Hc as [Hlt Hc].
  apply orb_false_elim in Hc; destruct Hc as [Hamp _].
  cbn [scan_all]; unfold scan; cbn [mode open_tags is_empty].
  rewrite Hlt, Hamp; auto.
Qed.

(** Text without [<], [&] and the quote that opened it leaves it where it is
    inside an attribute value. *)
Lemma scan_attribute (s : string) (name : string) (quote : ascii)
  (tags : list string) (closed : bool) :
  free_of ["<"%char; "&"%char; quote] s = true ->
  scan_all (mkScanner (AttrValue name quote) tags closed) s
  = mkScanner (AttrValue name quote) tags closed.
Proof.
  induction s as [| c s IH]; intros Hs; [reflexivity |].
  cbn [free_of existsb] in Hs.
  apply andb_prop in Hs; destruct Hs as [Hc Hs].
  apply negb_true_iff in Hc.
  apply orb_false_elim in Hc; destruct Hc as [Hlt Hc].
  apply orb_false_elim in Hc; destruct Hc as [Hamp Hc].
  apply orb_false_elim in Hc; destruct Hc as [Hdq _].
  cbn [scan_all]; unfold scan; cbn [mode].
  rewrite Hdq, Hlt, Hamp; auto.
Qed.

Lemma digit_plain (n : nat) :
  negb (existsb (Ascii.eqb (digit n)) markup_chars) = true.
Proof.
  unfold digit.
  assert (H : n mod 10 < 10) by (apply Nat.mod_upper_bound; lia).
  destruct (n mod 10) as [| k]; [reflexivity |].
  do 9 (destruct k as [| k]; [reflexivity |]).
  lia.
Qed.

Lemma zero_padded_plain (width n : nat) :
  free_of markup_chars (zero_padded width n) = true.
Proof.
  revert n; induction width as [| w IH]; intros n; [reflexivity |].
  cbn [zero_padded]; rewrite free_of_app, IH.
  cbn [free_of andb]; now rewrite digit_plain.
Qed.

Lemma isoformat_plain (d : date) : free_of markup_chars (isoformat d) = true.
Proof.
  unfold isoformat.
  rewrite !free_of_app, !zero_padded_plain; reflexivity.
Qed.

(** Scan the next piece of text that is written out in full. *)
Ltac scan_text :=
  match goal with
  | |- context [scan_all (mkScanner ?m ?t ?c) ?piece] =>
      let st := eval vm_compute in (scan_all (mkScanner m t c) piece) in
      change (scan_all (mkScanner m t c) piece) with st
  end.

(** Cut the text in three where it is written as [a ++ b ++ c]. *)
Ltac scan_three :=
  match goal with
  | |- context [scan_all ?st (?a ++ ?b ++ ?c)%string] =>
      rewrite (scan_all_app a (b ++ c)%string st), (scan_all_app b c)
  end.

Ltac single_request Hs :=
  unfold well_formed; cbv zeta; scan_three;
  scan_text; rewrite (scan_content _ _ _ _ Hs); scan_text; reflexivity.

Lemma invoice_request_well_formed (s : string) :
  free_of markup_chars s = true ->
  well_formed (QbInv.build_qbxml_invoice_request s) = true.
Proof.
  intros Hs.
  replace (QbInv.build_qbxml_invoice_request s)
    with (("<?xml version=" ++ q "1.0" ++ " encoding=" ++ q "utf-8" ++ "?>"
           ++ nl ++ "<?qbxml version=" ++ q "16.0" ++ "?>" ++ nl
           ++ "<QBXML>" ++ nl
           ++ "  <QBXMLMsgsRq onError=" ++ q "continueOnError" ++ ">" ++ nl
           ++ "    <InvoiceQueryRq requestID=" ++ q "1" ++ ">" ++ nl
           ++ "      <RefNumber>")
          ++ s
          ++ ("</RefNumber>" ++ nl
              ++ "      <IncludeLineItems>1</IncludeLineItems>" ++ nl
              ++ "    </InvoiceQueryRq>" ++ nl ++ "  </QBXMLMsgsRq>" ++ nl
              ++ "</QBXML>"))%string
    by reflexivity.
  single_request Hs.
Qed.

Lemma so_request_well_formed (s : string) :
  free_of markup_chars s = true ->
  well_formed (QbSo.build_qbxml_so_request s) = true.
Proof.
  intros Hs.
  replace (QbSo.build_qbxml_so_request s)
    with (("<?xml version=" ++ q "1.0" ++ " encoding=" ++ q "utf-8" ++ "?>"
           ++ nl ++ "<?qbxml version=" ++ q "16.0" ++ "?>" ++ nl
           ++ "<QBXML>" ++ nl
           ++ "  <QBXMLMsgsRq onError=" ++ q "continueOnError" ++ ">" ++ nl
           ++ "    <SalesOrderQueryRq requestID=" ++ q "1" ++ ">" ++ nl
           ++ "      <RefNumber>")
          ++ s
          ++ ("</RefNumber>" ++ nl
              ++ "      <IncludeLineItems>1</IncludeLineItems>" ++ nl
              ++ "    </SalesOrderQueryRq>" ++ nl ++ "  </QBXMLMsgsRq>" ++ nl
              ++ "</QBXML>"))%string
    by reflexivity.
  single_request Hs.
Qed.

Lemma po_request_well_formed (s : string) :
  free_of markup_chars s = true ->
  well_formed (QbPo.build_qbxml_po_request s) = true.
Proof.
  intros Hs.
  replace (QbPo.build_qbxml_po_request s)
    with (("<?xml version=" ++ q "1.0" ++ " encoding=" ++ q "utf-8" ++ "?>"
           ++ nl ++ "<?qbxml version=" ++ q "16.0" ++ "?>" ++ nl
           ++ "<QBXML>" ++ nl
           ++ "  <QBXMLMsgsRq onError=" ++ q "continueOnError" ++ ">" ++ nl
           ++ "    <PurchaseOrderQueryRq requestID=" ++ q "1" ++ ">" ++ nl
           ++ "      <RefNumber>")
          ++ s
          ++ ("</RefNumber>" ++ nl
              ++ "      <IncludeLineItems>1</IncludeLineItems>" ++ nl
              ++ "    </PurchaseOrderQueryRq>" ++ nl ++ "  </QBXMLMsgsRq>"
              ++ nl ++ "</QBXML>"))%string
    by reflexivity.
  single_request Hs.
Qed.

Ltac year_request Hyear today :=
  unfold well_formed; cbv zeta; scan_three; scan_three;
  rewrite (scan_all_app _ "-01-01");
  scan_text; rewrite (scan_content _ _ _ _ Hyear); scan_text; scan_text;
  rewrite (scan_content _ _ _ _ (isoformat_plain today));
  scan_text; reflexivity.

Lemma invoice_year_request_well_formed (today : date) (year : string) :
  free_of markup_chars year = true ->
  well_formed (QbInv.build_qbxml_year_invoices_request today year) = true.
Proof.
  intros Hyear.
  replace (QbInv.build_qbxml_year_invoices_request today year)
    with (("<?xml version=" ++ q "1.0" ++ " encoding=" ++ q "utf-8" ++ "?>"
           ++ nl ++ "<?qbxml version=" ++ q "16.0" ++ "?>" ++ nl
           ++ "<QBXML>" ++ nl
           ++ "  <QBXMLMsgsRq onError=" ++ q "continueOnError" ++ ">" ++ nl
           ++ "    <InvoiceQueryRq requestID=" ++ q "1" ++ ">" ++ nl
           ++ "      <TxnDateRangeFilter>" ++ nl
           ++ "        <FromTxnDate>")
          ++ (year ++ "-01-01")
          ++ ("</FromTxnDate>" ++ nl ++ "        <ToTxnDate>")
          ++ isoformat today
          ++ ("</ToTxnDate>" ++ nl ++ "      </TxnDateRangeFilter>" ++ nl
              ++ "      <IncludeLineItems>1</IncludeLineItems>" ++ nl
              ++ "    </InvoiceQueryRq>" ++ nl ++ "  </QBXMLMsgsRq>" ++ nl
              ++ "</QBXML>"))%string
    by reflexivity.
  year_request Hyear today.
Qed.

Lemma so_year_request_well_formed (today : date) (year : string) :
  free_of markup_chars year = true ->
  well_formed (QbSo.build_qbxml_year_so_request today year) = true.
Proof.
  intros Hyear.
  replace (QbSo.build_qbxml_year_so_request today year)
    with (("<?xml version=" ++ q "1.0" ++ " encoding=" ++ q "utf-8" ++ "?>"
           ++ nl ++ "<?qbxml version=" ++ q "16.0" ++ "?>" ++ nl
           ++ "<QBXML>" ++ nl
           ++ "  <QBXMLMsgsRq onError=" ++ q "continueOnError" ++ ">" ++ nl
           ++ "    <SalesOrderQueryRq requestID=" ++ q "1" ++ ">" ++ nl
           ++ "      <TxnDateRangeFilter>" ++ nl
           ++ "        <FromTxnDate>")
          ++ (year ++ "-01-01")
          ++ ("</FromTxnDate>" ++ nl ++ "        <ToTxnDate>")
          ++ isoformat today
          ++ ("</ToTxnDate>" ++ nl ++ "      </TxnDateRangeFilter>" ++ nl
              ++ "      <IncludeLineItems>1</IncludeLineItems>" ++ nl
              ++ "    </SalesOrderQueryRq>" ++ nl ++ "  </QBXMLMsgsRq>" ++ nl
              ++ "</QBXML>"))%string
    by reflexivity.
  year_request Hyear today.
Qed.

Lemma po_year_request_well_formed (today : date) (year : string) :
  free_of markup_chars year = true ->
  well_formed (QbPo.build_qbxml_year_po_request today year) = true.
Proof.
  intros Hyear.
  replace (QbPo.build_qbxml_year_po_request today year)
    with (("<?xml version=" ++ q "1.0" ++ " encoding=" ++ q "utf-8" ++ "?>"
           ++ nl ++ "<?qbxml version=" ++ q "16.0" ++ "?>" ++ nl
           ++ "<QBXML>" ++ nl
           ++ "  <QBXMLMsgsRq onError=" ++ q "continueOnError" ++ ">" ++ nl
           ++ "    <PurchaseOrderQueryRq requestID=" ++ q "1" ++ ">" ++ nl
           ++ "      <TxnDateRangeFilter>" ++ nl
           ++ "        <FromTxnDate>")
          ++ (year ++ "-01-01")
          ++ ("</FromTxnDate>" ++ nl ++ "        <ToTxnDate>")
          ++ isoformat today
          ++ ("</ToTxnDate>" ++ nl ++ "      </TxnDateRangeFilter>" ++ nl
              ++ "      <IncludeLineItems>1</IncludeLineItems>" ++ nl
              ++ "    </PurchaseOrderQueryRq>" ++ nl ++ "  </QBXMLMsgsRq>"
              ++ nl ++ "</QBXML>"))%string
    by reflexivity.
  year_request Hyear today.
Qed.



Ltac scan_value H :=
  match goal with
  | |- context [scan_all (mkScanner (AttrValue ?name ?quote) ?tags ?closed)
                         ?value] =>
      rewrite (scan_attribute value name quote tags closed H)
  end.

Ltac first_request Hmode :=
  unfold well_formed; cbv zeta; scan_three;
  scan_text; scan_value Hmode; scan_text; reflexivity.

Ltac next_request Hmode Htoken :=
  unfold well_formed; cbv zeta; scan_three; scan_three;
  scan_text; scan_value Hmode; scan_text; scan_value Htoken; scan_text;
  reflexivity.

Lemma shipto_request_well_formed (iterator_mode : string)
  (iterator_id : option string) :
  free_of attribute_chars iterator_mode = true ->
  free_of attribute_chars (token_text iterator_id) = true ->
  well_formed
    (QbShipto.build_qbxml_customers_request iterator_mode iterator_id)
  = true.
Proof.
  intros Hmode Htoken.
  unfold QbShipto.build_qbxml_customers_request, q; cbv zeta.
  destruct iterator_id as [[| c token] |]; cbn [truthy token_text] in *;
    rewrite !append_assoc.
  - change (well_formed
              (("<?xml version=" ++ q "1.0" ++ " encoding=" ++ q "utf-8"
                ++ "?>" ++ nl ++ "<?qbxml version=" ++ q "16.0" ++ "?>" ++ nl
                ++ "<QBXML>" ++ nl
                ++ "  <QBXMLMsgsRq onError=" ++ q "continueOnError" ++ ">"
                ++ nl ++ "    <CustomerQueryRq requestID=" ++ q "1"
                ++ " iterator=" ++ dq)
               ++ iterator_mode
               ++ (dq ++ ">" ++ nl
                   ++ "      <MaxReturned>100</MaxReturned>" ++ nl
                   ++ "    </CustomerQueryRq>" ++ nl
                   ++ "  </QBXMLMsgsRq>" ++ nl ++ "</QBXML>"))%string
            = true).
    first_request Hmode.
  - change (well_formed
              (("<?xml version=" ++ q "1.0" ++ " encoding=" ++ q "utf-8"
                ++ "?>" ++ nl ++ "<?qbxml version=" ++ q "16.0" ++ "?>" ++ nl
                ++ "<QBXML>" ++ nl
                ++ "  <QBXMLMsgsRq onError=" ++ q "continueOnError" ++ ">"
                ++ nl ++ "    <CustomerQueryRq requestID=" ++ q "1"
                ++ " iterator=" ++ dq)
               ++ iterator_mode
               ++ (dq ++ " iteratorID=" ++ dq)
               ++ String c token
               ++ (dq ++ ">" ++ nl
                   ++ "      <MaxReturned>100</MaxReturned>" ++ nl
                   ++ "    </CustomerQueryRq>" ++ nl
                   ++ "  </QBXMLMsgsRq>" ++ nl ++ "</QBXML>"))%string
            = true).
    next_request Hmode Htoken.
  - change (well_formed
              (("<?xml version=" ++ q "1.0" ++ " encoding=" ++ q "utf-8"
                ++ "?>" ++ nl ++ "<?qbxml version=" ++ q "16.0" ++ "?>" ++ nl
                ++ "<QBXML>" ++ nl
                ++ "  <QBXMLMsgsRq onError=" ++ q "continueOnError" ++ ">"
                ++ nl ++ "    <CustomerQueryRq requestID=" ++ q "1"
                ++ " iterator=" ++ dq)
               ++ iterator_mode
               ++ (dq ++ ">" ++ nl
                   ++ "      <MaxReturned>100</MaxReturned>" ++ nl
                   ++ "    </CustomerQueryRq>" ++ nl
                   ++ "  </QBXMLMsgsRq>" ++ nl ++ "</QBXML>"))%string
            = true).
    first_request Hmode.
Qed.

Lemma listing_request_well_formed (iterator_mode : string)
  (iterator_id : option string) :
  free_of attribute_chars iterator_mode = true ->
  free_of attribute_chars (token_text iterator_id) = true ->
  well_formed
    (QbInvAll.build_qbxml_customers_request iterator_mode iterator_id)
  = true.
Proof.
  intros Hmode Htoken.
  unfold QbInvAll.build_qbxml_customers_request, q; cbv zeta.
  destruct iterator_id as [[| c token] |]; cbn [truthy token_text] in *;
    rewrite !append_assoc.
  - change (well_formed
              (("<?xml version=" ++ q "1.0" ++ " encoding=" ++ q "utf-8"
                ++ "?>" ++ nl ++ "<?qbxml version=" ++ q "16.0" ++ "?>" ++ nl
                ++ "<QBXML>" ++ nl
                ++ "  <QBXMLMsgsRq onError=" ++ q "continueOnError" ++ ">"
                ++ nl ++ "    <CustomerQueryRq requestID=" ++ q "1"
                ++ " iterator=" ++ dq)
               ++ iterator_mode
               ++ (dq ++ ">" ++ nl
                   ++ "      <IncludeRetElement>FullName</IncludeRetElement>"
                   ++ nl
                   ++ "      <IncludeRetElement>ShipToAddressList"
                   ++ "</IncludeRetElement>" ++ nl
                   ++ "      <MaxReturned>100</MaxReturned>" ++ nl
                   ++ "    </CustomerQueryRq>" ++ nl
                   ++ "  </QBXMLMsgsRq>" ++ nl ++ "</QBXML>"))%string
            = true).
    first_request Hmode.
  - change (well_formed
              (("<?xml version=" ++ q "1.0" ++ " encoding=" ++ q "utf-8"
                ++ "?>" ++ nl ++ "<?qbxml version=" ++ q "16.0" ++ "?>" ++ nl
                ++ "<QBXML>" ++ nl
                ++ "  <QBXMLMsgsRq onError=" ++ q "continueOnError" ++ ">"
                ++ nl ++ "    <CustomerQueryRq requestID=" ++ q "1"
                ++ " iterator=" ++ dq)
               ++ iterator_mode
               ++ (dq ++ " iteratorID=" ++ dq)
               ++ String c token
               ++ (dq ++ ">" ++ nl
                   ++ "      <IncludeRetElement>FullName</IncludeRetElement>"
                   ++ nl
                   ++ "      <IncludeRetElement>ShipToAddressList"
                   ++ "</IncludeRetElement>" ++ nl
                   ++ "      <MaxReturned>100</MaxReturned>" ++ nl
                   ++ "    </CustomerQueryRq>" ++ nl
                   ++ "  </QBXMLMsgsRq>" ++ nl ++ "</QBXML>"))%string
            = true).
    next_request Hmode Htoken.
  - change (well_formed
              (("<?xml version=" ++ q "1.0" ++ " encoding=" ++ q "utf-8"
                ++ "?>" ++ nl ++ "<?qbxml version=" ++ q "16.0" ++ "?>" ++ nl
                ++ "<QBXML>" ++ nl
                ++ "  <QBXMLMsgsRq onError=" ++ q "continueOnError" ++ ">"
                ++ nl ++ "    <CustomerQueryRq requestID=" ++ q "1"
                ++ " iterator=" ++ dq)
               ++ iterator_mode
               ++ (dq ++ ">" ++ nl
                   ++ "      <IncludeRetElement>FullName</IncludeRetElement>"
                   ++ nl
                   ++ "      <IncludeRetElement>ShipToAddressList"
                   ++ "</IncludeRetElement>" ++ nl
                   ++ "      <MaxReturned>100</MaxReturned>" ++ nl
                   ++ "    </CustomerQueryRq>" ++ nl
                   ++ "  </QBXMLMsgsRq>" ++ nl ++ "</QBXML>"))%string
            = true).
    first_request Hmode.
Qed.



(** ** Complete runs of the customer exports *)

(** X18: When the channel answers every request and the last batch reports that
    nothing remains, [main] of [qbinv_all.py] writes [shipto_addresses.csv]
    with the header row and one row per record of all batches, in the order of
    the batches, also when there is no record at all; [main] of [qb_shipto.py]
    exports the records of all batches, and writes no address file when there
    is none. *)
Theorem customers_exported :
  forall (Session : Type)
    (ProcessRequest : Session -> string -> option Element * Session)
    (s : Session) (more : list Element) (last : Element) (fuel : nat)
    (timestamp : string),
    answers ProcessRequest s (more ++ [last]) ->
    Forall (fun r => reports_more r = true) more ->
    reports_done last = true ->
    length more < fuel ->
    QbInvAllIO.main ProcessRequest fuel s
    = Some
        ("shipto_addresses.csv",
         mkWritten
           (writerow ["Customer"; "ShipToAddress"]
            ++ csv_rows
                 (map (fun r => [fst r; snd r])
                    (flat_map QbInvAll.parse_shipto (more ++ [last]))))
           true)
    /\ QbShiptoIO.main ProcessRequest fuel s timestamp
       = Some
           (QbShiptoIO.export_to_csv
              (flat_map QbShipto.parse_shipto (more ++ [last]))
              true timestamp)
    /\ (flat_map QbShipto.parse_shipto (more ++ [last]) = [] ->
        QbShiptoIO.main ProcessRequest fuel s timestamp = Some None).
Proof.
  intros Session ProcessRequest s more last fuel timestamp
    Hans Hmore Hlast Hfuel.
  destruct (batch_loop_run Session ProcessRequest (string * string)
              QbInvAll.build_qbxml_customers_request QbInvAll.parse_shipto
              more last Hmore Hlast fuel s None [] [] Hans Hfuel)
    as [s1 Hlisting].
  destruct (batch_loop_run Session ProcessRequest record
              QbShipto.build_qbxml_customers_request QbShipto.parse_shipto
              more last Hmore Hlast fuel s None [] [] Hans Hfuel)
    as [s2 Hcolumns].
  assert (Hmain :
           QbShiptoIO.main ProcessRequest fuel s timestamp
           = Some
               (QbShiptoIO.export_to_csv
                  (flat_map QbShipto.parse_shipto (more ++ [last]))
                  true timestamp)).
  { unfold QbShiptoIO.main, QbShipto.main, QbShipto.main_loop.
    now rewrite Hcolumns. }
  split; [| split].
  - unfold QbInvAllIO.main, QbInvAll.main, QbInvAll.main_loop.
    now rewrite Hlisting.
  - exact Hmain.
  - intros Hnone; rewrite Hmain, Hnone; reflexivity.
Qed.

Lemma customers_exported_three_batches :
  QbInvAllIO.main scripted 3 (two_more ++ [final_batch])
  = Some
      ("shipto_addresses.csv",
       mkWritten
         (writerow ["Customer"; "ShipToAddress"]
          ++ csv_rows
               (map (fun r => [fst r; snd r])
                  (flat_map QbInvAll.parse_shipto
                     (two_more ++ [final_batch]))))
         true)
  /\ QbShiptoIO.main scripted 3 (two_more ++ [final_batch])
       "20240229_120000"
     = Some
         (QbShiptoIO.export_to_csv
            (flat_map QbShipto.parse_shipto (two_more ++ [final_batch]))
            true "20240229_120000")
  /\ (flat_map QbShipto.parse_shipto (two_more ++ [final_batch]) = [] ->
      QbShiptoIO.main scripted 3 (two_more ++ [final_batch])
        "20240229_120000"
      = Some None).
Proof.
  apply (customers_exported (list Element) scripted
           (two_more ++ [final_batch]) two_more final_batch 3).
  - simpl; repeat (intros _; split; [reflexivity |]); exact I.
  - repeat constructor.
  - reflexivity.
  - simpl; lia.
Defined.
